(** * tsh: job table, built-in commands, signal handlers and redirection

    A shallow embedding of [tsh.c].  The job list [jobs[MAXJOBS]] is a list
    of [job_t] records scanned from slot 0, a [struct job_t *] into it is a
    slot index, and every function returns the updated table together with
    the system calls and output it performed.  Answers of the operating
    system ([fork], [kill], [waitpid], [open], [dup2]) are inputs. *)

From Stdlib Require Import ZArith List String Ascii Bool Lia.
From Stdlib Require DecimalString.
Import ListNotations.
Open Scope string_scope.
Open Scope list_scope.
Open Scope Z_scope.

(** ** Manifest constants *)

Definition MAXARGS : Z := 128.
Definition MAXJOBS : nat := 16.

Definition UNDEF : Z := 0.
Definition FG : Z := 1.
Definition BG : Z := 2.
Definition ST : Z := 3.

(** ** Per-job data *)

Record job_t := mkjob {
  pid : Z;          (* job PID *)
  jid : Z;          (* job ID [1, 2, ...] *)
  state : Z;        (* UNDEF, FG, BG, or ST *)
  cmdline : string  (* command line *)
}.

Definition jobs_t := list job_t.

(** Signals the shell sends with [kill]. *)
Inductive signal := SIGINT | SIGTSTP | SIGCONT.

(** What a function does to the outside world, in program order.  A [Kill]
    whose target is positive addresses the single process with that pid; a
    negative target [-g] addresses every process of process group [g]. *)
Inductive effect :=
| Print (s : string)
| Kill (target : Z) (sig : signal)
| Perror (msg : string)
| UnixError (msg : string)
| Open (path : string) (flags mode fd : Z)
| Dup2 (oldfd newfd ret : Z).

(** How a function hands control back: it returns, it calls [waitfg], the
    process exits, it dereferences an invalid pointer, or (after [fork]
    returned 0) it continues as the child. *)
Inductive ctl :=
| Ret
| Wait (p : Z)
| Exit (status : Z)
| Fault
| Child.

Definition LF : string := String "010"%char EmptyString.

(** [printf("%d", z)] *)
Definition dec (z : Z) : string := DecimalString.NilZero.string_of_int (Z.to_int z).


(** [a[i] = x] on an array held as a list, for [i] inside it. *)
Fixpoint upd {A : Type} (a : list A) (i : nat) (x : A) : list A :=
  match a, i with
  | [], _ => []
  | _ :: rest, O => x :: rest
  | y :: rest, S i' => y :: upd rest i' x
  end.

(** ** Helper routines that manipulate the job list *)

Module JobList.

Definition clearjob (job : job_t) : job_t := mkjob 0 0 UNDEF EmptyString.

Definition initjobs (jobs : jobs_t) : jobs_t := map clearjob jobs.

(** The global array before [main] runs [initjobs] over it. *)
Definition jobs0 : jobs_t := initjobs (repeat (mkjob 0 0 0 EmptyString) MAXJOBS).

(** [for (i = 0; i < MAXJOBS; i++) if (test jobs[i]) return &jobs[i];] *)
Fixpoint find_slot (test : job_t -> bool) (jobs : jobs_t) : option nat :=
  match jobs with
  | [] => None
  | j :: rest =>
      if test j then Some O
      else match find_slot test rest with
           | Some i => Some (S i)
           | None => None
           end
  end.

(** Store through a slot pointer. *)
Fixpoint store (jobs : jobs_t) (i : nat) (f : job_t -> job_t) : jobs_t :=
  match jobs, i with
  | [], _ => []
  | j :: rest, O => f j :: rest
  | j :: rest, S i' => j :: store rest i' f
  end.

Definition set_state (s : Z) (j : job_t) : job_t :=
  mkjob (pid j) (jid j) s (cmdline j).

(** [taken[k] = 1]; [taken] has [MAXJOBS + 1] cells and a table reached
    from [initjobs] never holds a jid outside them ([table_ok] below), so
    the write is always in range; outside it the model leaves [taken] as it
    is. *)
Definition mark (taken : list bool) (k : Z) : list bool :=
  if (0 <=? k) && (k <? Z.of_nat (List.length taken))
  then upd taken (Z.to_nat k) true
  else taken.

Fixpoint scan_taken (jobs : jobs_t) (taken : list bool) : list bool :=
  match jobs with
  | [] => taken
  | j :: rest =>
      scan_taken rest (if jid j =? 0 then taken else mark taken (jid j))
  end.

(** [for (i = from; i <= MAXJOBS; i++) if (!taken[i]) return i; return 0;]
    with [n] iterations left. *)
Fixpoint first_free (taken : list bool) (from n : nat) : Z :=
  match n with
  | O => 0
  | S n' =>
      if nth from taken false then first_free taken (S from) n'
      else Z.of_nat from
  end.

(** freejid - Returns smallest free job ID *)
Definition freejid (jobs : jobs_t) : Z :=
  first_free (scan_taken jobs (repeat false (S MAXJOBS))) 1 MAXJOBS.

(** addjob - Add a job to the job list *)
Definition addjob (verbose : bool) (jobs : jobs_t) (p : Z) (s : Z)
  (cmd : string) : jobs_t * Z * list effect :=
  if p <? 1 then (jobs, 0, [])
  else
    let free := freejid jobs in
    if free =? 0 then
      (jobs, 0, [Print ("Tried to create too many jobs" ++ LF)])
    else
      match find_slot (fun j => pid j =? 0) jobs with
      | Some i =>
          (store jobs i (fun _ => mkjob p free s cmd), 1,
           if verbose
           then [Print ("Added job [" ++ dec free ++ "] " ++ dec p ++ " "
                          ++ cmd ++ LF)]
           else [])
      | None => (jobs, 0, [])
      end.

(** deletejob - Delete a job whose PID=pid from the job list *)
Definition deletejob (jobs : jobs_t) (p : Z) : jobs_t * Z :=
  if p <? 1 then (jobs, 0)
  else
    match find_slot (fun j => pid j =? p) jobs with
    | Some i => (store jobs i clearjob, 1)
    | None => (jobs, 0)
    end.

(** fgpid - Return PID of current foreground job, 0 if no such job *)
Definition fgpid (jobs : jobs_t) : Z :=
  match find_slot (fun j => state j =? FG) jobs with
  | Some i => match nth_error jobs i with Some j => pid j | None => 0 end
  | None => 0
  end.

(** getjobpid  - Find a job (by PID) on the job list *)
Definition getjobpid (jobs : jobs_t) (p : Z) : option nat :=
  if p <? 1 then None else find_slot (fun j => pid j =? p) jobs.

(** getjobjid  - Find a job (by JID) on the job list *)
Definition getjobjid (jobs : jobs_t) (k : Z) : option nat :=
  if k <? 1 then None else find_slot (fun j => jid j =? k) jobs.

(** pid2jid - Map process ID to job ID *)
Definition pid2jid (jobs : jobs_t) (p : Z) : Z :=
  if p <? 1 then 0
  else
    match find_slot (fun j => pid j =? p) jobs with
    | Some i => match nth_error jobs i with Some j => jid j | None => 0 end
    | None => 0
    end.

(** One line of [listjobs]. *)
Definition listjob (i : nat) (j : job_t) : list effect :=
  if pid j =? 0 then []
  else
    [Print ("[" ++ dec (jid j) ++ "] (" ++ dec (pid j) ++ ") ");
     Print (if state j =? BG then "Running "
            else if state j =? FG then "Foreground "
            else if state j =? ST then "Stopped "
            else "listjobs: Internal error: job[" ++ dec (Z.of_nat i)
                   ++ "].state=" ++ dec (state j) ++ " ");
     Print (cmdline j)].

Fixpoint listjobs_from (i : nat) (jobs : jobs_t) : list effect :=
  match jobs with
  | [] => []
  | j :: rest => listjob i j ++ listjobs_from (S i) rest
  end.

(** listjobs - Print the job list *)
Definition listjobs (jobs : jobs_t) : list effect := listjobs_from 0 jobs.

End JobList.
Import JobList.

(** ** The built-in commands *)

(** Dereference a slot pointer. *)
Definition slot (jobs : jobs_t) (i : nat) : job_t :=
  nth i jobs (mkjob 0 0 UNDEF EmptyString).

Definition isspace (c : ascii) : bool :=
  let n := nat_of_ascii c in ((9 <=? n) && (n <=? 13))%nat || (n =? 32)%nat.

Definition digit_of (c : ascii) : option Z :=
  let n := nat_of_ascii c in
  if ((48 <=? n) && (n <=? 57))%nat then Some (Z.of_nat n - 48) else None.

Fixpoint atoi_digits (s : string) (acc : Z) : Z :=
  match s with
  | EmptyString => acc
  | String c s' =>
      match digit_of c with
      | Some d => atoi_digits s' (10 * acc + d)
      | None => acc
      end
  end.

Fixpoint skip_space (s : string) : string :=
  match s with
  | EmptyString => EmptyString
  | String c s' => if isspace c then skip_space s' else s
  end.

(** Limits of [long] and [int] on Linux/x86-64 (LP64). *)
Definition LONG_MAX : Z := 9223372036854775807.
Definition LONG_MIN : Z := -9223372036854775808.

(** [strtol(s, NULL, 10)]: optional white space, an optional sign, then
    the longest run of decimal digits; a value outside [long] is replaced
    by the nearest limit. *)
Definition strtol10 (s : string) : Z :=
  let v :=
    match skip_space s with
    | String "-"%char r => - atoi_digits r 0
    | String "+"%char r => atoi_digits r 0
    | r => atoi_digits r 0
    end in
  Z.max LONG_MIN (Z.min LONG_MAX v).

(** The conversion of a [long] to [int]: the low 32 bits, read in two's
    complement. *)
Definition to_int (z : Z) : Z := (z + 2147483648) mod 4294967296 - 2147483648.

(** The C library's [atoi], which the GNU C library computes as
    [(int) strtol(s, NULL, 10)]: the result is always an [int], also for
    digits that spell a larger number. *)
Definition atoi (s : string) : Z := to_int (strtol10 s).

(** [argv[1] + 1] *)
Definition after_first (s : string) : string :=
  match s with
  | EmptyString => EmptyString
  | String _ s' => s'
  end.

(** [argv[1][0] == '%'] *)
Definition is_jid (s : string) : bool :=
  match s with
  | String c _ => Ascii.eqb c "%"%char
  | EmptyString => false
  end.

(** The job that [do_bgfg] resolves [argv[1]] to. *)
Definition resolve (jobs : jobs_t) (argv1 : string) : option nat :=
  if is_jid argv1 then getjobjid jobs (atoi (after_first argv1))
  else getjobpid jobs (atoi argv1).

(** do_bgfg - Execute the builtin bg and fg commands.  [kill_ret] is what
    [kill] returns if the function calls it. *)
Definition do_bgfg (jobs : jobs_t) (argv0 argv1 : string) (kill_ret : Z)
  : jobs_t * list effect * ctl :=
  match resolve jobs argv1 with
  | None => (jobs, [Print (argv1 ++ ": No such job" ++ LF)], Ret)
  | Some i =>
      if String.eqb argv0 "bg" then
        let jobs1 := store jobs i (set_state BG) in
        let job := slot jobs1 i in
        if kill_ret =? -1 then
          (jobs1, [Kill (- pid job) SIGCONT; Perror "kill"], Exit (-1))
        else
          (jobs1,
           [Kill (- pid job) SIGCONT;
            Print ("[" ++ dec (jid job) ++ "] (" ++ dec (pid job) ++ ") "
                     ++ cmdline job)],
           Ret)
      else if String.eqb argv0 "fg" then
        let jobs1 := store jobs i (set_state FG) in
        let job := slot jobs1 i in
        let current_pid := fgpid jobs1 in
        if current_pid =? 0 then (jobs1, [], Ret)
        else if kill_ret =? -1 then
          (jobs1, [Kill (- pid job) SIGCONT; Perror "kill"], Exit (-1))
        else (jobs1, [Kill (- pid job) SIGCONT], Wait current_pid)
      else (jobs, [], Ret)
  end.

(** builtin_cmd - If the user has typed a built-in command then execute it
    immediately.  [None] is the return value 0 (not a builtin command). *)
Definition builtin_cmd (jobs : jobs_t) (argv : list string) (kill_ret : Z)
  : option (jobs_t * list effect * ctl) :=
  match argv with
  | [] => None
  | argv0 :: rest =>
      if String.eqb argv0 "jobs" then Some (jobs, listjobs jobs, Ret)
      else if String.eqb argv0 "quit" then Some (jobs, [], Exit 1)
      else if String.eqb argv0 "bg" || String.eqb argv0 "fg" then
        match rest with
        | [] => Some (jobs, [Print ("Missing process Id or Job id" ++ LF)], Ret)
        | argv1 :: _ => Some (do_bgfg jobs argv0 argv1 kill_ret)
        end
      else None
  end.

(** eval - Evaluate the command line that the user has just typed in, as
    the shell process sees it.  [argv] is what [parseline] produced from
    [cmd], [fork_ret] what [fork] returns. *)
Definition eval (verbose : bool) (jobs : jobs_t) (argv : list string)
  (cmd : string) (fork_ret kill_ret : Z) : jobs_t * list effect * ctl :=
  match argv with
  | [] => (jobs, [], Ret)
  | _ =>
      match builtin_cmd jobs argv kill_ret with
      | Some r => r
      | None =>
          let st := if String.eqb (last argv EmptyString) "&" then BG else FG in
          if fork_ret <? 0 then (jobs, [UnixError "fork"], Exit 1)
          else if fork_ret =? 0 then (jobs, [], Child)
          else
            match addjob verbose jobs fork_ret st cmd with
            | (jobs1, r, out) =>
                if negb (r =? 1) then (jobs1, out ++ [UnixError "addjob"], Exit 1)
                else if st =? BG then
                  match getjobpid jobs1 fork_ret with
                  | None => (jobs1, out, Fault)
                  | Some i =>
                      let job := slot jobs1 i in
                      (jobs1,
                       out ++
                       [Print ("[" ++ dec (jid job) ++ "] (" ++ dec (pid job)
                                 ++ ") ");
                        Print "Running ";
                        Print (cmdline job)],
                       Ret)
                  end
                else (jobs1, out, Wait fork_ret)
            end
      end
  end.

(** ** Signal handlers *)

(** sigchld_handler - reap all available zombie children.  [rets] are the
    successive return values of [waitpid(-1, NULL, WNOHANG)]; the loop ends
    at the first one that is not positive. *)
Fixpoint sigchld_handler (jobs : jobs_t) (rets : list Z) : jobs_t :=
  match rets with
  | [] => jobs
  | j :: rets' =>
      if 0 <? j then sigchld_handler (fst (deletejob jobs j)) rets'
      else jobs
  end.

(** sigint_handler - catch ctrl-c and send it along to the foreground job. *)
Definition sigint_handler (jobs : jobs_t) (kill_ret : Z)
  : jobs_t * list effect * ctl :=
  let fg := fgpid jobs in
  if fg =? 0 then (jobs, [], Ret)
  else if kill_ret =? -1 then
    (jobs, [Kill (- fg) SIGINT; Perror "kill"], Exit (-1))
  else
    match getjobpid jobs fg with
    | None => (jobs, [Kill (- fg) SIGINT], Fault)
    | Some i =>
        let job := slot jobs i in
        (jobs,
         [Kill (- fg) SIGINT;
          Print ("Job [" ++ dec (jid job) ++ "] (" ++ dec (pid job)
                   ++ ") terminated by signal 2" ++ LF)],
         Ret)
    end.

(** sigtstp_handler - catch ctrl-z and suspend the foreground job. *)
Definition sigtstp_handler (jobs : jobs_t) (kill_ret : Z)
  : jobs_t * list effect * ctl :=
  let fg := fgpid jobs in
  if fg =? 0 then (jobs, [], Ret)
  else if kill_ret =? -1 then
    (jobs, [Kill fg SIGTSTP; Perror "kill"], Exit (-1))
  else
    match getjobpid jobs fg with
    | None => (jobs, [Kill fg SIGTSTP], Fault)
    | Some i => (store jobs i (set_state ST), [Kill fg SIGTSTP], Ret)
    end.

(** ** The shell as a transition system *)

(** The shell in runs in which a signal handler executes only while the
    main flow reads a command line or is suspended in [waitfg], each
    command line and each handler running to its end without a handler in
    between.  [tsh.c] blocks the signals from line 257 to line 320 of
    [eval] only; a handler that runs inside a built-in command is the
    subject of [fine_step] below.

    The main flow is reading a command line, is suspended in [waitfg p], or
    has stopped running the read/eval loop. *)
Inductive mode := Prompt | Waiting (p : Z) | Halted.

Record shell := mkshell { sh_jobs : jobs_t; sh_mode : mode }.

(** waitfg - Block until process pid is no longer the foreground process.
    The loop tests [pid == fgpid(jobs)] and suspends until a handler has
    run; the result is where the main flow is after one test. *)
Definition waitfg (p : Z) (jobs : jobs_t) : mode :=
  if p =? fgpid jobs then Waiting p else Prompt.

Inductive event :=
| Line (argv : list string) (cmd : string) (fork_ret kill_ret : Z)
| Sigchld (rets : list Z)
| Sigint (kill_ret : Z)
| Sigtstp (kill_ret : Z).

Definition after_command (r : jobs_t * list effect * ctl)
  : shell * list effect :=
  match r with
  | (jobs, out, Ret) => (mkshell jobs Prompt, out)
  | (jobs, out, Wait p) => (mkshell jobs (waitfg p jobs), out)
  | (jobs, out, _) => (mkshell jobs Halted, out)
  end.

(** A handler returns into the interrupted main flow; a suspended [waitfg]
    then tests its condition again. *)
Definition after_handler (m : mode) (r : jobs_t * list effect * ctl)
  : shell * list effect :=
  match r with
  | (jobs, out, Ret) =>
      (mkshell jobs
         match m with
         | Waiting p => waitfg p jobs
         | _ => m
         end, out)
  | (jobs, out, _) => (mkshell jobs Halted, out)
  end.

Section Machine.

Variable verbose : bool.

(** One step of such a run.  A command line is read only at the prompt;
    signals are handled at the prompt and while [waitfg] is suspended. *)
Definition step (s : shell) (e : event) : option (shell * list effect) :=
  match sh_mode s, e with
  | Halted, _ => None
  | Prompt, Line argv cmd fork_ret kill_ret =>
      Some (after_command (eval verbose (sh_jobs s) argv cmd fork_ret kill_ret))
  | Waiting _, Line _ _ _ _ => None
  | m, Sigchld rets =>
      Some (after_handler m (sigchld_handler (sh_jobs s) rets, [], Ret))
  | m, Sigint kill_ret =>
      Some (after_handler m (sigint_handler (sh_jobs s) kill_ret))
  | m, Sigtstp kill_ret =>
      Some (after_handler m (sigtstp_handler (sh_jobs s) kill_ret))
  end.

Fixpoint run (s : shell) (es : list event) : option (shell * list effect) :=
  match es with
  | [] => Some (s, [])
  | e :: es' =>
      match step s e with
      | None => None
      | Some (s1, out1) =>
          match run s1 es' with
          | None => None
          | Some (s2, out2) => Some (s2, out1 ++ out2)
          end
      end
  end.

End Machine.

(** The shell after [initjobs], about to print its first prompt. *)
Definition shell0 : shell := mkshell jobs0 Prompt.

(** Number of entries in the FG state. *)
Fixpoint fgcount (jobs : jobs_t) : nat :=
  match jobs with
  | [] => O
  | j :: rest => if state j =? FG then S (fgcount rest) else fgcount rest
  end.

(** ** Stream redirection in the child *)

(** Values of [<fcntl.h>] and [<sys/stat.h>] on Linux. *)
Definition O_RDONLY : Z := 0.
Definition O_RDWR : Z := 2.
Definition O_CREAT : Z := 64.
Definition O_TRUNC : Z := 512.
Definition S_IRUSR : Z := 256.
Definition S_IWUSR : Z := 128.

(** A cell of [char *argv[MAXARGS]]: a pointer to a token, the null
    pointer, or whatever the uninitialised stack held. *)
Inductive cell := Tok (s : string) | Null | Junk.

(** [argv] as [parseline] leaves it: the tokens, a null pointer, and the
    rest of the array untouched. *)
Definition argv_of (tokens : list string) : list cell :=
  map Tok tokens ++ Null ::
  repeat Junk (Z.to_nat MAXARGS - List.length tokens - 1).

(** The argument vector [execve] reads: the tokens up to the first null
    pointer; [None] when it meets an uninitialised cell or runs off the
    array first. *)
Fixpoint exec_args (argv : list cell) : option (list string) :=
  match argv with
  | [] => None
  | Null :: _ => Some []
  | Junk :: _ => None
  | Tok s :: rest =>
      match exec_args rest with
      | Some l => Some (s :: l)
      | None => None
      end
  end.

(** Read [arr[i]]; [None] outside the array. *)
Definition rd (arr : list cell) (i : Z) : option cell :=
  if i <? 0 then None else nth_error arr (Z.to_nat i).

(** Write [arr[i] = c]; [None] outside the array. *)
Definition wr (arr : list cell) (i : Z) (c : cell) : option (list cell) :=
  if (0 <=? i) && (i <? Z.of_nat (List.length arr))
  then Some (upd arr (Z.to_nat i) c)
  else None.

(** [for (i = index; i < arr_l; i++) arr[i] = arr[i + num_args];] with [n]
    iterations left. *)
Fixpoint shift_args (arr : list cell) (i num_args : Z) (n : nat)
  : option (list cell) :=
  match n with
  | O => Some arr
  | S n' =>
      match rd arr (i + num_args) with
      | None => None
      | Some c =>
          match wr arr i c with
          | None => None
          | Some arr1 => shift_args arr1 (i + 1) num_args n'
          end
      end
  end.

(** remove_args - shift the elements after [index] down by [num_args], then
    store a null pointer at [index + num_args]. *)
Definition remove_args (arr : list cell) (arr_l index num_args : Z)
  : option (list cell) :=
  match shift_args arr index num_args (Z.to_nat (arr_l - index)) with
  | None => None
  | Some arr1 => wr arr1 (index + num_args) Null
  end.

(** Outcome of code running in the child. *)
Inductive res (A : Type) :=
| Ok (a : A)
| Exits (status : Z)
| Faults
| NoFuel.
Arguments Ok {A} a.
Arguments Exits {A} status.
Arguments Faults {A}.
Arguments NoFuel {A}.

Section Child.

(** The state of the operating system and its two calls. *)
Variable world : Type.
Variable sys_open : world -> string -> Z -> Z -> Z * world.
Variable sys_dup2 : world -> Z -> Z -> Z * world.

(** redirect_stream *)
Definition redirect_stream (w : world) (old new : Z)
  : res world * list effect :=
  if old =? -1 then (Exits 1, [UnixError "open"])
  else
    let (r, w1) := sys_dup2 w old new in
    if r =? -1 then (Exits 1, [Dup2 old new r; UnixError "dup2"])
    else (Ok w1, [Dup2 old new r]).

(** [redirect_stream(fd, t)] for each [t] of [targets] in turn. *)
Fixpoint redirect_each (w : world) (fd : Z) (targets : list Z)
  : res world * list effect :=
  match targets with
  | [] => (Ok w, [])
  | t :: ts =>
      match redirect_stream w fd t with
      | (Ok w1, out1) =>
          let (r, out2) := redirect_each w1 fd ts in (r, out1 ++ out2)
      | other => other
      end
  end.

(** The body shared by the two [if]s of the loop: open [argv[i + 1]],
    redirect, remove the two arguments. *)
Definition redirect_one (w : world) (argv : list cell) (argc i : Z)
  (flags mode : Z) (targets : list Z)
  : res (world * list cell * Z) * list effect :=
  match rd argv (i + 1) with
  | Some (Tok path) =>
      let (fd, w1) := sys_open w path flags mode in
      match redirect_each w1 fd targets with
      | (Ok w2, out) =>
          match remove_args argv argc i 2 with
          | Some argv1 => (Ok (w2, argv1, argc - 2), Open path flags mode fd :: out)
          | None => (Faults, Open path flags mode fd :: out)
          end
      | (Exits s, out) => (Exits s, Open path flags mode fd :: out)
      | (Faults, out) => (Faults, Open path flags mode fd :: out)
      | (NoFuel, out) => (NoFuel, Open path flags mode fd :: out)
      end
  | Some Null => (Exits 1, [UnixError "open"])
  | _ => (Faults, [])
  end.

(** One iteration of the loop at index [i]: [arg] is read once and compared
    with each operator in turn. *)
Definition redirect_at (w : world) (argv : list cell) (argc i : Z)
  : res (world * list cell * Z) * list effect :=
  match rd argv i with
  | Some (Tok arg) =>
      let r1 :=
        if String.eqb arg "<"
        then redirect_one w argv argc i O_RDONLY 0 [0]
        else (Ok (w, argv, argc), []) in
      match r1 with
      | (Ok (w1, argv1, argc1), out1) =>
          if String.eqb arg ">"
          then
            let (r2, out2) :=
              redirect_one w1 argv1 argc1 i (Z.lor O_RDWR O_CREAT)
                (Z.lor S_IRUSR S_IWUSR) [1; 2] in
            (r2, out1 ++ out2)
          else r1
      | _ => r1
      end
  | _ => (Faults, [])
  end.

(** [for (int i = 0; i < argc - 1; i++) ...] *)
Fixpoint redirect_loop (fuel : nat) (w : world) (argv : list cell)
  (argc i : Z) : res (world * list cell * Z) * list effect :=
  if i <? argc - 1 then
    match fuel with
    | O => (NoFuel, [])
    | S fuel' =>
        match redirect_at w argv argc i with
        | (Ok (w1, argv1, argc1), out1) =>
            let (r, out2) := redirect_loop fuel' w1 argv1 argc1 (i + 1) in
            (r, out1 ++ out2)
        | other => other
        end
    end
  else (Ok (w, argv, argc), []).

(** The redirection scan of [eval]'s child branch. *)
Definition redirect (w : world) (argv : list cell) (argc : Z)
  : res (world * list cell * Z) * list effect :=
  redirect_loop (Z.to_nat argc) w argv argc 0.

End Child.

(** An operating system in which every [open] yields descriptor 3 and every
    [dup2] succeeds. *)
Definition open3 (w : unit) (path : string) (flags mode : Z) : Z * unit :=
  (3, w).
Definition dup2_ok (w : unit) (old new : Z) : Z * unit := (new, w).

Definition run_redirect (tokens : list string) :=
  redirect unit open3 dup2_ok tt (argv_of tokens) (Z.of_nat (List.length tokens)).

Definition final_args (r : res (unit * list cell * Z) * list effect)
  : option (list string) :=
  match r with
  | (Ok (_, argv, _), _) => exec_args argv
  | _ => None
  end.

(** ** Vocabulary of the properties *)

(** The table after [sleep 5 &] was launched as process 100. *)
Definition bg_table : jobs_t :=
  fst (fst (eval false jobs0 ["sleep"; "5"; "&"] ("sleep 5 &" ++ LF) 100 0)).

(** The table after [sleep 5] was launched as process 100. *)
Definition fg_table : jobs_t :=
  fst (fst (eval false jobs0 ["sleep"; "5"] ("sleep 5" ++ LF) 100 0)).


(** Every entry in the FG state has pid [p]. *)
Definition fg_is (p : Z) (jobs : jobs_t) : Prop :=
  forall j, In j jobs -> state j = FG -> pid j = p.

(** An entry that carries a jid carries a pid. *)
Definition jid_has_pid (jobs : jobs_t) : Prop :=
  forall j, In j jobs -> jid j <> 0 -> pid j <> 0.

(** The invariant of the transition system. *)
Definition shell_inv (s : shell) : Prop :=
  jid_has_pid (sh_jobs s) /\
  match sh_mode s with
  | Prompt => fgcount (sh_jobs s) = O
  | Waiting p =>
      p <> 0 /\ (fgcount (sh_jobs s) <= 1)%nat /\ fg_is p (sh_jobs s)
  | Halted => (fgcount (sh_jobs s) <= 1)%nat
  end.

(** A handler never adds a foreground entry. *)
Definition calmer (jobs jobs' : jobs_t) : Prop :=
  (jid_has_pid jobs -> jid_has_pid jobs')
  /\ (fgcount jobs' <= fgcount jobs)%nat
  /\ forall p, fg_is p jobs -> fg_is p jobs'.

(** A session: [sleep 5] runs in the foreground as process 100 and is
    suspended with ctrl-z, [sleep 9 &] starts as process 101, and [fg %1]
    resumes the first job. *)
Definition session : list event :=
  [Line ["sleep"; "5"] ("sleep 5" ++ LF) 100 0;
   Sigtstp 0;
   Line ["sleep"; "9"; "&"] ("sleep 9 &" ++ LF) 101 0;
   Line ["fg"; "%1"] ("fg %1" ++ LF) 0 0].

(** Some entry carries jid [k]. *)
Definition jid_used (jobs : jobs_t) (k : Z) : Prop :=
  exists j, In j jobs /\ jid j = k.

(** The jids carried by the entries, in slot order. *)
Definition live_jids (jobs : jobs_t) : list Z :=
  filter (fun k => negb (k =? 0)) (map jid jobs).

(** The job ids a table may hand out: 1..MAXJOBS. *)
Definition all_jids : list Z := map Z.of_nat (seq 1 MAXJOBS).

(** Well-formed tables: MAXJOBS slots, each either cleared or holding a
    positive pid with a jid in 1..MAXJOBS, and no jid carried twice. *)
Definition table_ok (jobs : jobs_t) : Prop :=
  List.length jobs = MAXJOBS
  /\ (forall j, In j jobs ->
        (pid j = 0 /\ jid j = 0)
        \/ (1 <= pid j /\ 1 <= jid j <= Z.of_nat MAXJOBS))
  /\ NoDup (live_jids jobs).

(** Insertions and removals, as [eval] and [sigchld_handler] issue them. *)
Inductive table_op :=
| Insert (p s : Z) (cmd : string)
| Remove (p : Z).

Definition apply_op (verbose : bool) (jobs : jobs_t) (op : table_op)
  : jobs_t :=
  match op with
  | Insert p s cmd => fst (fst (addjob verbose jobs p s cmd))
  | Remove p => fst (deletejob jobs p)
  end.

Definition apply_ops (verbose : bool) (jobs : jobs_t) (ops : list table_op)
  : jobs_t :=
  fold_left (apply_op verbose) ops jobs.

(** Two jobs are inserted and the first one is removed again: the next
    insertion reuses jid 1. *)
Definition reuse_ops : list table_op :=
  [Insert 100 BG "a"; Insert 101 BG "b"; Remove 100].

(** Boolean tests on [Z] as propositions. *)
Ltac bools :=
  rewrite ?andb_true_iff, ?andb_false_iff, ?Z.leb_le, ?Z.ltb_lt, ?Z.leb_gt,
    ?Z.ltb_ge, ?Z.eqb_eq, ?Z.eqb_neq.

(** The operator at [i] and its file name are gone from [argv']: the cells
    below [i] are untouched and the two cells that followed the file name
    now sit at [i] and [i + 1]. *)
Definition consumed (argv argv' : list cell) (i : Z) : Prop :=
  List.length argv' = List.length argv
  /\ (forall k, 0 <= k < i -> rd argv' k = rd argv k)
  /\ rd argv' i = rd argv (i + 2)
  /\ rd argv' (i + 1) = rd argv (i + 3).

(** ** Further vocabulary: the job table *)

(** No two slots hold the same nonzero pid. *)
Definition pids_unique (jobs : jobs_t) : Prop :=
  forall a b, (a < List.length jobs)%nat -> (b < List.length jobs)%nat ->
    pid (slot jobs a) = pid (slot jobs b) -> pid (slot jobs a) <> 0 -> a = b.

(** A cleared slot is UNDEF and a live one is FG, BG or ST. *)
Definition states_ok (jobs : jobs_t) : Prop :=
  forall j, In j jobs ->
    (pid j = 0 -> state j = UNDEF)
    /\ (pid j <> 0 -> state j = FG \/ state j = BG \/ state j = ST).

(** What identifies a job: everything but its state. *)
Definition identity (j : job_t) : Z * Z * string := (pid j, jid j, cmdline j).




(** Sixteen background launches, processes 101 to 116. *)
Definition busy_session : list event :=
  map (fun n => Line ["sleep"; "9"; "&"] ("sleep 9 &" ++ LF) (100 + Z.of_nat n) 0)
      (seq 1 MAXJOBS).

(** The invariant of the job table in a running shell. *)
Definition table_inv (jobs : jobs_t) : Prop := table_ok jobs /\ states_ok jobs.

(** ** parseline *)

Definition MAXLINE : nat := 1024.

(** [buf[strlen(buf)-1] = ' '] *)
Fixpoint set_last_space (s : string) : string :=
  match s with
  | EmptyString => EmptyString
  | String c EmptyString => String " "%char EmptyString
  | String c s' => String c (set_last_space s')
  end.

(** [while ( *buf && ( *buf == ' ')) buf++;] *)
Fixpoint skip_blanks (buf : string) : string :=
  match buf with
  | String c buf' => if Ascii.eqb c " "%char then skip_blanks buf' else buf
  | EmptyString => buf
  end.

(** [delim = strchr(buf, c)]: the text before the first [c] and the text
    from [delim + 1] on; [None] is the null pointer. *)
Fixpoint split_at (c : ascii) (buf : string) : option (string * string) :=
  match buf with
  | EmptyString => None
  | String x buf' =>
      if Ascii.eqb x c then Some (EmptyString, buf')
      else match split_at c buf' with
           | Some (tok, rest) => Some (String x tok, rest)
           | None => None
           end
  end.

(** The loop that builds the argv list, entered at the skipping of spaces;
    every round that finds a delimiter stores one argument and moves [buf]
    behind the delimiter.  [None] only when the fuel runs out. *)
Fixpoint parse_args (fuel : nat) (buf : string) : option (list string) :=
  match fuel with
  | O => None
  | S fuel' =>
      let buf1 := skip_blanks buf in
      let delim :=
        match buf1 with
        | String c r =>
            if Ascii.eqb c "'"%char then split_at "'"%char r
            else split_at " "%char buf1
        | EmptyString => split_at " "%char buf1
        end in
      match delim with
      | None => Some []
      | Some (tok, rest) =>
          match parse_args fuel' rest with
          | Some args => Some (tok :: args)
          | None => None
          end
      end
  end.

(** parseline - Parse the command line and build the argv array.  [None]
    where the C code writes outside its buffers: before [array] for an
    empty line, behind it for a line of MAXLINE characters or more, behind
    [argv] for MAXARGS arguments or more. *)
Definition parseline (cmdline : string) : option (list string) :=
  if ((String.length cmdline =? 0) || (MAXLINE <=? String.length cmdline))%nat
  then None
  else
    match parse_args (S (String.length cmdline)) (set_last_space cmdline) with
    | Some argv =>
        if (List.length argv <? Z.to_nat MAXARGS)%nat then Some argv else None
    | None => None
    end.

(** [eval] on the line as typed: [parseline], then the rest of [eval]. *)
Definition eval_line (verbose : bool) (jobs : jobs_t) (cmdline : string)
  (fork_ret kill_ret : Z) : jobs_t * list effect * ctl :=
  match parseline cmdline with
  | Some argv => eval verbose jobs argv cmdline fork_ret kill_ret
  | None => (jobs, [], Fault)
  end.

(** An argument as typed: a plain word, or text between single quotes. *)
Inductive arg := Plain (w : string) | Quoted (q : string).

Definition arg_text (a : arg) : string :=
  match a with Plain w => w | Quoted q => q end.

Definition arg_source (a : arg) : string :=
  match a with
  | Plain w => w
  | Quoted q => String "'"%char (q ++ String "'"%char EmptyString)
  end.

Fixpoint has_char (c : ascii) (s : string) : bool :=
  match s with
  | EmptyString => false
  | String x s' => Ascii.eqb x c || has_char c s'
  end.

(** A plain word is not empty, holds no space and does not start with a
    quote; quoted text holds no quote. *)
Definition arg_ok (a : arg) : Prop :=
  match a with
  | Plain w =>
      has_char " "%char w = false
      /\ exists c w', w = String c w' /\ Ascii.eqb c "'"%char = false
  | Quoted q => has_char "'"%char q = false
  end.

Fixpoint spaces (n : nat) : string :=
  match n with
  | O => EmptyString
  | S n' => String " "%char (spaces n')
  end.

(** The arguments as a line: each one is followed by a space and [n] more
    spaces. *)
Fixpoint source_line (args : list (arg * nat)) : string :=
  match args with
  | [] => EmptyString
  | (a, n) :: rest =>
      (arg_source a ++ String " "%char (spaces n ++ source_line rest))%string
  end.

Definition texts (args : list (arg * nat)) : list string :=
  map (fun an => arg_text (fst an)) args.

(** ** The child: pipelines and the program launch *)

(** System calls of the child, in program order. *)
Inductive call :=
| Sys (e : effect)
| PipeCall (ret fd0 fd1 : Z)
| ForkCall (ret : Z)
| CloseCall (fd : Z)
| WaitCall
| SetpgidCall
| ExecveCall (path : string) (args : list string)
| Stderr (s : string).

(** [n] cells from [arr[src]] on; [None] outside the array. *)
Fixpoint read_run (arr : list cell) (src : Z) (n : nat)
  : option (list cell) :=
  match n with
  | O => Some []
  | S n' =>
      match rd arr src, read_run arr (src + 1) n' with
      | Some c, Some cs => Some (c :: cs)
      | _, _ => None
      end
  end.

Fixpoint write_run (arr : list cell) (dst : Z) (cs : list cell)
  : option (list cell) :=
  match cs with
  | [] => Some arr
  | c :: cs' =>
      match wr arr dst c with
      | Some arr1 => write_run arr1 (dst + 1) cs'
      | None => None
      end
  end.

(** [memmove(arr + dst, arr + src, n * sizeof(char * ))] *)
Definition memmove (arr : list cell) (dst src n : Z) : option (list cell) :=
  match read_run arr src (Z.to_nat n) with
  | Some cs => write_run arr dst cs
  | None => None
  end.

(** The state [eval] gives a job: BG when the last argument is [&]. *)
Definition launch_state (argv : list string) : Z :=
  if String.eqb (last argv EmptyString) "&" then BG else FG.

(** The array holds the tokens of [l] followed by a null pointer. *)
Definition holds (argv : list cell) (l : list string) : Prop :=
  (forall k, (k < List.length l)%nat ->
     rd argv (Z.of_nat k) = Some (Tok (nth k l EmptyString)))
  /\ rd argv (Z.of_nat (List.length l)) = Some Null.

(** No token of [l] is one of the operators. *)
Definition plain_tokens (ops : list string) (l : list string) : Prop :=
  forall a, In a l -> forall op, In op ops -> a <> op.

Section Launcher.

Variable world : Type.
Variable sys_open : world -> string -> Z -> Z -> Z * world.
Variable sys_dup2 : world -> Z -> Z -> Z * world.
Variable sys_pipe : world -> Z * Z * Z * world.
Variable sys_fork : world -> Z * world.
Variable sys_close : world -> Z -> world.
Variable sys_wait : world -> world.
Variable sys_setpgid : world -> world.
Variable sys_execve : world -> string -> list string -> bool.

(** The body of [check_pipeline]'s loop from index [i] on.  After a fork
    the process in which [fork] returned 0 goes on with the tokens behind
    the separator, the other one returns. *)
Fixpoint pipeline_loop (fuel : nat) (w : world) (argv : list cell)
  (argc i : Z) : res (world * list cell * Z) * list call :=
  if i <? argc then
    match fuel with
    | O => (NoFuel, [])
    | S fuel' =>
        match rd argv i with
        | Some (Tok a) =>
            if String.eqb a "|" then
              match sys_pipe w with
              | (ret, fd0, fd1, w1) =>
                  if ret <? 0 then
                    (Exits 1, [PipeCall ret fd0 fd1; Sys (UnixError "pipe")])
                  else
                    let (pid, w2) := sys_fork w1 in
                    if pid <? 0 then
                      (Exits 1,
                       [PipeCall ret fd0 fd1; ForkCall pid;
                        Sys (UnixError "fork")])
                    else if pid =? 0 then
                      let w3 := sys_close w2 fd0 in
                      let pre := [PipeCall ret fd0 fd1; ForkCall pid;
                                  CloseCall fd0] in
                      match redirect_stream world sys_dup2 w3 fd1 1 with
                      | (Ok w4, out) =>
                          let argc1 := argc - (i + 1) in
                          match memmove argv 0 (i + 1) argc1 with
                          | Some argv1 =>
                              match wr argv1 argc1 Null with
                              | Some argv2 =>
                                  let (r, out2) :=
                                    pipeline_loop fuel' w4 argv2 argc1 1 in
                                  (r, pre ++ map Sys out ++ out2)
                              | None => (Faults, pre ++ map Sys out)
                              end
                          | None => (Faults, pre ++ map Sys out)
                          end
                      | (Exits st, out) => (Exits st, pre ++ map Sys out)
                      | (_, out) => (Faults, pre ++ map Sys out)
                      end
                    else
                      let w3 := sys_close w2 fd1 in
                      let pre := [PipeCall ret fd0 fd1; ForkCall pid;
                                  CloseCall fd1] in
                      match redirect_stream world sys_dup2 w3 fd0 0 with
                      | (Ok w4, out) =>
                          match wr argv i Null with
                          | Some argv1 =>
                              (Ok (sys_wait w4, argv1, argc),
                               pre ++ map Sys out ++ [WaitCall])
                          | None => (Faults, pre ++ map Sys out)
                          end
                      | (Exits st, out) => (Exits st, pre ++ map Sys out)
                      | (_, out) => (Faults, pre ++ map Sys out)
                      end
              end
            else pipeline_loop fuel' w argv argc (i + 1)
        | _ => (Faults, [])
        end
    end
  else (Ok (w, argv, argc), []).

(** check_pipeline *)
Definition check_pipeline (w : world) (argv : list cell) (argc : Z)
  : res (world * list cell * Z) * list call :=
  pipeline_loop (Z.to_nat argc) w argv argc 0.

(** The child branch of [eval]: pipelines, redirections, a process group
    of its own, then the program.  [Ok (path, args)] is the program image
    that replaces the child.  The signal dispositions and the signal mask
    the child restores before [execve] are left out. *)
Definition child (w : world) (argv : list cell) (argc state : Z)
  : res (string * list string) * list call :=
  match check_pipeline w argv argc with
  | (Ok (w1, argv1, argc1), out1) =>
      match redirect world sys_open sys_dup2 w1 argv1 argc1 with
      | (Ok (w2, argv2, argc2), out2) =>
          let out := out1 ++ map Sys out2 ++ [SetpgidCall] in
          let w3 := sys_setpgid w2 in
          match rd argv2 0 with
          | Some (Tok pathname) =>
              match (if state =? BG then wr argv2 (argc2 - 1) Null
                     else Some argv2) with
              | Some argv3 =>
                  match exec_args argv3 with
                  | Some args =>
                      if sys_execve w3 pathname args then
                        (Ok (pathname, args),
                         out ++ [ExecveCall pathname args])
                      else
                        (Exits 1,
                         out ++ [ExecveCall pathname args;
                                 Stderr ("tsh: " ++ pathname);
                                 Sys (UnixError EmptyString)])
                  | None => (Faults, out)
                  end
              | None => (Faults, out)
              end
          | _ => (Faults, out)
          end
      | (Exits st, out2) => (Exits st, out1 ++ map Sys out2)
      | (Faults, out2) => (Faults, out1 ++ map Sys out2)
      | (NoFuel, out2) => (NoFuel, out1 ++ map Sys out2)
      end
  | (Exits st, out1) => (Exits st, out1)
  | (Faults, out1) => (Faults, out1)
  | (NoFuel, out1) => (NoFuel, out1)
  end.

End Launcher.

(** The flags and the mode [eval] passes to [open] for an operator. *)
Definition open_flags (op : string) : Z :=
  if String.eqb op "<" then O_RDONLY else Z.lor O_RDWR O_CREAT.

Definition open_mode (op : string) : Z :=
  if String.eqb op "<" then 0 else Z.lor S_IRUSR S_IWUSR.

(** An operating system for the examples: [pipe] yields descriptors 3 and
    4, [fork] returns [pid], every other call succeeds. *)
Definition pipe34 (w : unit) : Z * Z * Z * unit := (0, 3, 4, w).
Definition fork_as (pid : Z) (w : unit) : Z * unit := (pid, w).
Definition close_ok (w : unit) (fd : Z) : unit := w.
Definition same_world (w : unit) : unit := w.
Definition execve_ok (w : unit) (path : string) (args : list string) : bool :=
  true.

Definition run_child (pid : Z) (tokens : list string) :=
  child unit open3 dup2_ok pipe34 (fork_as pid) close_ok same_world same_world
    execve_ok tt (argv_of tokens) (Z.of_nat (List.length tokens))
    (launch_state tokens).

(** How a launch ends when it gets as far as [execve]: the calls made
    [before], the process group, then the program [l] names. *)
Definition launched (world : Type) (sys_setpgid : world -> world)
  (sys_execve : world -> string -> list string -> bool) (w : world)
  (before : list call) (l : list string) (state : Z)
  : res (string * list string) * list call :=
  let path := hd EmptyString l in
  let args := if state =? BG then removelast l else l in
  if sys_execve (sys_setpgid w) path args then
    (Ok (path, args),
     (before ++ [SetpgidCall]) ++ [ExecveCall path args])
  else
    (Exits 1,
     (before ++ [SetpgidCall])
       ++ [ExecveCall path args; Stderr ("tsh: " ++ path);
           Sys (UnixError EmptyString)]).

(** An operating system in which no file can be opened. *)
Definition open_denied (w : unit) (path : string) (flags mode : Z)
  : Z * unit := (-1, w).

(** The descriptors [eval] redirects for an operator: standard input for
    [<], standard output and then standard error for [>]. *)
Definition dup_targets (op : string) : list Z :=
  if String.eqb op "<" then [0] else [1; 2].


(** ** Signals that arrive inside a built-in command *)

(** [do_bgfg] from line 453 on: the lookup is over and [job] points to
    slot [i]. *)
Definition do_bgfg_from (jobs : jobs_t) (argv0 : string) (i : nat)
  (kill_ret : Z) : jobs_t * list effect * ctl :=
  if String.eqb argv0 "bg" then
    let jobs1 := store jobs i (set_state BG) in
    let job := slot jobs1 i in
    if kill_ret =? -1 then
      (jobs1, [Kill (- pid job) SIGCONT; Perror "kill"], Exit (-1))
    else
      (jobs1,
       [Kill (- pid job) SIGCONT;
        Print ("[" ++ dec (jid job) ++ "] (" ++ dec (pid job) ++ ") "
                 ++ cmdline job)],
       Ret)
  else if String.eqb argv0 "fg" then
    let jobs1 := store jobs i (set_state FG) in
    let job := slot jobs1 i in
    let current_pid := fgpid jobs1 in
    if current_pid =? 0 then (jobs1, [], Ret)
    else if kill_ret =? -1 then
      (jobs1, [Kill (- pid job) SIGCONT; Perror "kill"], Exit (-1))
    else (jobs1, [Kill (- pid job) SIGCONT], Wait current_pid)
  else (jobs, [], Ret).

(** [do_bgfg] when SIGCHLD is delivered after the lookup (line 431 or 443)
    and before line 453.  [eval] blocks the signals only from line 257 to
    line 320, around [fork] and [addjob]; [builtin_cmd] and [do_bgfg] run
    with every signal unblocked.  [sigchld_handler] runs on the table the
    lookup saw, with [rets] as the answers of [waitpid], and [do_bgfg]
    goes on through the slot pointer it already holds. *)
Definition do_bgfg_raced (jobs : jobs_t) (argv0 argv1 : string)
  (rets : list Z) (kill_ret : Z) : jobs_t * list effect * ctl :=
  match resolve jobs argv1 with
  | None =>
      (sigchld_handler jobs rets, [Print (argv1 ++ ": No such job" ++ LF)],
       Ret)
  | Some i => do_bgfg_from (sigchld_handler jobs rets) argv0 i kill_ret
  end.

(** The events of [step], and a [bg] or [fg] command line during which
    SIGCHLD is handled inside [do_bgfg]. *)
Inductive fine_event :=
| Calm (e : event)
| Raced (argv0 argv1 : string) (rets : list Z) (kill_ret : Z).

Definition fine_step (verbose : bool) (s : shell) (e : fine_event)
  : option (shell * list effect) :=
  match e with
  | Calm e' => step verbose s e'
  | Raced argv0 argv1 rets kill_ret =>
      match sh_mode s with
      | Prompt =>
          if String.eqb argv0 "bg" || String.eqb argv0 "fg" then
            Some (after_command
                    (do_bgfg_raced (sh_jobs s) argv0 argv1 rets kill_ret))
          else None
      | _ => None
      end
  end.

Fixpoint fine_run (verbose : bool) (s : shell) (es : list fine_event)
  : option (shell * list effect) :=
  match es with
  | [] => Some (s, [])
  | e :: es' =>
      match fine_step verbose s e with
      | None => None
      | Some (s1, out1) =>
          match fine_run verbose s1 es' with
          | None => None
          | Some (s2, out2) => Some (s2, out1 ++ out2)
          end
      end
  end.

(** Two background jobs, processes 100 and 101; [fg %1] is typed and
    process 100 ends while [do_bgfg] is between its lookup and its state
    write; then [fg %2] and a foreground command, process 102. *)
Definition race_session : list fine_event :=
  [Calm (Line ["sleep"; "5"; "&"] ("sleep 5 &" ++ LF) 100 0);
   Calm (Line ["sleep"; "9"; "&"] ("sleep 9 &" ++ LF) 101 0);
   Raced "fg" "%1" [100; 0] 0;
   Calm (Line ["fg"; "%2"] ("fg %2" ++ LF) 0 0);
   Calm (Line ["sleep"; "7"] ("sleep 7" ++ LF) 102 0)].

(** ** Process groups *)

(** What the kernel keeps of a process for signalling. *)
Record proc := mkproc { proc_pid : Z; proc_pgid : Z }.

(** fork(2): the new process is in the process group of its parent. *)
Definition forked (parent : proc) (new_pid : Z) : proc :=
  mkproc new_pid (proc_pgid parent).

(** What a call of the child does to the caller's group: [setpgid(0, 0)]
    makes the caller the leader of a new group that carries its pid; no
    other call changes it. *)
Definition after_call (p : proc) (c : call) : proc :=
  match c with
  | SetpgidCall => mkproc (proc_pid p) (proc_pid p)
  | _ => p
  end.

Definition after_calls (p : proc) (cs : list call) : proc :=
  fold_left after_call cs p.

(** kill(2): whether [kill(target, sig)], called by a process of group
    [own], addresses process [p]: a positive target is a pid, 0 is the
    caller's group, -1 is every process, and [-g] is process group [g]. *)
Definition addressed (own target : Z) (p : proc) : bool :=
  if 0 <? target then proc_pid p =? target
  else if target =? 0 then proc_pgid p =? own
  else if target =? -1 then true
  else proc_pgid p =? - target.

(** The calls of a trace before its [fork] returns, and those after. *)
Fixpoint until_fork (cs : list call) : list call :=
  match cs with
  | [] => []
  | ForkCall _ :: _ => []
  | c :: rest => c :: until_fork rest
  end.

Fixpoint from_fork (cs : list call) : list call :=
  match cs with
  | [] => []
  | ForkCall _ :: rest => rest
  | _ :: rest => from_fork rest
  end.

(** [ls | wc] is typed in a shell that is process 50 of group 50: [eval]
    forks process 100, which becomes the job, and in it [check_pipeline]
    forks process 101. *)
Definition pipe_line : list string := ["ls"; "|"; "wc"].

Definition pipe_table : jobs_t :=
  fst (fst (eval false jobs0 pipe_line ("ls | wc" ++ LF) 100 0)).

Definition tsh_proc : proc := mkproc 50 50.

(** Process 100 after the calls it makes. *)
Definition job_proc : proc :=
  after_calls (forked tsh_proc 100) (snd (run_child 101 pipe_line)).

(** Process 101: forked by process 100 as it is when [fork] is called,
    then making the calls that follow the [fork]. *)
Definition stage_proc : proc :=
  after_calls
    (forked (after_calls (forked tsh_proc 100)
               (until_fork (snd (run_child 101 pipe_line)))) 101)
    (from_fork (snd (run_child 0 pipe_line))).

(** ** The writes to the job table *)

(** Every write the shell makes to the table after [initjobs]: [addjob]
    (in [eval], line 315), [deletejob] (in [sigchld_handler], line 524) and
    the assignment to [job->state] through a slot pointer (in [do_bgfg],
    lines 454 and 463, and in [sigtstp_handler], line 571). *)
Inductive table_write :=
| AddJob (p s : Z) (cmd : string)
| DeleteJob (p : Z)
| SetState (i : nat) (s : Z).

(** The states the shell writes: [eval] adds a job as FG or BG, [do_bgfg]
    assigns BG or FG and [sigtstp_handler] ST. *)
Definition write_ok (w : table_write) : Prop :=
  match w with
  | AddJob _ s _ => s = FG \/ s = BG
  | DeleteJob _ => True
  | SetState _ s => s = BG \/ s = FG \/ s = ST
  end.

Definition apply_write (verbose : bool) (jobs : jobs_t) (w : table_write)
  : jobs_t :=
  match w with
  | AddJob p s cmd => fst (fst (addjob verbose jobs p s cmd))
  | DeleteJob p => fst (deletejob jobs p)
  | SetState i s => store jobs i (set_state s)
  end.

Definition apply_writes (verbose : bool) (jobs : jobs_t)
  (ws : list table_write) : jobs_t :=
  fold_left (apply_write verbose) ws jobs.

(** A live job is FG, BG or ST. *)
Definition live_states_ok (jobs : jobs_t) : Prop :=
  forall j, In j jobs ->
    pid j <> 0 -> state j = FG \/ state j = BG \/ state j = ST.

(** A job is added and reaped, and a state is then written through a
    pointer to its slot. *)
Definition stale_writes : list table_write :=
  [AddJob 100 BG "a"; DeleteJob 100; SetState 0 FG].

(** An event without a handler inside a command. *)
Definition quiet (e : fine_event) : Prop :=
  match e with
  | Calm _ => True
  | Raced _ _ _ _ => False
  end.

(** * Properties *)

(** ** The model on sample inputs *)

Example dec_samples :
  dec 0 = "0"%string /\ dec 16 = "16"%string /\ dec (-1) = "-1"%string.
Proof. repeat split; reflexivity. Qed.

Example freejid_empty : freejid jobs0 = 1.
Proof. reflexivity. Qed.

(** [atoi] yields an [int]: digits beyond its range wrap around, so a
    number that is no pid can name a job. *)
Example atoi_samples :
  atoi "99999" = 99999 /\ atoi "  -5" = -5 /\ atoi "+12ab" = 12
  /\ atoi "4294967396" = 100 /\ atoi "99999999999999999999" = -1
  /\ resolve bg_table "4294967396" = Some O
  /\ resolve bg_table "99999" = None.
Proof. repeat split; reflexivity. Qed.

Example redirect_in :
  snd (run_redirect ["cat"; "<"; "in.txt"]) =
    [Open "in.txt" O_RDONLY 0 3; Dup2 3 0 0]
  /\ final_args (run_redirect ["cat"; "<"; "in.txt"]) = Some ["cat"%string].
Proof. split; reflexivity. Qed.

Example redirect_out_bg :
  snd (run_redirect ["ls"; ">"; "out"; "&"]) =
    [Open "out" 66 384 3; Dup2 3 1 1; Dup2 3 2 2]
  /\ final_args (run_redirect ["ls"; ">"; "out"; "&"])
     = Some ["ls"%string; "&"%string].
Proof. split; reflexivity. Qed.


(** ** Scanning and storing *)

Section SlotLemmas.

Variable test : job_t -> bool.

Lemma find_slot_some (jobs : jobs_t) (i : nat) :
  find_slot test jobs = Some i ->
  (i < List.length jobs)%nat /\ test (slot jobs i) = true /\
  forall k, (k < i)%nat -> test (slot jobs k) = false.
Proof.
  revert i. induction jobs as [|j rest IH]; intros i H; simpl in H.
  - discriminate.
  - destruct (test j) eqn:Hj.
    + inversion H; subst. simpl. repeat split; [lia | exact Hj | intros; lia].
    + destruct (find_slot test rest) as [i'|] eqn:Hr; [|discriminate].
      inversion H; subst. destruct (IH i' eq_refl) as (Hl & Ht & Hk).
      simpl. repeat split; [lia | exact Ht |].
      intros [|k] Hlt; [exact Hj | apply Hk; lia].
Qed.

Lemma find_slot_none (jobs : jobs_t) :
  find_slot test jobs = None <-> forall j, In j jobs -> test j = false.
Proof.
  induction jobs as [|j rest IH]; simpl.
  - split; [intros _ j [] | reflexivity].
  - destruct (test j) eqn:Hj.
    + split; [discriminate|]. intros H. rewrite (H j (or_introl eq_refl)) in Hj.
      discriminate.
    + destruct (find_slot test rest) as [n|].
      * split; [discriminate|]. intros H.
        assert (Hc : Some n = None) by (apply IH; intros; apply H; now right).
        discriminate.
      * split; [|reflexivity]. intros _ j' [<-|Hin]; [exact Hj|].
        now apply IH.
Qed.

Lemma find_slot_first (jobs : jobs_t) (i : nat) :
  (i < List.length jobs)%nat -> test (slot jobs i) = true ->
  (forall k, (k < i)%nat -> test (slot jobs k) = false) ->
  find_slot test jobs = Some i.
Proof.
  revert i. induction jobs as [|j rest IH]; intros i Hl Ht Hk.
  - simpl in Hl; lia.
  - destruct i as [|i]; simpl.
    + unfold slot in Ht; simpl in Ht. now rewrite Ht.
    + assert (H0 := Hk O ltac:(lia)). unfold slot in H0; simpl in H0.
      rewrite H0. simpl in Hl.
      rewrite (IH i); [reflexivity | lia | exact Ht |].
      intros k Hlt. apply (Hk (S k)). lia.
Qed.

End SlotLemmas.

Lemma store_length (jobs : jobs_t) (i : nat) (f : job_t -> job_t) :
  List.length (store jobs i f) = List.length jobs.
Proof.
  revert i; induction jobs as [|j rest IH]; intros [|i]; simpl; auto.
Qed.

Lemma slot_store_same (jobs : jobs_t) (i : nat) (f : job_t -> job_t) :
  (i < List.length jobs)%nat -> slot (store jobs i f) i = f (slot jobs i).
Proof.
  revert i; induction jobs as [|j rest IH]; intros [|i] H; simpl in *;
    try lia; [reflexivity|]. apply IH; lia.
Qed.

Lemma slot_store_other (jobs : jobs_t) (i k : nat) (f : job_t -> job_t) :
  k <> i -> slot (store jobs i f) k = slot jobs k.
Proof.
  revert i k; induction jobs as [|j rest IH]; intros [|i] [|k] H; simpl;
    try reflexivity; try congruence. apply IH; congruence.
Qed.

Lemma In_slot (jobs : jobs_t) (j : job_t) :
  In j jobs -> exists k, (k < List.length jobs)%nat /\ slot jobs k = j.
Proof.
  induction jobs as [|j0 rest IH]; simpl; [intros []|].
  intros [->|Hin].
  - exists O; split; [lia | reflexivity].
  - destruct (IH Hin) as (k & Hk & Hs). exists (S k); split; [lia | exact Hs].
Qed.

Lemma slot_In (jobs : jobs_t) (k : nat) :
  (k < List.length jobs)%nat -> In (slot jobs k) jobs.
Proof. intros H. unfold slot. now apply nth_In. Qed.

Lemma fgpid_slot (jobs : jobs_t) (i : nat) :
  find_slot (fun j => state j =? FG) jobs = Some i ->
  fgpid jobs = pid (slot jobs i).
Proof.
  intros H. unfold fgpid. rewrite H.
  destruct (find_slot_some _ _ _ H) as (Hl & _ & _).
  unfold slot. destruct (nth_error jobs i) eqn:Hn.
  - now rewrite (nth_error_nth _ _ _ Hn).
  - apply nth_error_None in Hn. lia.
Qed.

Lemma fgcount_zero (jobs : jobs_t) :
  fgcount jobs = O <-> forall j, In j jobs -> (state j =? FG) = false.
Proof.
  induction jobs as [|j rest IH]; simpl.
  - split; [intros _ j [] | reflexivity].
  - destruct (state j =? FG) eqn:Hj.
    + split; [discriminate|]. intros H.
      rewrite (H j (or_introl eq_refl)) in Hj. discriminate.
    + rewrite IH. split.
      * intros H j' [<-|Hin]; auto.
      * intros H j' Hin. apply H. now right.
Qed.

Lemma fgpid_no_fg (jobs : jobs_t) : fgcount jobs = O -> fgpid jobs = 0.
Proof.
  intros H. unfold fgpid.
  assert (Hn : find_slot (fun j => state j =? FG) jobs = None).
  { apply find_slot_none. now apply fgcount_zero. }
  now rewrite Hn.
Qed.

(** ** Sample tables *)

Example bg_table_slot0 :
  slot bg_table 0 = mkjob 100 1 BG ("sleep 5 &" ++ LF)
  /\ slot fg_table 0 = mkjob 100 1 FG ("sleep 5" ++ LF).
Proof. split; reflexivity. Qed.

(** ** Non-positive pids *)

(** C10: every job-table operation keyed by a pid rejects a pid below 1:
    [addjob] fails and [deletejob] returns 0, both leaving every slot as it
    was and printing nothing, [getjobpid] finds no job and [pid2jid] no
    jid; so a cleared slot, whose pid is 0, is never matched through these
    operations. *)
Theorem nonpositive_pid_rejected (verbose : bool) (jobs : jobs_t) (p s : Z)
  (cmd : string) :
  p < 1 ->
  addjob verbose jobs p s cmd = (jobs, 0, [])
  /\ deletejob jobs p = (jobs, 0)
  /\ getjobpid jobs p = None
  /\ pid2jid jobs p = 0.
Proof.
  intros H. assert (Hp : (p <? 1) = true) by lia.
  unfold addjob, deletejob, getjobpid, pid2jid. rewrite Hp. auto.
Qed.

Lemma nonpositive_pid_rejected_witness :
  0 < 1
  /\ addjob false bg_table 0 FG "ls" = (bg_table, 0, [])
  /\ deletejob bg_table 0 = (bg_table, 0)
  /\ getjobpid bg_table 0 = None
  /\ pid2jid bg_table 0 = 0.
Proof.
  split; [lia | apply (nonpositive_pid_rejected false bg_table 0 FG "ls"); lia].
Defined.

(** ** bg and fg on a target that is no job *)

Lemma resolve_none_pid (jobs : jobs_t) (argv1 : string) :
  is_jid argv1 = false ->
  (resolve jobs argv1 = None <->
   atoi argv1 < 1 \/ forall j, In j jobs -> pid j <> atoi argv1).
Proof.
  intros Hj. unfold resolve, getjobpid. rewrite Hj.
  destruct (atoi argv1 <? 1) eqn:Hlt.
  - split; [left; lia | reflexivity].
  - rewrite find_slot_none. split.
    + intros H. right. intros j Hin. specialize (H j Hin). simpl in H. lia.
    + intros [H|H] j Hin; [lia|]. specialize (H j Hin). simpl. lia.
Qed.

Lemma resolve_none_jid (jobs : jobs_t) (argv1 : string) :
  is_jid argv1 = true ->
  (resolve jobs argv1 = None <->
   atoi (after_first argv1) < 1 \/
   forall j, In j jobs -> jid j <> atoi (after_first argv1)).
Proof.
  intros Hj. unfold resolve, getjobjid. rewrite Hj.
  destruct (atoi (after_first argv1) <? 1) eqn:Hlt.
  - split; [left; lia | reflexivity].
  - rewrite find_slot_none. split.
    + intros H. right. intros j Hin. specialize (H j Hin). simpl in H. lia.
    + intros [H|H] j Hin; [lia|]. specialize (H j Hin). simpl. lia.
Qed.

(** C8: when the target of [bg] or [fg] (a pid, or a jid after [%])
    resolves to no job, the dispatcher prints the target followed by
    ": No such job", sends no signal and returns the job table exactly as
    it was. *)
Theorem no_such_job_untouched (jobs : jobs_t) (argv0 argv1 : string)
  (rest : list string) (kill_ret : Z) :
  resolve jobs argv1 = None ->
  do_bgfg jobs argv0 argv1 kill_ret
    = (jobs, [Print (argv1 ++ ": No such job" ++ LF)], Ret)
  /\ (argv0 = "bg" \/ argv0 = "fg" ->
      builtin_cmd jobs (argv0 :: argv1 :: rest) kill_ret
        = Some (jobs, [Print (argv1 ++ ": No such job" ++ LF)], Ret)).
Proof.
  intros H.
  assert (E : do_bgfg jobs argv0 argv1 kill_ret
              = (jobs, [Print (argv1 ++ ": No such job" ++ LF)], Ret)).
  { unfold do_bgfg. now rewrite H. }
  split; [exact E|].
  intros [->| ->]; simpl; now rewrite E.
Qed.

Lemma no_such_job_untouched_witness :
  resolve bg_table "99999" = None
  /\ do_bgfg bg_table "fg" "99999" 0
       = (bg_table, [Print ("99999: No such job" ++ LF)], Ret)
  /\ resolve bg_table "%99" = None
  /\ builtin_cmd bg_table ["bg"; "%99"] 0
       = Some (bg_table, [Print ("%99: No such job" ++ LF)], Ret).
Proof.
  split; [reflexivity|]. split.
  - apply (no_such_job_untouched bg_table "fg" "99999" [] 0). reflexivity.
  - split; [reflexivity|].
    apply (no_such_job_untouched bg_table "bg" "%99" [] 0);
      [reflexivity | now left].
Defined.

(** ** The suspend key *)

(** C3: [sigtstp_handler] marks the foreground entry ST and keeps it in the
    table, and does nothing without a foreground job; but the stop request
    goes to [fgpid] itself, the one process with that pid, where
    [sigint_handler] signals the process group [-fgpid]. *)
Theorem sigtstp_signals_one_process :
  (forall jobs kill_ret,
     snd (fst (sigtstp_handler jobs kill_ret)) =
       if fgpid jobs =? 0 then []
       else Kill (fgpid jobs) SIGTSTP ::
            (if kill_ret =? -1 then [Perror "kill"] else []))
  /\ sigtstp_handler fg_table 0
       = (store fg_table 0 (set_state ST), [Kill 100 SIGTSTP], Ret)
  /\ slot (store fg_table 0 (set_state ST)) 0
       = mkjob 100 1 ST ("sleep 5" ++ LF)
  /\ hd_error (snd (fst (sigint_handler fg_table 0)))
       = Some (Kill (-100) SIGINT)
  /\ sigtstp_handler bg_table 0 = (bg_table, [], Ret).
Proof.
  split; [|repeat split; reflexivity].
  intros jobs kill_ret. unfold sigtstp_handler.
  destruct (fgpid jobs =? 0); [reflexivity|].
  destruct (kill_ret =? -1); [reflexivity|].
  destruct (getjobpid jobs (fgpid jobs)); reflexivity.
Qed.

(** ** Launching in the background *)

Lemma append_assoc (a b c : string) :
  ((a ++ b) ++ c = a ++ (b ++ c))%string.
Proof. induction a as [|x a IH]; simpl; [reflexivity | now rewrite IH]. Qed.

Lemma append_nil_r (a : string) : (a ++ EmptyString)%string = a.
Proof. induction a as [|x a IH]; simpl; [reflexivity | now rewrite IH]. Qed.

Lemma addjob_success (verbose : bool) (jobs jobs1 : jobs_t) (p s : Z)
  (cmd : string) (out : list effect) :
  addjob verbose jobs p s cmd = (jobs1, 1, out) ->
  1 <= p /\ freejid jobs <> 0 /\
  exists i, find_slot (fun j => pid j =? 0) jobs = Some i /\
            jobs1 = store jobs i (fun _ => mkjob p (freejid jobs) s cmd).
Proof.
  unfold addjob. destruct (p <? 1) eqn:Hp; [intros H; inversion H|].
  destruct (freejid jobs =? 0) eqn:Hf; [intros H; inversion H|].
  destruct (find_slot (fun j => pid j =? 0) jobs) as [i|];
    [|intros H; inversion H].
  intros H; inversion H; subst. repeat split; try lia. now exists i.
Qed.

Lemma getjobpid_added (jobs : jobs_t) (i : nat) (p k s : Z) (cmd : string) :
  1 <= p -> (i < List.length jobs)%nat -> getjobpid jobs p = None ->
  getjobpid (store jobs i (fun _ => mkjob p k s cmd)) p = Some i.
Proof.
  intros Hp Hi Hn. unfold getjobpid in *.
  assert (E : (p <? 1) = false) by lia. rewrite E in *.
  rewrite find_slot_none in Hn.
  apply find_slot_first.
  - now rewrite store_length.
  - rewrite slot_store_same by assumption. simpl. lia.
  - intros k' Hk. rewrite slot_store_other by lia.
    apply Hn. apply slot_In. lia.
Qed.




(** ** The fg command *)

Lemma resolve_in_range (jobs : jobs_t) (argv1 : string) (i : nat) :
  resolve jobs argv1 = Some i -> (i < List.length jobs)%nat.
Proof.
  unfold resolve, getjobjid, getjobpid.
  destruct (is_jid argv1);
    match goal with |- context [if ?c then _ else _] => destruct c end;
    try discriminate; intros H; now destruct (find_slot_some _ _ _ H).
Qed.




(** ** The interrupt key *)

(** What the handlers do on the table alone: with a foreground job of a
    pid no other slot holds and [kill] succeeding, [sigint_handler] calls
    [kill] on the negated pid and prints the report line with the job's
    jid and pid, and [sigchld_handler] clears the entry once [waitpid]
    reports the pid; with no foreground job [sigint_handler] neither
    signals nor prints. *)
Lemma sigint_handler_reports (jobs : jobs_t) (kill_ret : Z) :
  (fgcount jobs = O -> sigint_handler jobs kill_ret = (jobs, [], Ret))
  /\ (forall i,
        find_slot (fun j => state j =? FG) jobs = Some i ->
        let job := slot jobs i in
        1 <= pid job ->
        (forall k, (k < List.length jobs)%nat -> k <> i ->
                   pid (slot jobs k) <> pid job) ->
        kill_ret <> -1 ->
        sigint_handler jobs kill_ret
          = (jobs,
             [Kill (- pid job) SIGINT;
              Print ("Job [" ++ dec (jid job) ++ "] (" ++ dec (pid job)
                       ++ ") terminated by signal 2" ++ LF)],
             Ret)
        /\ sigchld_handler jobs [pid job] = store jobs i clearjob
        /\ slot (store jobs i clearjob) i = mkjob 0 0 UNDEF EmptyString
        /\ getjobpid (store jobs i clearjob) (pid job) = None).
Proof.
  split.
  - intros H. unfold sigint_handler. now rewrite (fgpid_no_fg _ H).
  - intros i Hi job Hp Huniq Hk.
    destruct (find_slot_some _ _ _ Hi) as (Hlt & _ & _).
    assert (Hfg : fgpid jobs = pid job) by now apply fgpid_slot.
    assert (Hfind : find_slot (fun j => pid j =? pid job) jobs = Some i).
    { apply find_slot_first; [exact Hlt | apply Z.eqb_refl |].
      intros k Hlt'.
      assert (Hne : pid (slot jobs k) <> pid job).
      { apply Huniq; [lia | now apply Nat.lt_neq]. }
      cbv beta. lia. }
    assert (E1 : (pid job <? 1) = false) by lia.
    repeat split.
    + unfold sigint_handler. rewrite Hfg.
      assert (E0 : (pid job =? 0) = false) by lia.
      assert (Ek : (kill_ret =? -1) = false) by lia.
      rewrite E0, Ek. unfold getjobpid. rewrite E1, Hfind. reflexivity.
    + simpl. assert (E2 : (0 <? pid job) = true) by lia. rewrite E2.
      unfold deletejob. now rewrite E1, Hfind.
    + now rewrite slot_store_same.
    + unfold getjobpid. rewrite E1. apply find_slot_none.
      intros j Hin. apply In_slot in Hin. destruct Hin as (k & Hk' & <-).
      rewrite store_length in Hk'.
      destruct (Nat.eq_dec k i) as [->|Hne].
      * rewrite slot_store_same by assumption. unfold clearjob. cbn [pid].
        lia.
      * rewrite slot_store_other by assumption.
        specialize (Huniq k Hk' Hne). lia.
Qed.

(** C7: the interrupt does not reach the processes of a pipeline.  For
    the foreground job [ls | wc], process 100, [sigint_handler] calls
    [kill(-100, SIGINT)], which addresses process group 100.  The stage
    that executes [wc], process 101, was forked inside [check_pipeline],
    before any [setpgid], and then made itself the leader of group 101
    with [setpgid(0, 0)]; process 100 itself makes no [setpgid] call at
    all and stays in the group of the shell.  So [kill] addresses neither
    of them, and on its answer -1 the handler prints no report line and
    the shell exits. *)
Theorem sigint_misses_pipeline_stage :
  fgpid pipe_table = 100
  /\ (forall kill_ret, exists rest,
        snd (fst (sigint_handler pipe_table kill_ret))
        = Kill (-100) SIGINT :: rest)
  /\ run_child 0 pipe_line
     = (Ok ("wc", ["wc"]),
        [PipeCall 0 3 4; ForkCall 0; CloseCall 3; Sys (Dup2 4 1 1);
         SetpgidCall; ExecveCall "wc" ["wc"]])
  /\ run_child 101 pipe_line
     = (Faults,
        [PipeCall 0 3 4; ForkCall 101; CloseCall 4; Sys (Dup2 3 0 0);
         WaitCall])
  /\ stage_proc = mkproc 101 101
  /\ job_proc = mkproc 100 50
  /\ addressed (proc_pgid tsh_proc) (-100) stage_proc = false
  /\ addressed (proc_pgid tsh_proc) (-100) job_proc = false
  /\ sigint_handler pipe_table (-1)
     = (pipe_table, [Kill (-100) SIGINT; Perror "kill"], Exit (-1)).
Proof.
  split; [reflexivity|]. split.
  { intros kill_ret. unfold sigint_handler.
    change (fgpid pipe_table) with 100. cbv iota beta zeta.
    change (100 =? 0) with false. cbv iota.
    destruct (kill_ret =? -1); [eexists; reflexivity|].
    change (getjobpid pipe_table 100) with (Some O).
    eexists; reflexivity. }
  repeat split; reflexivity.
Qed.

(** ** At most one foreground job *)

Lemma In_store (jobs : jobs_t) (i : nat) (f : job_t -> job_t) (j : job_t) :
  In j (store jobs i f) ->
  In j jobs \/ ((i < List.length jobs)%nat /\ j = f (slot jobs i)).
Proof.
  revert i; induction jobs as [|x rest IH]; intros [|i]; simpl; auto.
  - intros [<-|H]; [right; split; [lia | reflexivity] | auto].
  - intros [<-|H]; [auto|]. destruct (IH i H) as [H'|[Hl ->]]; [auto|].
    right; split; [lia | reflexivity].
Qed.

Lemma store_out_of_range (jobs : jobs_t) (i : nat) (f : job_t -> job_t) :
  (List.length jobs <= i)%nat -> store jobs i f = jobs.
Proof.
  revert i; induction jobs as [|x rest IH]; intros [|i] H; simpl in *;
    try reflexivity; try lia. f_equal. apply IH. lia.
Qed.

Lemma fgcount_store_le (jobs : jobs_t) (i : nat) (f : job_t -> job_t) :
  (fgcount (store jobs i f) <= S (fgcount jobs))%nat.
Proof.
  revert i; induction jobs as [|x rest IH]; intros [|i]; simpl; try lia.
  - destruct (state (f x) =? FG), (state x =? FG); lia.
  - specialize (IH i). destruct (state x =? FG); lia.
Qed.

Lemma fgcount_store_not_fg (jobs : jobs_t) (i : nat) (f : job_t -> job_t) :
  (forall x, state (f x) <> FG) ->
  (fgcount (store jobs i f) <= fgcount jobs)%nat.
Proof.
  intros Hf. revert i; induction jobs as [|x rest IH]; intros [|i]; simpl;
    try lia.
  - assert (E : (state (f x) =? FG) = false) by (specialize (Hf x); lia).
    rewrite E. destruct (state x =? FG); lia.
  - specialize (IH i). destruct (state x =? FG); lia.
Qed.

Lemma fg_is_store_not_fg (p : Z) (jobs : jobs_t) (i : nat)
  (f : job_t -> job_t) :
  (forall x, state (f x) <> FG) ->
  fg_is p jobs -> fg_is p (store jobs i f).
Proof.
  intros Hf H j Hin Hs. destruct (In_store _ _ _ _ Hin) as [Hj|[_ ->]].
  - now apply H.
  - now destruct (Hf (slot jobs i)).
Qed.

Lemma fg_is_store_fresh (jobs : jobs_t) (i : nat) (f : job_t -> job_t) :
  fgcount jobs = O -> fg_is (pid (f (slot jobs i))) (store jobs i f).
Proof.
  intros H0 j Hin Hs. destruct (In_store _ _ _ _ Hin) as [Hj|[_ ->]].
  - rewrite fgcount_zero in H0. specialize (H0 j Hj). lia.
  - reflexivity.
Qed.

Lemma jid_has_pid_store (jobs : jobs_t) (i : nat) (f : job_t -> job_t) :
  (jid (f (slot jobs i)) <> 0 -> pid (f (slot jobs i)) <> 0) ->
  jid_has_pid jobs -> jid_has_pid (store jobs i f).
Proof.
  intros Hf H j Hin. destruct (In_store _ _ _ _ Hin) as [Hj|[_ ->]].
  - now apply H.
  - exact Hf.
Qed.

Lemma fgpid_fg_is (p : Z) (jobs : jobs_t) :
  fg_is p jobs -> fgpid jobs <> p -> fgcount jobs = O.
Proof.
  intros Hfg Hne.
  destruct (find_slot (fun j => state j =? FG) jobs) as [i|] eqn:Hi.
  - exfalso. apply Hne. rewrite (fgpid_slot _ _ Hi).
    destruct (find_slot_some _ _ _ Hi) as (Hl & Hs & _).
    apply Hfg; [now apply slot_In | lia].
  - apply fgcount_zero. now apply find_slot_none.
Qed.

Lemma resolve_has_pid (jobs : jobs_t) (argv1 : string) (i : nat) :
  jid_has_pid jobs -> resolve jobs argv1 = Some i -> pid (slot jobs i) <> 0.
Proof.
  intros Hj. unfold resolve, getjobjid, getjobpid.
  destruct (is_jid argv1);
    match goal with |- context [if ?c then _ else _] => destruct c eqn:Hc end;
    try discriminate; intros H;
    destruct (find_slot_some _ _ _ H) as (Hl & Ht & _); cbv beta in Ht.
  - apply Hj; [now apply slot_In | lia].
  - lia.
Qed.

Lemma shell_inv_at_most_one (s : shell) :
  shell_inv s -> (fgcount (sh_jobs s) <= 1)%nat.
Proof.
  intros [_ H]. destruct (sh_mode s); [lia | tauto | exact H].
Qed.

Lemma shell_inv_waitfg (jobs : jobs_t) (p : Z) :
  jid_has_pid jobs -> p <> 0 -> (fgcount jobs <= 1)%nat -> fg_is p jobs ->
  shell_inv (mkshell jobs (waitfg p jobs)).
Proof.
  intros Hj Hp Hc Hfg. split; [exact Hj|]. unfold waitfg. simpl.
  destruct (p =? fgpid jobs) eqn:E; simpl.
  - auto.
  - apply (fgpid_fg_is p); [exact Hfg | lia].
Qed.

Lemma shell_inv_halted (jobs : jobs_t) :
  jid_has_pid jobs -> (fgcount jobs <= 1)%nat -> shell_inv (mkshell jobs Halted).
Proof. intros Hj Hc. split; assumption. Qed.

Lemma shell_inv_prompt (jobs : jobs_t) :
  jid_has_pid jobs -> fgcount jobs = O -> shell_inv (mkshell jobs Prompt).
Proof. intros Hj Hc. split; assumption. Qed.

Create HintDb shell.
#[local] Hint Resolve shell_inv_halted shell_inv_prompt shell_inv_waitfg : shell.

Lemma calmer_refl (jobs : jobs_t) : calmer jobs jobs.
Proof. repeat split; auto. Qed.

Lemma calmer_trans (a b c : jobs_t) : calmer a b -> calmer b c -> calmer a c.
Proof.
  intros (H1 & H2 & H3) (H4 & H5 & H6). repeat split; auto; lia.
Qed.

Lemma calmer_store (jobs : jobs_t) (i : nat) (f : job_t -> job_t) :
  (forall x, state (f x) <> FG) ->
  (forall x, jid (f x) <> 0 -> jid x <> 0 /\ pid (f x) = pid x) ->
  calmer jobs (store jobs i f).
Proof.
  intros Hs Hf. repeat split.
  - intros Hj. destruct (Nat.lt_ge_cases i (List.length jobs)) as [Hl|Hl].
    + apply jid_has_pid_store; [|exact Hj]. intros Hne.
      destruct (Hf _ Hne) as [Hx ->]. apply Hj; [now apply slot_In | exact Hx].
    + now rewrite store_out_of_range.
  - now apply fgcount_store_not_fg.
  - intros p. now apply fg_is_store_not_fg.
Qed.

Lemma calmer_deletejob (jobs : jobs_t) (p : Z) :
  calmer jobs (fst (deletejob jobs p)).
Proof.
  unfold deletejob. destruct (p <? 1); [apply calmer_refl|].
  destruct (find_slot _ jobs); [|apply calmer_refl]. simpl.
  apply calmer_store; intros x; simpl; [discriminate | congruence].
Qed.

Lemma calmer_sigchld (rets : list Z) (jobs : jobs_t) :
  calmer jobs (sigchld_handler jobs rets).
Proof.
  revert jobs; induction rets as [|r rets IH]; intros jobs; simpl.
  - apply calmer_refl.
  - destruct (0 <? r); [|apply calmer_refl].
    eapply calmer_trans; [apply calmer_deletejob | apply IH].
Qed.

Lemma calmer_sigint (jobs : jobs_t) (kill_ret : Z) :
  calmer jobs (fst (fst (sigint_handler jobs kill_ret))).
Proof.
  unfold sigint_handler. destruct (fgpid jobs =? 0); [apply calmer_refl|].
  destruct (kill_ret =? -1); [apply calmer_refl|].
  destruct (getjobpid jobs (fgpid jobs)); apply calmer_refl.
Qed.

Lemma calmer_sigtstp (jobs : jobs_t) (kill_ret : Z) :
  calmer jobs (fst (fst (sigtstp_handler jobs kill_ret))).
Proof.
  unfold sigtstp_handler. destruct (fgpid jobs =? 0); [apply calmer_refl|].
  destruct (kill_ret =? -1); [apply calmer_refl|].
  destruct (getjobpid jobs (fgpid jobs)); [|apply calmer_refl]. simpl.
  apply calmer_store; intros x; simpl; [discriminate | auto].
Qed.

Lemma shell_inv_after_handler (jobs jobs' : jobs_t) (m : mode)
  (out : list effect) (c : ctl) :
  shell_inv (mkshell jobs m) -> calmer jobs jobs' ->
  shell_inv (fst (after_handler m (jobs', out, c))).
Proof.
  intros [Hj Hm] (Hc1 & Hc2 & Hc3). simpl in Hj, Hm.
  assert (Hle : (fgcount jobs' <= 1)%nat).
  { destruct m; [lia | destruct Hm as (_ & ? & _); lia | lia]. }
  unfold after_handler.
  destruct c; simpl; auto with shell.
  destruct m; simpl.
  - apply shell_inv_prompt; [auto | lia].
  - destruct Hm as (Hp & _ & Hfg). auto with shell.
  - auto with shell.
Qed.

(** Commands typed at the prompt. *)

Lemma fgpid_store_first (jobs : jobs_t) (i : nat) :
  (i < List.length jobs)%nat -> fgcount jobs = O ->
  fgpid (store jobs i (set_state FG)) = pid (slot jobs i).
Proof.
  intros Hl H0. rewrite (fgpid_slot _ i).
  - now rewrite slot_store_same.
  - apply find_slot_first.
    + now rewrite store_length.
    + now rewrite slot_store_same.
    + intros k Hk. rewrite slot_store_other by lia.
      rewrite fgcount_zero in H0. apply H0. apply slot_In. lia.
Qed.

Lemma shell_inv_do_bgfg (jobs : jobs_t) (argv0 argv1 : string) (kill_ret : Z) :
  jid_has_pid jobs -> fgcount jobs = O ->
  shell_inv (fst (after_command (do_bgfg jobs argv0 argv1 kill_ret))).
Proof.
  intros Hj H0. unfold do_bgfg.
  destruct (resolve jobs argv1) as [i|] eqn:Hr; [|simpl; auto with shell].
  assert (Hl := resolve_in_range _ _ _ Hr).
  assert (Hp := resolve_has_pid _ _ _ Hj Hr).
  destruct (String.eqb argv0 "bg").
  - assert (Hc : calmer jobs (store jobs i (set_state BG))).
    { apply calmer_store; intros x; simpl; [discriminate | auto]. }
    destruct Hc as (Hc1 & Hc2 & _).
    destruct (kill_ret =? -1); simpl.
    + apply shell_inv_halted; [auto | lia].
    + apply shell_inv_prompt; [auto | lia].
  - destruct (String.eqb argv0 "fg"); [|simpl; auto with shell].
    set (jobs1 := store jobs i (set_state FG)).
    assert (Hj1 : jid_has_pid jobs1).
    { apply jid_has_pid_store; [|exact Hj]. simpl. intros Hne.
      apply Hj; [now apply slot_In | exact Hne]. }
    assert (Hc1 : (fgcount jobs1 <= 1)%nat).
    { pose proof (fgcount_store_le jobs i (set_state FG)). unfold jobs1. lia. }
    assert (Hcur : fgpid jobs1 = pid (slot jobs i)).
    { now apply fgpid_store_first. }
    rewrite Hcur.
    assert (E : (pid (slot jobs i) =? 0) = false) by lia. rewrite E.
    destruct (kill_ret =? -1); simpl; [auto with shell|].
    apply shell_inv_waitfg; auto.
    apply (fg_is_store_fresh jobs i (set_state FG) H0).
Qed.

Lemma shell_inv_builtin (jobs : jobs_t) (argv : list string) (kill_ret : Z)
  (r : jobs_t * list effect * ctl) :
  jid_has_pid jobs -> fgcount jobs = O ->
  builtin_cmd jobs argv kill_ret = Some r ->
  shell_inv (fst (after_command r)).
Proof.
  intros Hj H0. unfold builtin_cmd. destruct argv as [|argv0 rest];
    [discriminate|].
  destruct (String.eqb argv0 "jobs");
    [intros H; inversion H; simpl; auto with shell|].
  destruct (String.eqb argv0 "quit").
  { intros H; inversion H; simpl. apply shell_inv_halted; [auto | lia]. }
  destruct (String.eqb argv0 "bg" || String.eqb argv0 "fg"); [|discriminate].
  destruct rest as [|argv1 rest]; intros H; inversion H.
  - simpl; auto with shell.
  - now apply shell_inv_do_bgfg.
Qed.

Lemma addjob_failure (verbose : bool) (jobs jobs1 : jobs_t) (p s r : Z)
  (cmd : string) (out : list effect) :
  addjob verbose jobs p s cmd = (jobs1, r, out) -> r <> 1 -> jobs1 = jobs.
Proof.
  unfold addjob. destruct (p <? 1); [intros H; now inversion H|].
  destruct (freejid jobs =? 0); [intros H; now inversion H|].
  destruct (find_slot _ jobs); intros H; inversion H; subst; [lia | auto].
Qed.

Lemma shell_inv_eval (verbose : bool) (jobs : jobs_t) (argv : list string)
  (cmd : string) (fork_ret kill_ret : Z) :
  jid_has_pid jobs -> fgcount jobs = O ->
  shell_inv (fst (after_command (eval verbose jobs argv cmd fork_ret kill_ret))).
Proof.
  intros Hj H0. unfold eval. destruct argv as [|a0 rest];
    [simpl; auto with shell|].
  destruct (builtin_cmd jobs (a0 :: rest) kill_ret) as [r|] eqn:Hb.
  { now apply (shell_inv_builtin jobs (a0 :: rest) kill_ret). }
  set (st := if String.eqb (last (a0 :: rest) EmptyString) "&" then BG else FG).
  assert (Hle : (fgcount jobs <= 1)%nat) by lia.
  destruct (fork_ret <? 0); [simpl; auto with shell|].
  destruct (fork_ret =? 0); [simpl; auto with shell|].
  destruct (addjob verbose jobs fork_ret st cmd) as [[jobs1 r] out] eqn:Ha.
  destruct (r =? 1) eqn:Er; simpl negb; cbv iota.
  - assert (r = 1) by lia; subst r.
    destruct (addjob_success _ _ _ _ _ _ _ Ha) as (Hp & Hf & i & Hi & ->).
    set (new := fun _ : job_t => mkjob fork_ret (freejid jobs) st cmd).
    assert (Hj1 : jid_has_pid (store jobs i new)).
    { apply jid_has_pid_store; [|exact Hj]. simpl. lia. }
    assert (Hc1 : (fgcount (store jobs i new) <= 1)%nat).
    { pose proof (fgcount_store_le jobs i new). lia. }
    destruct (st =? BG) eqn:Est.
    + assert (Hc0 : fgcount (store jobs i new) = O).
      { pose proof (fgcount_store_not_fg jobs i new) as Hn.
        assert (Hx : forall x, state (new x) <> FG).
        { intros x. simpl. unfold BG, FG in *. lia. }
        specialize (Hn Hx). lia. }
      destruct (getjobpid (store jobs i new) fork_ret); simpl; auto with shell.
    + simpl. apply shell_inv_waitfg; auto; [lia|].
      apply (fg_is_store_fresh jobs i new H0).
  - assert (r <> 1) by lia. rewrite (addjob_failure _ _ _ _ _ _ _ _ Ha H).
    simpl; auto with shell.
Qed.

Lemma shell_inv_handled (jobs : jobs_t) (m : mode)
  (r : jobs_t * list effect * ctl) :
  shell_inv (mkshell jobs m) -> calmer jobs (fst (fst r)) ->
  shell_inv (fst (after_handler m r)).
Proof. destruct r as [[j o] c]. apply shell_inv_after_handler. Qed.

Lemma shell_inv_step (verbose : bool) (s s' : shell) (e : event)
  (out : list effect) :
  shell_inv s -> step verbose s e = Some (s', out) -> shell_inv s'.
Proof.
  destruct s as [jobs m]. intros Hinv. unfold step. simpl sh_mode.
  simpl sh_jobs.
  destruct m, e; try discriminate; intros H;
    match type of H with
    | Some ?x = _ =>
        assert (Es : s' = fst x)
          by (assert (Ex : x = (s', out)) by congruence; now rewrite Ex);
        subst s'; clear H
    end;
    try (apply (shell_inv_handled jobs); [exact Hinv|]; simpl fst;
         first [apply calmer_sigchld | apply calmer_sigint
               | apply calmer_sigtstp]).
  destruct Hinv as [Hj H0]. now apply shell_inv_eval.
Qed.

Lemma shell_inv_run (verbose : bool) (es : list event) (s s' : shell)
  (out : list effect) :
  shell_inv s -> run verbose s es = Some (s', out) -> shell_inv s'.
Proof.
  revert s out. induction es as [|e es IH]; intros s out Hinv; simpl.
  - intros H; inversion H; subst; exact Hinv.
  - destruct (step verbose s e) as [[s1 out1]|] eqn:Hs; [|discriminate].
    destruct (run verbose s1 es) as [[s2 out2]|] eqn:Hr; [|discriminate].
    intros H; inversion H; subst.
    apply (IH s1 out2); [|exact Hr]. apply (shell_inv_step _ _ _ _ _ Hinv Hs).
Qed.

Lemma shell_inv_init : shell_inv shell0.
Proof.
  split; [|reflexivity]. intros j Hin. simpl in Hin.
  repeat (destruct Hin as [<-|Hin]; [simpl; congruence|]). destruct Hin.
Qed.

(** [do_bgfg] is its lookup followed by [do_bgfg_from]; with no child to
    reap the interrupted run is the plain one. *)
Lemma do_bgfg_from_lookup (jobs : jobs_t) (argv0 argv1 : string)
  (kill_ret : Z) :
  do_bgfg jobs argv0 argv1 kill_ret
  = match resolve jobs argv1 with
    | None => (jobs, [Print (argv1 ++ ": No such job" ++ LF)], Ret)
    | Some i => do_bgfg_from jobs argv0 i kill_ret
    end.
Proof. unfold do_bgfg, do_bgfg_from. now destruct (resolve jobs argv1). Qed.

Lemma do_bgfg_raced_calm (jobs : jobs_t) (argv0 argv1 : string)
  (kill_ret : Z) :
  do_bgfg_raced jobs argv0 argv1 [] kill_ret
  = do_bgfg jobs argv0 argv1 kill_ret.
Proof. now rewrite do_bgfg_from_lookup. Qed.

(** C1: the program does not keep the table to one FG entry.  Jobs 100
    and 101 run in the background; [fg %1] is typed and job 100 ends
    while [do_bgfg] is between its lookup and [job->state = FG], so the
    handler clears the slot and [do_bgfg] writes FG into the cleared slot;
    [fgpid] then reports pid 0 and the shell is back at the prompt.  After
    [fg %2], which finds that stale entry first and does not wait either,
    a foreground command is stored in the cleared slot: jobs 102 and 101
    are both live and both FG. *)
Theorem two_foreground_jobs_after_race :
  exists s out,
    fine_run false shell0 race_session = Some (s, out)
    /\ sh_mode s = Waiting 102
    /\ slot (sh_jobs s) 0 = mkjob 102 1 FG ("sleep 7" ++ LF)
    /\ slot (sh_jobs s) 1 = mkjob 101 2 FG ("sleep 9 &" ++ LF)
    /\ fgcount (sh_jobs s) = 2%nat
    /\ do_bgfg_raced
         (fst (fst (eval false bg_table ["sleep"; "9"; "&"]
                      ("sleep 9 &" ++ LF) 101 0)))
         "fg" "%1" [100; 0] 0
       = (store (store bg_table 0 (fun _ => mkjob 0 0 FG EmptyString)) 1
            (fun _ => mkjob 101 2 BG ("sleep 9 &" ++ LF)), [], Ret).
Proof.
  eexists; eexists. split; [reflexivity|].
  repeat split; reflexivity.
Qed.

(** ** Job ids *)

Lemma upd_length {A : Type} (a : list A) (i : nat) (x : A) :
  List.length (upd a i x) = List.length a.
Proof.
  revert i; induction a as [|y rest IH]; intros [|i]; simpl; auto.
Qed.

Lemma nth_upd {A : Type} (a : list A) (i k : nat) (x d : A) :
  (i < List.length a)%nat ->
  nth k (upd a i x) d = if (k =? i)%nat then x else nth k a d.
Proof.
  revert i k; induction a as [|y rest IH]; intros [|i] [|k] H; simpl in *;
    try lia; try reflexivity. apply IH; lia.
Qed.

Lemma mark_length (taken : list bool) (k : Z) :
  List.length (mark taken k) = List.length taken.
Proof.
  unfold mark. destruct (_ && _); [apply upd_length | reflexivity].
Qed.

Lemma nth_mark (taken : list bool) (k : Z) (n : nat) :
  (n < List.length taken)%nat ->
  nth n (mark taken k) false = nth n taken false || (k =? Z.of_nat n).
Proof.
  intros Hn. unfold mark.
  destruct ((0 <=? k) && (k <? Z.of_nat (List.length taken))) eqn:E.
  - apply andb_true_iff in E as [E1 E2]. rewrite nth_upd by lia.
    destruct (n =? Z.to_nat k)%nat eqn:En.
    + apply Nat.eqb_eq in En.
      assert (Ek : (k =? Z.of_nat n) = true) by lia. rewrite Ek.
      now rewrite orb_true_r.
    + apply Nat.eqb_neq in En.
      assert (Ek : (k =? Z.of_nat n) = false) by lia. rewrite Ek.
      now rewrite orb_false_r.
  - assert (Ek : (k =? Z.of_nat n) = false)
      by (apply andb_false_iff in E as [E|E]; lia).
    rewrite Ek. now rewrite orb_false_r.
Qed.

Lemma scan_taken_length (jobs : jobs_t) (taken : list bool) :
  List.length (scan_taken jobs taken) = List.length taken.
Proof.
  revert taken; induction jobs as [|j rest IH]; intros taken; simpl;
    [reflexivity|]. rewrite IH. destruct (jid j =? 0);
    [reflexivity | apply mark_length].
Qed.

(** A cell of [taken] is set exactly when it was set before or some entry
    carries that (nonzero) jid. *)
Lemma scan_taken_spec (jobs : jobs_t) (taken : list bool) (n : nat) :
  (n < List.length taken)%nat ->
  nth n (scan_taken jobs taken) false = true <->
  nth n taken false = true \/
  (n <> O /\ exists j, In j jobs /\ jid j = Z.of_nat n).
Proof.
  revert taken; induction jobs as [|j rest IH]; intros taken Hn; simpl.
  - split; [auto | intros [H|(_ & j & [] & _)]; exact H].
  - rewrite IH by (destruct (jid j =? 0); [|rewrite mark_length]; exact Hn).
    destruct (jid j =? 0) eqn:E0.
    + split; intros [H|(Hne & j' & Hin & Hj)]; auto.
      * right; split; [exact Hne|]. exists j'; auto.
      * destruct Hin as [<-|Hin]; [lia|].
        right; split; [exact Hne|]. exists j'; auto.
    + rewrite nth_mark by exact Hn. rewrite orb_true_iff.
      split; intros [H|H].
      * destruct H as [H|H]; [auto|].
        right; split; [lia|]. exists j; split; [now left | lia].
      * destruct H as (Hne & j' & Hin & Hj).
        right; split; [exact Hne|]. exists j'; auto.
      * auto.
      * destruct H as (Hne & j' & [<-|Hin] & Hj).
        -- left; right; lia.
        -- right; split; [exact Hne|]. exists j'; auto.
Qed.

Lemma first_free_spec (taken : list bool) (n from : nat) :
  (1 <= from)%nat ->
  let r := first_free taken from n in
  (r = 0 /\ forall i, (from <= i < from + n)%nat -> nth i taken false = true)
  \/ (Z.of_nat from <= r < Z.of_nat (from + n)
      /\ nth (Z.to_nat r) taken false = false
      /\ forall i, (from <= i)%nat -> Z.of_nat i < r -> nth i taken false = true).
Proof.
  revert from; induction n as [|n IH]; intros from Hf; simpl.
  - left; split; [reflexivity | intros; lia].
  - destruct (nth from taken false) eqn:E.
    + destruct (IH (S from) ltac:(lia)) as [[Hr Ha]|(Hr & Hn & Ha)].
      * left; split; [exact Hr|]. intros i Hi.
        destruct (Nat.eq_dec i from) as [->|Hne]; [exact E | apply Ha; lia].
      * right; split; [lia|]. split; [exact Hn|]. intros i Hi Hlt.
        destruct (Nat.eq_dec i from) as [->|Hne]; [exact E | apply Ha; lia].
    + right; split; [lia|]. split; [now rewrite Nat2Z.id|]. intros; lia.
Qed.

(** [freejid] is the least of 1..MAXJOBS that no entry carries, and 0 when
    every one of them is carried. *)
Lemma freejid_spec (jobs : jobs_t) :
  (freejid jobs = 0 /\
   forall k, 1 <= k <= Z.of_nat MAXJOBS -> jid_used jobs k)
  \/ (1 <= freejid jobs <= Z.of_nat MAXJOBS
      /\ ~ jid_used jobs (freejid jobs)
      /\ forall k, 1 <= k < freejid jobs -> jid_used jobs k).
Proof.
  unfold freejid.
  set (taken := scan_taken jobs (repeat false (S MAXJOBS))).
  assert (Hlen : List.length taken = S MAXJOBS).
  { unfold taken. now rewrite scan_taken_length, repeat_length. }
  assert (Hspec : forall n, (1 <= n <= MAXJOBS)%nat ->
            nth n taken false = true <-> jid_used jobs (Z.of_nat n)).
  { intros n Hn. unfold taken. rewrite scan_taken_spec
      by (rewrite repeat_length; lia).
    rewrite nth_repeat. split.
    - intros [H|(_ & H)]; [discriminate | exact H].
    - intros H. right; split; [lia | exact H]. }
  destruct (first_free_spec taken MAXJOBS 1 (Nat.le_refl 1))
    as [[Hr Ha]|(Hr & Hn & Ha)].
  - left; split; [exact Hr|]. intros k Hk.
    rewrite <- (Z2Nat.id k) by lia. apply Hspec; [lia|]. apply Ha. lia.
  - right. split; [unfold MAXJOBS in *; lia|]. split.
    + intros Hu. rewrite <- (Z2Nat.id (first_free taken 1 MAXJOBS)) in Hu by lia.
      apply Hspec in Hu; [|unfold MAXJOBS in *; lia]. congruence.
    + intros k Hk. rewrite <- (Z2Nat.id k) by lia.
      apply Hspec; [unfold MAXJOBS in *; lia|]. apply Ha; lia.
Qed.

Lemma live_jids_app (a b : jobs_t) :
  live_jids (a ++ b) = live_jids a ++ live_jids b.
Proof. unfold live_jids. now rewrite map_app, filter_app. Qed.

Lemma In_live_jids (jobs : jobs_t) (k : Z) :
  In k (live_jids jobs) <-> k <> 0 /\ jid_used jobs k.
Proof.
  unfold live_jids, jid_used. rewrite filter_In, in_map_iff. split.
  - intros [(j & Hj & Hin) Hk]. split; [lia|]. exists j; auto.
  - intros [Hk (j & Hin & Hj)]. split; [exists j; auto | lia].
Qed.

Lemma store_split (jobs : jobs_t) (i : nat) (f : job_t -> job_t) :
  (i < List.length jobs)%nat ->
  exists pre post,
    jobs = pre ++ slot jobs i :: post
    /\ store jobs i f = pre ++ f (slot jobs i) :: post.
Proof.
  revert i; induction jobs as [|x rest IH]; intros [|i] H; simpl in *;
    try lia.
  - exists [], rest. split; reflexivity.
  - destruct (IH i ltac:(lia)) as (pre & post & E1 & E2).
    exists (x :: pre), post. unfold slot in *. simpl.
    split; [now rewrite <- E1 | now rewrite E2].
Qed.

Lemma all_jids_spec (k : Z) :
  In k all_jids <-> 1 <= k <= Z.of_nat MAXJOBS.
Proof.
  unfold all_jids. rewrite in_map_iff. split.
  - intros (n & <- & Hn). apply in_seq in Hn. lia.
  - intros H. exists (Z.to_nat k). split; [lia|]. apply in_seq. lia.
Qed.

Lemma all_jids_NoDup : NoDup all_jids.
Proof.
  unfold all_jids. generalize (seq_NoDup MAXJOBS 1).
  induction (seq 1 MAXJOBS) as [|n l IH]; intros H; simpl;
    [constructor|].
  inversion H; subst. constructor; [|now apply IH].
  rewrite in_map_iff. intros (m & Hm & Hin).
  apply Nat2Z.inj in Hm. now subst.
Qed.

Lemma filter_keeps_all {A : Type} (f : A -> bool) (l : list A) :
  List.length (filter f l) = List.length l ->
  forall x, In x l -> f x = true.
Proof.
  intros H x Hin. apply filter_length_forallb in H.
  rewrite forallb_forall in H. now apply H.
Qed.

Lemma filter_all {A : Type} (f : A -> bool) (l : list A) :
  (forall x, In x l -> f x = true) -> filter f l = l.
Proof.
  induction l as [|x l IH]; intros H; simpl; [reflexivity|].
  rewrite (H x (or_introl eq_refl)). f_equal. apply IH.
  intros; apply H; now right.
Qed.

(** The table is full exactly when [freejid] finds no free id. *)
Lemma full_iff_no_free_jid (jobs : jobs_t) :
  table_ok jobs ->
  (freejid jobs = 0 <-> forall j, In j jobs -> pid j <> 0).
Proof.
  intros (Hlen & Hent & Hnd). split.
  - intros H0 j Hin.
    destruct (freejid_spec jobs) as [[_ Hall]|[Hr _]]; [|lia].
    assert (Hincl : incl all_jids (live_jids jobs)).
    { intros k Hk. apply all_jids_spec in Hk. apply In_live_jids.
      split; [lia | now apply Hall]. }
    pose proof (NoDup_incl_length all_jids_NoDup Hincl) as Hle.
    unfold all_jids in Hle. rewrite length_map, length_seq in Hle.
    assert (Hall' : forall k, In k (map jid jobs) -> negb (k =? 0) = true).
    { apply filter_keeps_all.
      pose proof (filter_length_le (fun k => negb (k =? 0)) (map jid jobs)) as Hf.
      rewrite length_map in *. fold (live_jids jobs) in Hf |- *. lia. }
    specialize (Hall' (jid j) (in_map jid jobs j Hin)).
    destruct (Hent j Hin) as [[_ Hz]|[Hp _]]; [|lia].
    rewrite Hz in Hall'. discriminate.
  - intros Hfull.
    destruct (freejid_spec jobs) as [[H0 _]|(Hr & Hfree & _)]; [exact H0|].
    exfalso. apply Hfree.
    assert (Hlive : live_jids jobs = map jid jobs).
    { apply filter_all. intros k Hk. apply in_map_iff in Hk.
      destruct Hk as (j & <- & Hin).
      destruct (Hent j Hin) as [[Hz _]|[_ Hj]];
        [now destruct (Hfull j Hin) | lia]. }
    assert (Hincl : incl (live_jids jobs) all_jids).
    { intros k Hk. apply all_jids_spec. rewrite Hlive in Hk.
      apply in_map_iff in Hk. destruct Hk as (j & <- & Hin).
      destruct (Hent j Hin) as [[Hz _]|[_ Hj]];
        [now destruct (Hfull j Hin) | lia]. }
    assert (Hle : (List.length all_jids <= List.length (live_jids jobs))%nat).
    { rewrite Hlive. unfold all_jids.
      rewrite !length_map, length_seq. lia. }
    pose proof (NoDup_length_incl Hnd Hle Hincl) as Hback.
    assert (Hin : In (freejid jobs) (live_jids jobs)).
    { apply Hback. now apply all_jids_spec. }
    now apply In_live_jids in Hin.
Qed.

Lemma table_ok_clear (jobs : jobs_t) (i : nat) :
  table_ok jobs -> table_ok (store jobs i clearjob).
Proof.
  intros (Hlen & Hent & Hnd).
  destruct (Nat.lt_ge_cases i (List.length jobs)) as [Hl|Hl];
    [|rewrite store_out_of_range by exact Hl; repeat split; assumption].
  split; [now rewrite store_length|]. split.
  - intros j Hin. destruct (In_store _ _ _ _ Hin) as [Hj|[_ ->]];
      [now apply Hent | left; split; reflexivity].
  - destruct (store_split jobs i clearjob Hl) as (pre & post & E1 & E2).
    rewrite E2. rewrite E1 in Hnd. rewrite live_jids_app in *.
    change (live_jids (clearjob (slot jobs i) :: post)) with (live_jids post).
    unfold live_jids at 2 in Hnd. simpl in Hnd.
    destruct (negb (jid (slot jobs i) =? 0)); [|exact Hnd].
    now apply NoDup_remove_1 in Hnd.
Qed.

Lemma table_ok_add (jobs : jobs_t) (i : nat) (p k s : Z) (cmd : string) :
  table_ok jobs -> pid (slot jobs i) = 0 -> (i < List.length jobs)%nat ->
  1 <= p -> 1 <= k <= Z.of_nat MAXJOBS -> ~ jid_used jobs k ->
  table_ok (store jobs i (fun _ => mkjob p k s cmd)).
Proof.
  intros (Hlen & Hent & Hnd) Hp0 Hl Hp Hk Hfree.
  split; [now rewrite store_length|]. split.
  - intros j Hin. destruct (In_store _ _ _ _ Hin) as [Hj|[_ ->]];
      [now apply Hent | right; cbn [pid jid]; lia].
  - destruct (store_split jobs i (fun _ => mkjob p k s cmd) Hl)
      as (pre & post & E1 & E2).
    assert (Hz : jid (slot jobs i) = 0).
    { destruct (Hent _ (slot_In jobs i Hl)) as [[_ Hz]|[Hq _]]; [exact Hz|lia]. }
    assert (Hin : ~ In k (live_jids jobs)).
    { intros Hin. apply In_live_jids in Hin. tauto. }
    rewrite E2. rewrite E1 in Hnd, Hin. rewrite live_jids_app in *.
    assert (Ek : live_jids (mkjob p k s cmd :: post) = k :: live_jids post).
    { unfold live_jids. simpl.
      assert (E : (k =? 0) = false) by lia. now rewrite E. }
    assert (Eo : live_jids (slot jobs i :: post) = live_jids post).
    { unfold live_jids. simpl. rewrite Hz. reflexivity. }
    rewrite Ek. rewrite Eo in Hnd, Hin.
    apply (NoDup_Add (Add_app k (live_jids pre) (live_jids post))).
    split; assumption.
Qed.

Lemma table_ok_deletejob (jobs : jobs_t) (p : Z) :
  table_ok jobs -> table_ok (fst (deletejob jobs p)).
Proof.
  intros H. unfold deletejob. destruct (p <? 1); [exact H|].
  destruct (find_slot _ jobs); [|exact H]. now apply table_ok_clear.
Qed.

Lemma freejid_range (jobs : jobs_t) :
  freejid jobs <> 0 ->
  1 <= freejid jobs <= Z.of_nat MAXJOBS /\ ~ jid_used jobs (freejid jobs).
Proof.
  intros H. destruct (freejid_spec jobs) as [[H0 _]|(Hr & Hf & _)];
    [contradiction | auto].
Qed.

Lemma table_ok_addjob (verbose : bool) (jobs : jobs_t) (p s : Z)
  (cmd : string) :
  table_ok jobs -> table_ok (fst (fst (addjob verbose jobs p s cmd))).
Proof.
  intros H. destruct (addjob verbose jobs p s cmd) as [[jobs1 r] out] eqn:Ha.
  simpl. destruct (Z.eq_dec r 1) as [->|Hr].
  - destruct (addjob_success _ _ _ _ _ _ _ Ha) as (Hp & Hf & i & Hi & ->).
    destruct (find_slot_some _ _ _ Hi) as (Hl & Hz & _). cbv beta in Hz.
    destruct (freejid_range jobs Hf) as [Hk Hu].
    apply table_ok_add; auto. lia.
  - now rewrite (addjob_failure _ _ _ _ _ _ _ _ Ha Hr).
Qed.

Lemma table_ok_init : table_ok jobs0.
Proof.
  split; [reflexivity|]. split.
  - intros j Hin. left. simpl in Hin.
    repeat (destruct Hin as [<-|Hin]; [split; reflexivity|]). destruct Hin.
  - constructor.
Qed.

Lemma table_ok_apply_ops (verbose : bool) (ops : list table_op)
  (jobs : jobs_t) :
  table_ok jobs -> table_ok (apply_ops verbose jobs ops).
Proof.
  revert jobs; induction ops as [|op ops IH]; intros jobs H; simpl;
    [exact H|]. apply IH. destruct op; simpl;
    [now apply table_ok_addjob | now apply table_ok_deletejob].
Qed.

(** C2: on a table reached from the empty one by insertions and removals,
    [addjob] with a valid pid fails exactly when all MAXJOBS slots are
    occupied, then printing its too-many-jobs message and storing nothing;
    otherwise it writes the job into the first cleared slot, leaving every
    other slot as it was, and the jid it stores there is the smallest
    positive id that no live entry carries, which is at most MAXJOBS;
    afterwards that jid leads back to the new job. *)
Theorem smallest_free_jid (verbose : bool) (ops : list table_op) (p s : Z)
  (cmd : string) :
  1 <= p ->
  let jobs := apply_ops verbose jobs0 ops in
  List.length jobs = MAXJOBS
  /\ (forall j, In j jobs -> pid j <> 0 -> 1 <= jid j <= Z.of_nat MAXJOBS)
  /\ (snd (fst (addjob verbose jobs p s cmd)) = 0 <->
      forall j, In j jobs -> pid j <> 0)
  /\ ((forall j, In j jobs -> pid j <> 0) ->
      addjob verbose jobs p s cmd
        = (jobs, 0, [Print ("Tried to create too many jobs" ++ LF)]))
  /\ ((exists j, In j jobs /\ pid j = 0) ->
      exists i,
        let k := freejid jobs in
        let jobs1 := fst (fst (addjob verbose jobs p s cmd)) in
        addjob verbose jobs p s cmd
          = (store jobs i (fun _ => mkjob p k s cmd), 1,
             if verbose
             then [Print ("Added job [" ++ dec k ++ "] " ++ dec p ++ " "
                            ++ cmd ++ LF)]
             else [])
        /\ (i < MAXJOBS)%nat
        /\ pid (slot jobs i) = 0
        /\ 1 <= k <= Z.of_nat MAXJOBS
        /\ (forall j, In j jobs -> pid j <> 0 -> jid j <> k)
        /\ (forall m, 1 <= m < k ->
              exists j, In j jobs /\ pid j <> 0 /\ jid j = m)
        /\ (forall m, (m < i)%nat -> pid (slot jobs m) <> 0)
        /\ slot jobs1 i = mkjob p k s cmd
        /\ (forall m, m <> i -> slot jobs1 m = slot jobs m)
        /\ List.length jobs1 = MAXJOBS
        /\ getjobjid jobs1 k = Some i).
Proof.
  intros Hp jobs.
  assert (Hok : table_ok jobs)
    by (apply table_ok_apply_ops, table_ok_init).
  assert (Hfull := full_iff_no_free_jid jobs Hok).
  destruct Hok as (Hlen & Hent & Hnd).
  assert (Ep : (p <? 1) = false) by lia.
  assert (Full : (forall j, In j jobs -> pid j <> 0) ->
            addjob verbose jobs p s cmd
              = (jobs, 0, [Print ("Tried to create too many jobs" ++ LF)])).
  { intros Hall. apply Hfull in Hall. unfold addjob.
    rewrite Ep, Hall. reflexivity. }
  assert (Free : (exists j, In j jobs /\ pid j = 0) ->
            exists i,
              addjob verbose jobs p s cmd
                = (store jobs i (fun _ => mkjob p (freejid jobs) s cmd), 1,
                   if verbose
                   then [Print ("Added job [" ++ dec (freejid jobs) ++ "] "
                                  ++ dec p ++ " " ++ cmd ++ LF)]
                   else [])
              /\ (i < MAXJOBS)%nat /\ pid (slot jobs i) = 0
              /\ forall m, (m < i)%nat -> pid (slot jobs m) <> 0).
  { intros (j & Hin & Hz).
    assert (Hf : freejid jobs <> 0).
    { intros H0. exact (proj1 Hfull H0 j Hin Hz). }
    destruct (find_slot (fun j => pid j =? 0) jobs) as [i|] eqn:Hi.
    - destruct (find_slot_some _ _ _ Hi) as (Hl & Ht & Hb). cbv beta in Ht.
      exists i. unfold addjob. rewrite Ep, Hi.
      assert (E : (freejid jobs =? 0) = false) by lia. rewrite E.
      repeat split; [lia | lia |].
      intros m Hm. specialize (Hb m Hm). cbv beta in Hb. lia.
    - rewrite find_slot_none in Hi. specialize (Hi j Hin).
      cbv beta in Hi. lia. }
  split; [exact Hlen|]. split.
  { intros j Hin Hpj. destruct (Hent j Hin) as [[Hz _]|[_ Hj]]; [lia | exact Hj]. }
  split.
  { split.
    - intros Hr j Hin Hz.
      destruct (Free (ex_intro _ j (conj Hin Hz))) as (i & Ha & _).
      rewrite Ha in Hr. discriminate.
    - intros Hall. now rewrite (Full Hall). }
  split; [exact Full|].
  intros Hex. destruct (Free Hex) as (i & Ha & Hi & Hz & Hfirst).
  destruct Hex as (j0 & Hin0 & Hz0).
  assert (Hf : freejid jobs <> 0).
  { intros H0. exact (proj1 Hfull H0 j0 Hin0 Hz0). }
  exists i. cbv zeta. split; [exact Ha|]. split; [exact Hi|].
  split; [exact Hz|].
  destruct (freejid_spec jobs) as [[H0 _]|(Hr & Hfree & Hsmall)];
    [contradiction|].
  assert (Hother : forall j, In j jobs -> pid j <> 0 -> jid j <> freejid jobs).
  { intros j Hin _ Hj. apply Hfree. exists j; auto. }
  split; [exact Hr|]. split; [exact Hother|]. split.
  { intros m Hm. destruct (Hsmall m Hm) as (j & Hin & Hj).
    exists j. split; [exact Hin|]. split; [|exact Hj].
    destruct (Hent j Hin) as [[_ Hz']|[Hq _]]; lia. }
  split; [exact Hfirst|].
  rewrite Ha. cbn [fst].
  assert (Hnew : slot (store jobs i (fun _ => mkjob p (freejid jobs) s cmd)) i
                 = mkjob p (freejid jobs) s cmd)
    by (apply slot_store_same; lia).
  split; [exact Hnew|]. split.
  { intros m Hm. now apply slot_store_other. }
  split; [now rewrite store_length|].
  unfold getjobjid.
  assert (E : (freejid jobs <? 1) = false) by (bools; lia). rewrite E.
  apply find_slot_first.
  - rewrite store_length. lia.
  - rewrite Hnew. cbn [jid]. apply Z.eqb_refl.
  - intros m Hm. rewrite slot_store_other by lia.
    apply Z.eqb_neq. apply Hother; [apply slot_In; lia | now apply Hfirst].
Qed.

Lemma smallest_free_jid_witness :
  1 <= 102
  /\ exists i,
       let jobs := apply_ops false jobs0 reuse_ops in
       let jobs1 := fst (fst (addjob false jobs 102 FG "c")) in
       snd (fst (addjob false jobs 102 FG "c")) = 1
       /\ freejid jobs = 1
       /\ pid (slot jobs i) = 0
       /\ slot jobs1 i = mkjob 102 1 FG "c"
       /\ getjobjid jobs1 1 = Some i.
Proof.
  split; [lia|].
  destruct (proj2 (proj2 (proj2 (proj2
              (smallest_free_jid false reuse_ops 102 FG "c" ltac:(lia)))))
              (ex_intro _ (mkjob 0 0 UNDEF EmptyString)
                 (conj (or_introl eq_refl) eq_refl)))
    as (i & Ha & _ & Hz & _ & _ & _ & _ & Hs & _ & _ & Hg).
  exists i. cbv zeta. split; [now rewrite Ha|]. split; [reflexivity|].
  split; [exact Hz|]. split; [exact Hs | exact Hg].
Defined.

(** ** Redirection *)

Lemma nth_error_upd {A : Type} (a : list A) (i k : nat) (x : A) :
  (i < List.length a)%nat ->
  nth_error (upd a i x) k = if (k =? i)%nat then Some x else nth_error a k.
Proof.
  revert i k; induction a as [|y rest IH]; intros [|i] [|k] H; simpl in *;
    try lia; try reflexivity. apply IH; lia.
Qed.

Lemma wr_spec (arr arr1 : list cell) (i : Z) (c : cell) :
  wr arr i c = Some arr1 ->
  List.length arr1 = List.length arr
  /\ forall k, rd arr1 k = if k =? i then Some c else rd arr k.
Proof.
  unfold wr. destruct ((0 <=? i) && (i <? Z.of_nat (List.length arr))) eqn:E;
    [|discriminate].
  apply andb_true_iff in E as [E1 E2]. intros H; inversion H; subst.
  split; [apply upd_length|]. intros k. unfold rd.
  destruct (k <? 0) eqn:Ek.
  - assert (E : (k =? i) = false) by lia. now rewrite E.
  - rewrite nth_error_upd by lia.
    destruct (Z.to_nat k =? Z.to_nat i)%nat eqn:En.
    + apply Nat.eqb_eq in En. assert (E : (k =? i) = true) by lia.
      now rewrite E.
    + apply Nat.eqb_neq in En. assert (E : (k =? i) = false) by lia.
      now rewrite E.
Qed.

Lemma wr_in_range (arr : list cell) (i : Z) (c : cell) :
  0 <= i < Z.of_nat (List.length arr) -> exists arr1, wr arr i c = Some arr1.
Proof.
  intros H. unfold wr.
  assert (E : (0 <=? i) && (i <? Z.of_nat (List.length arr)) = true).
  { apply andb_true_iff. lia. }
  rewrite E. eauto.
Qed.

Lemma rd_in_range (arr : list cell) (i : Z) :
  0 <= i < Z.of_nat (List.length arr) -> exists c, rd arr i = Some c.
Proof.
  intros H. unfold rd. assert (E : (i <? 0) = false) by lia. rewrite E.
  destruct (nth_error arr (Z.to_nat i)) eqn:En; [eauto|].
  apply nth_error_None in En. lia.
Qed.

(** The copying loop moves cells [i + num_args .. i + n + num_args - 1]
    down by [num_args]. *)
Lemma shift_args_spec (n : nat) (arr : list cell) (i num_args : Z) :
  0 <= i -> 1 <= num_args ->
  i + Z.of_nat n + num_args <= Z.of_nat (List.length arr) ->
  exists res,
    shift_args arr i num_args n = Some res
    /\ List.length res = List.length arr
    /\ forall k, rd res k =
         if (i <=? k) && (k <? i + Z.of_nat n) then rd arr (k + num_args)
         else rd arr k.
Proof.
  revert arr i; induction n as [|n IH]; intros arr i Hi Hnum Hlen.
  - exists arr. split; [reflexivity|]. split; [reflexivity|]. intros k.
    assert (E : (i <=? k) && (k <? i + Z.of_nat 0) = false)
      by (change (Z.of_nat 0) with 0; bools; lia).
    now rewrite E.
  - simpl shift_args.
    destruct (rd_in_range arr (i + num_args) ltac:(lia)) as (c & Hc).
    destruct (wr_in_range arr i c ltac:(lia)) as (arr1 & Hw).
    rewrite Hc, Hw. destruct (wr_spec _ _ _ _ Hw) as (Hl1 & Hr1).
    destruct (IH arr1 (i + 1) ltac:(lia) Hnum ltac:(lia))
      as (res & Hs & Hl & Hr).
    exists res. split; [exact Hs|]. split; [congruence|]. intros k.
    rewrite Hr, !Hr1. rewrite Nat2Z.inj_succ.
    destruct (Z.eq_dec k i) as [->|Hne].
    + assert (E1 : (i + 1 <=? i) && (i <? i + 1 + Z.of_nat n) = false)
        by (bools; lia).
      assert (E2 : (i <=? i) && (i <? i + Z.succ (Z.of_nat n)) = true)
        by (bools; lia).
      rewrite E1, E2, Z.eqb_refl. now rewrite Hc.
    + assert (E0 : (k =? i) = false) by (bools; lia).
      destruct ((i + 1 <=? k) && (k <? i + 1 + Z.of_nat n)) eqn:E1.
      * revert E1; bools; intros E1.
        assert (E2 : (i <=? k) && (k <? i + Z.succ (Z.of_nat n)) = true)
          by (bools; lia).
        assert (E4 : (k + num_args =? i) = false) by (bools; lia).
        now rewrite E2, E4.
      * revert E1; bools; intros E1.
        assert (E2 : (i <=? k) && (k <? i + Z.succ (Z.of_nat n)) = false)
          by (bools; lia).
        now rewrite E2, E0.
Qed.

(** What [remove_args] leaves in the array. *)
Lemma remove_args_spec (arr : list cell) (arr_l index num_args : Z) :
  0 <= index < arr_l -> 1 <= num_args ->
  arr_l + num_args <= Z.of_nat (List.length arr) ->
  exists res,
    remove_args arr arr_l index num_args = Some res
    /\ List.length res = List.length arr
    /\ forall k, rd res k =
         if k =? index + num_args then Some Null
         else if (index <=? k) && (k <? arr_l) then rd arr (k + num_args)
         else rd arr k.
Proof.
  intros Hi Hnum Hlen. unfold remove_args.
  destruct (shift_args_spec (Z.to_nat (arr_l - index)) arr index num_args)
    as (res1 & Hs & Hl1 & Hr1); try lia.
  rewrite Hs.
  destruct (wr_in_range res1 (index + num_args) Null ltac:(lia))
    as (res & Hw).
  rewrite Hw. destruct (wr_spec _ _ _ _ Hw) as (Hl & Hr).
  exists res. split; [reflexivity|]. split; [congruence|]. intros k.
  rewrite Hr, Hr1. rewrite Z2Nat.id by lia.
  replace (index + (arr_l - index)) with arr_l by lia. reflexivity.
Qed.

Lemma remove_args_consumed (argv : list cell) (argc i : Z) :
  0 <= i < argc - 1 -> argc + 2 <= Z.of_nat (List.length argv) ->
  exists argv', remove_args argv argc i 2 = Some argv' /\ consumed argv argv' i.
Proof.
  intros Hi Hlen.
  destruct (remove_args_spec argv argc i 2) as (res & Hr & Hl & Hk); try lia.
  exists res. split; [exact Hr|]. split; [exact Hl|]. split; [|split].
  - intros k Hk'. rewrite Hk.
    assert (E1 : (k =? i + 2) = false) by (bools; lia).
    assert (E2 : (i <=? k) && (k <? argc) = false) by (bools; lia).
    now rewrite E1, E2.
  - rewrite Hk.
    assert (E1 : (i =? i + 2) = false) by (bools; lia).
    assert (E2 : (i <=? i) && (i <? argc) = true) by (bools; lia).
    now rewrite E1, E2.
  - rewrite Hk.
    assert (E1 : (i + 1 =? i + 2) = false) by (bools; lia).
    assert (E2 : (i <=? i + 1) && (i + 1 <? argc) = true) by (bools; lia).
    rewrite E1, E2. f_equal. lia.
Qed.

Section RedirectProps.

Variable world : Type.
Variable sys_open : world -> string -> Z -> Z -> Z * world.
Variable sys_dup2 : world -> Z -> Z -> Z * world.

(** C4, as the code has it: at a [<] the scan opens the next token
    read-only and duplicates the descriptor onto 0; at a [>] it opens the
    next token with [O_RDWR | O_CREAT] and owner read/write permission,
    without [O_TRUNC], and duplicates the descriptor onto 1 and then 2.
    Either way the operator and the file name leave the argument vector:
    the count drops by two, the tokens before the operator stay and the two
    cells after the file name move down in order. *)
Theorem redirection_step (w : world) (argv : list cell) (argc i : Z)
  (file : string) :
  0 <= i < argc - 1 ->
  argc + 2 <= Z.of_nat (List.length argv) ->
  rd argv (i + 1) = Some (Tok file) ->
  (rd argv i = Some (Tok "<") ->
   let fd := fst (sys_open w file O_RDONLY 0) in
   let w1 := snd (sys_open w file O_RDONLY 0) in
   let r0 := fst (sys_dup2 w1 fd 0) in
   fd <> -1 -> r0 <> -1 ->
   exists argv',
     redirect_at world sys_open sys_dup2 w argv argc i
       = (Ok (snd (sys_dup2 w1 fd 0), argv', argc - 2),
          [Open file O_RDONLY 0 fd; Dup2 fd 0 r0])
     /\ consumed argv argv' i)
  /\ (rd argv i = Some (Tok ">") ->
      let flags := Z.lor O_RDWR O_CREAT in
      let mode := Z.lor S_IRUSR S_IWUSR in
      let fd := fst (sys_open w file flags mode) in
      let w1 := snd (sys_open w file flags mode) in
      let r1 := fst (sys_dup2 w1 fd 1) in
      let w2 := snd (sys_dup2 w1 fd 1) in
      let r2 := fst (sys_dup2 w2 fd 2) in
      fd <> -1 -> r1 <> -1 -> r2 <> -1 ->
      Z.land flags O_CREAT = O_CREAT
      /\ Z.land flags O_TRUNC = 0
      /\ exists argv',
           redirect_at world sys_open sys_dup2 w argv argc i
             = (Ok (snd (sys_dup2 w2 fd 2), argv', argc - 2),
                [Open file flags mode fd; Dup2 fd 1 r1; Dup2 fd 2 r2])
           /\ consumed argv argv' i).
Proof.
  intros Hi Hlen Hfile.
  destruct (remove_args_consumed argv argc i Hi Hlen) as (argv' & Hrm & Hc).
  split.
  - intros Hop fd w1 r0 Hfd Hr0. exists argv'. split; [|exact Hc].
    unfold redirect_at. rewrite Hop. simpl String.eqb. cbv iota.
    unfold redirect_one. rewrite Hfile.
    subst r0 w1 fd.
    destruct (sys_open w file O_RDONLY 0) as [fd w1]. simpl fst in *.
    simpl snd in *. simpl redirect_each. unfold redirect_stream.
    assert (E : (fd =? -1) = false) by lia. rewrite E.
    destruct (sys_dup2 w1 fd 0) as [r0 w2]. simpl fst in *. simpl snd.
    assert (E0 : (r0 =? -1) = false) by lia. rewrite E0, Hrm. reflexivity.
  - intros Hop flags mode fd w1 r1 w2 r2 Hfd Hr1 Hr2.
    split; [reflexivity|]. split; [reflexivity|].
    exists argv'. split; [|exact Hc].
    unfold redirect_at. rewrite Hop. simpl String.eqb. cbv iota.
    unfold redirect_one. rewrite Hfile.
    subst r2 w2 r1 w1 fd flags mode.
    destruct (sys_open w file (Z.lor O_RDWR O_CREAT) (Z.lor S_IRUSR S_IWUSR))
      as [fd w1]. simpl fst in *.
    simpl snd in *. simpl redirect_each. unfold redirect_stream.
    assert (E : (fd =? -1) = false) by lia. rewrite E.
    destruct (sys_dup2 w1 fd 1) as [r1 w2]. simpl fst in *. simpl snd in *.
    assert (E1 : (r1 =? -1) = false) by lia. rewrite E1.
    destruct (sys_dup2 w2 fd 2) as [r2 w3]. simpl fst in *. simpl snd.
    assert (E2 : (r2 =? -1) = false) by lia. rewrite E2, Hrm. reflexivity.
Qed.

End RedirectProps.

Lemma redirection_step_witness :
  let argv := argv_of ["ls"; ">"; "out"] in
  0 <= 1 < 3 - 1
  /\ 3 + 2 <= Z.of_nat (List.length argv)
  /\ rd argv (1 + 1) = Some (Tok "out")
  /\ rd argv 1 = Some (Tok ">")
  /\ exists argv',
       redirect_at unit open3 dup2_ok tt argv 3 1
         = (Ok (tt, argv', 1),
            [Open "out" 66 384 3; Dup2 3 1 1; Dup2 3 2 2])
       /\ consumed argv argv' 1.
Proof.
  intros argv.
  assert (H1 : 0 <= 1 < 3 - 1) by lia.
  assert (H2 : 3 + 2 <= Z.of_nat (List.length argv)) by (vm_compute; discriminate).
  assert (H3 : rd argv (1 + 1) = Some (Tok "out")) by reflexivity.
  assert (H4 : rd argv 1 = Some (Tok ">")) by reflexivity.
  repeat (split; [assumption|]).
  destruct (proj2 (redirection_step unit open3 dup2_ok tt argv 3 1 "out"
                     H1 H2 H3) H4)
    as (_ & _ & argv' & Hr & Hc); try discriminate.
  exists argv'. split; [exact Hr | exact Hc].
Defined.

(** C4 does not hold with truncation and full compaction: on
    [prog > out a b c] the flags of the [open] carry no [O_TRUNC], so an
    existing file is not truncated, and the argument vector handed to
    [execve] ends after [b]; the token [c] is cut off by the null pointer
    [remove_args] stores at [index + num_args]. *)
Lemma redirect_out_keeps_file_drops_token :
  let r := run_redirect ["prog"; ">"; "out"; "a"; "b"; "c"] in
  snd r = [Open "out" (Z.lor O_RDWR O_CREAT) (Z.lor S_IRUSR S_IWUSR) 3;
           Dup2 3 1 1; Dup2 3 2 2]
  /\ Z.land (Z.lor O_RDWR O_CREAT) O_TRUNC = 0
  /\ final_args r = Some ["prog"; "a"; "b"]
  /\ final_args r <> Some ["prog"; "a"; "b"; "c"].
Proof.
  split; [reflexivity|]. split; [reflexivity|].
  split; [reflexivity | discriminate].
Qed.

(** The scan always comes to an end: the fuel [redirect] supplies is
    enough. *)
Section RedirectTermination.

Variable world : Type.
Variable sys_open : world -> string -> Z -> Z -> Z * world.
Variable sys_dup2 : world -> Z -> Z -> Z * world.

Lemma redirect_each_fuel (targets : list Z) (w : world) (fd : Z) :
  fst (redirect_each world sys_dup2 w fd targets) <> NoFuel.
Proof.
  revert w; induction targets as [|t ts IH]; intros w; simpl;
    [discriminate|].
  unfold redirect_stream. destruct (fd =? -1); [discriminate|].
  destruct (sys_dup2 w fd t) as [r w1]. destruct (r =? -1); [discriminate|].
  specialize (IH w1).
  destruct (redirect_each world sys_dup2 w1 fd ts) as [r' out]. exact IH.
Qed.

Lemma redirect_one_result (w : world) (argv : list cell) (argc i : Z)
  (flags mode : Z) (targets : list Z) :
  match fst (redirect_one world sys_open sys_dup2 w argv argc i flags mode
               targets) with
  | Ok (_, _, argc1) => argc1 = argc - 2
  | NoFuel => False
  | _ => True
  end.
Proof.
  unfold redirect_one.
  destruct (rd argv (i + 1)) as [[path| |]|]; simpl; auto.
  destruct (sys_open w path flags mode) as [fd w1].
  pose proof (redirect_each_fuel targets w1 fd) as Hf.
  destruct (redirect_each world sys_dup2 w1 fd targets) as [[w2| | |] out];
    simpl in *; auto.
  destruct (remove_args argv argc i 2); simpl; auto.
Qed.

Lemma redirect_at_result (w : world) (argv : list cell) (argc i : Z) :
  match fst (redirect_at world sys_open sys_dup2 w argv argc i) with
  | Ok (_, _, argc1) => argc1 <= argc
  | NoFuel => False
  | _ => True
  end.
Proof.
  unfold redirect_at.
  destruct (rd argv i) as [[arg| |]|]; simpl; auto.
  destruct (String.eqb arg "<").
  - pose proof (redirect_one_result w argv argc i O_RDONLY 0 [0]) as H1.
    destruct (redirect_one world sys_open sys_dup2 w argv argc i O_RDONLY 0 [0])
      as [[[[w1 argv1] argc1]| | |] out1]; simpl in *; auto.
    destruct (String.eqb arg ">"); [|simpl; lia].
    pose proof (redirect_one_result w1 argv1 argc1 i (Z.lor O_RDWR O_CREAT)
                  (Z.lor S_IRUSR S_IWUSR) [1; 2]) as H2.
    destruct (redirect_one world sys_open sys_dup2 w1 argv1 argc1 i _ _ _)
      as [[[[w2 argv2] argc2]| | |] out2]; simpl in *; auto. lia.
  - destruct (String.eqb arg ">"); [|simpl; lia].
    pose proof (redirect_one_result w argv argc i (Z.lor O_RDWR O_CREAT)
                  (Z.lor S_IRUSR S_IWUSR) [1; 2]) as H2.
    destruct (redirect_one world sys_open sys_dup2 w argv argc i _ _ _)
      as [[[[w2 argv2] argc2]| | |] out2]; simpl in *; auto. lia.
Qed.

Lemma redirect_loop_fuel (fuel : nat) (w : world) (argv : list cell)
  (argc i : Z) :
  argc - 1 - i <= Z.of_nat fuel ->
  fst (redirect_loop world sys_open sys_dup2 fuel w argv argc i) <> NoFuel.
Proof.
  revert w argv argc i; induction fuel as [|fuel IH]; intros w argv argc i H;
    simpl; destruct (i <? argc - 1) eqn:E; try discriminate; try lia.
  pose proof (redirect_at_result w argv argc i) as Hr.
  destruct (redirect_at world sys_open sys_dup2 w argv argc i)
    as [[[[w1 argv1] argc1]| | |] out1]; simpl in *;
    try discriminate; try contradiction.
  specialize (IH w1 argv1 argc1 (i + 1) ltac:(lia)).
  destruct (redirect_loop world sys_open sys_dup2 fuel w1 argv1 argc1 (i + 1)).
  exact IH.
Qed.

Lemma redirect_terminates (w : world) (argv : list cell) (argc : Z) :
  fst (redirect world sys_open sys_dup2 w argv argc) <> NoFuel.
Proof. apply redirect_loop_fuel. lia. Qed.

End RedirectTermination.

(** ** A command with one redirection *)

Lemma argv_of_length (tokens : list string) :
  (List.length tokens + 1 <= Z.to_nat MAXARGS)%nat ->
  List.length (argv_of tokens) = Z.to_nat MAXARGS.
Proof.
  intros H. unfold argv_of. rewrite length_app, length_map.
  cbn [List.length]. rewrite repeat_length. lia.
Qed.

Lemma rd_argv_of_token (tokens : list string) (k : nat) :
  (k < List.length tokens)%nat ->
  rd (argv_of tokens) (Z.of_nat k) = Some (Tok (nth k tokens EmptyString)).
Proof.
  intros H. unfold rd, argv_of.
  assert (E : (Z.of_nat k <? 0) = false) by lia. rewrite E, Nat2Z.id.
  rewrite nth_error_app1 by (rewrite length_map; exact H).
  rewrite nth_error_map.
  now rewrite (nth_error_nth' tokens EmptyString H).
Qed.

Lemma rd_argv_of_null (tokens : list string) :
  rd (argv_of tokens) (Z.of_nat (List.length tokens)) = Some Null.
Proof.
  unfold rd, argv_of.
  assert (E : (Z.of_nat (List.length tokens) <? 0) = false)
    by (apply Z.ltb_ge, Nat2Z.is_nonneg).
  rewrite E, Nat2Z.id.
  rewrite nth_error_app2 by (rewrite length_map; lia).
  rewrite length_map, Nat.sub_diag. reflexivity.
Qed.

(** An array that holds the tokens of [l] followed by a null pointer is
    the argument vector [l]. *)
Lemma exec_args_tokens (l : list string) (a : list cell) :
  (forall k, (k < List.length l)%nat ->
             nth_error a k = Some (Tok (nth k l EmptyString))) ->
  nth_error a (List.length l) = Some Null ->
  exec_args a = Some l.
Proof.
  revert a; induction l as [|x l IH]; intros a Htok Hnull.
  - destruct a as [|c a]; simpl in *; [discriminate|].
    now inversion Hnull.
  - destruct a as [|c a].
    + specialize (Htok O ltac:(simpl; lia)). discriminate.
    + assert (H0 := Htok O ltac:(simpl; lia)). simpl in H0.
      inversion H0; subst c. simpl.
      rewrite (IH a); [reflexivity | | exact Hnull].
      intros k Hk. apply (Htok (S k)). simpl; lia.
Qed.

Lemma rd_nat (a : list cell) (k : nat) : rd a (Z.of_nat k) = nth_error a k.
Proof.
  unfold rd. assert (E : (Z.of_nat k <? 0) = false) by (bools; lia).
  now rewrite E, Nat2Z.id.
Qed.

(** Tokens that are no operator are stepped over. *)
Lemma redirect_loop_skip (fuel : nat) (argv : list cell) (argc i : Z)
  (arg : string) :
  i < argc - 1 -> rd argv i = Some (Tok arg) ->
  arg <> "<" -> arg <> ">" ->
  redirect_loop unit open3 dup2_ok (S fuel) tt argv argc i
    = redirect_loop unit open3 dup2_ok fuel tt argv argc (i + 1).
Proof.
  intros Hi Hrd H1 H2. simpl redirect_loop.
  assert (E : (i <? argc - 1) = true) by (bools; lia). rewrite E.
  unfold redirect_at. rewrite Hrd.
  apply String.eqb_neq in H1, H2. rewrite H1, H2.
  destruct (redirect_loop unit open3 dup2_ok fuel tt argv argc (i + 1)).
  reflexivity.
Qed.

Lemma redirect_loop_skips (n fuel : nat) (argv : list cell) (argc : Z)
  (i : nat) :
  Z.of_nat (i + n) <= argc - 1 ->
  (forall k, (i <= k < i + n)%nat ->
     exists arg, rd argv (Z.of_nat k) = Some (Tok arg)
                 /\ arg <> "<" /\ arg <> ">") ->
  redirect_loop unit open3 dup2_ok (n + fuel) tt argv argc (Z.of_nat i)
    = redirect_loop unit open3 dup2_ok fuel tt argv argc (Z.of_nat (i + n)).
Proof.
  revert i; induction n as [|n IH]; intros i Hle Hall.
  - now rewrite Nat.add_0_r.
  - destruct (Hall i ltac:(lia)) as (arg & Hrd & H1 & H2).
    change (S n + fuel)%nat with (S (n + fuel)).
    rewrite (redirect_loop_skip _ _ _ _ arg) by (auto; lia).
    replace (Z.of_nat i + 1) with (Z.of_nat (S i)) by lia.
    rewrite IH; [f_equal; lia | lia |].
    intros k Hk. apply Hall. lia.
Qed.

(** When the system calls succeed, a command with a single redirection
    that is followed by at most two more tokens is launched with exactly
    its other tokens, in order. *)
Lemma single_redirection_args (pre post : list string) (op file : string) :
  op = "<" \/ op = ">" ->
  Forall (fun a => a <> "<" /\ a <> ">") pre ->
  (List.length post <= 2)%nat ->
  (List.length (pre ++ op :: file :: post) + 2 <= Z.to_nat MAXARGS)%nat ->
  final_args (run_redirect (pre ++ op :: file :: post)) = Some (pre ++ post).
Proof.
  intros Hop Hpre Hpost Hmax.
  set (tokens := pre ++ op :: file :: post) in *.
  set (i0 := List.length pre).
  assert (Hn : List.length tokens = (i0 + 2 + List.length post)%nat).
  { unfold tokens, i0. rewrite length_app. simpl. lia. }
  assert (Hlen : List.length (argv_of tokens) = Z.to_nat MAXARGS)
    by (apply argv_of_length; lia).
  assert (Htok : forall k, (k < List.length tokens)%nat ->
            rd (argv_of tokens) (Z.of_nat k)
              = Some (Tok (nth k tokens EmptyString)))
    by (intros; now apply rd_argv_of_token).
  assert (Hpre_nth : forall k, (k < i0)%nat ->
            nth k tokens EmptyString = nth k pre EmptyString).
  { intros k Hk. unfold tokens. now rewrite app_nth1. }
  assert (Hpost_nth : forall k,
            nth (i0 + 2 + k) tokens EmptyString = nth k post EmptyString).
  { intros k. unfold tokens. rewrite app_nth2 by (fold i0; lia). fold i0.
    replace (i0 + 2 + k - i0)%nat with (S (S k)) by lia. reflexivity. }
  assert (Hop_nth : nth i0 tokens EmptyString = op).
  { unfold tokens. rewrite app_nth2 by (fold i0; lia). fold i0.
    now rewrite Nat.sub_diag. }
  assert (Hfile_nth : nth (S i0) tokens EmptyString = file).
  { unfold tokens. rewrite app_nth2 by (fold i0; lia). fold i0.
    replace (S i0 - i0)%nat with 1%nat by lia. reflexivity. }
  destruct (remove_args_spec (argv_of tokens) (Z.of_nat (List.length tokens))
              (Z.of_nat i0) 2) as (argv' & Hrm & Hl' & Hrd'); try lia.
  (* the scan up to the operator *)
  unfold run_redirect, redirect. fold tokens. rewrite Nat2Z.id.
  replace (List.length tokens) with (i0 + (2 + List.length post))%nat at 1
    by lia.
  change 0 with (Z.of_nat 0).
  rewrite redirect_loop_skips; [|lia|].
  2:{ intros k Hk. exists (nth k tokens EmptyString).
      split; [apply Htok; lia|]. rewrite Hpre_nth by lia.
      rewrite Forall_forall in Hpre. apply Hpre. apply nth_In. fold i0. lia. }
  (* the operator *)
  simpl Nat.add. change (2 + List.length post)%nat with (S (S (List.length post))).
  simpl redirect_loop.
  assert (E : (Z.of_nat i0 <? Z.of_nat (List.length tokens) - 1) = true) by lia.
  rewrite E.
  assert (Eop : rd (argv_of tokens) (Z.of_nat i0) = Some (Tok op))
    by (rewrite Htok by lia; now rewrite Hop_nth).
  assert (Efile : rd (argv_of tokens) (Z.of_nat i0 + 1) = Some (Tok file)).
  { replace (Z.of_nat i0 + 1) with (Z.of_nat (S i0)) by lia.
    rewrite Htok by lia. now rewrite Hfile_nth. }
  assert (Eend : (Z.of_nat i0 + 1 <? Z.of_nat (List.length tokens) - 2 - 1)
                 = false) by lia.
  assert (Hargs : exec_args argv' = Some (pre ++ post)).
  { apply exec_args_tokens.
    - intros k Hk. rewrite length_app in Hk. fold i0 in Hk.
      rewrite <- rd_nat, Hrd'.
      assert (E1 : (Z.of_nat k =? Z.of_nat i0 + 2) = false) by (bools; lia).
      rewrite E1.
      destruct (Nat.lt_ge_cases k i0) as [Hlt|Hge].
      + assert (E2 : (Z.of_nat i0 <=? Z.of_nat k)
                     && (Z.of_nat k <? Z.of_nat (List.length tokens)) = false)
          by (bools; lia).
        rewrite E2, Htok by lia. rewrite Hpre_nth by lia.
        now rewrite app_nth1 by (fold i0; lia).
      + assert (E2 : (Z.of_nat i0 <=? Z.of_nat k)
                     && (Z.of_nat k <? Z.of_nat (List.length tokens)) = true)
          by (bools; lia).
        rewrite E2. replace (Z.of_nat k + 2) with (Z.of_nat (i0 + 2 + (k - i0)))
          by lia.
        rewrite Htok by lia. rewrite Hpost_nth.
        now rewrite app_nth2 by (fold i0; lia).
    - rewrite length_app. fold i0. rewrite <- rd_nat, Hrd'.
      destruct (Nat.eq_dec (List.length post) 2) as [H2|H2].
      + assert (E1 : (Z.of_nat (i0 + List.length post) =? Z.of_nat i0 + 2)
                     = true) by (bools; lia).
        now rewrite E1.
      + assert (E1 : (Z.of_nat (i0 + List.length post) =? Z.of_nat i0 + 2)
                     = false) by (bools; lia).
        assert (E2 : (Z.of_nat i0 <=? Z.of_nat (i0 + List.length post))
                     && (Z.of_nat (i0 + List.length post)
                           <? Z.of_nat (List.length tokens)) = true)
          by (bools; lia).
        rewrite E1, E2.
        replace (Z.of_nat (i0 + List.length post) + 2)
          with (Z.of_nat (List.length tokens)) by lia.
        apply rd_argv_of_null. }
  unfold redirect_at. rewrite Eop.
  destruct Hop as [-> | ->]; simpl String.eqb; cbv iota;
    unfold redirect_one; rewrite Efile; simpl; rewrite Hrm; simpl;
    rewrite Eend; simpl; exact Hargs.
Qed.

Example single_redirection_sample :
  final_args (run_redirect ["sort"; "-r"; "<"; "in.txt"; "&"])
    = Some ["sort"; "-r"; "&"].
Proof.
  apply (single_redirection_args ["sort"; "-r"] ["&"] "<" "in.txt").
  - now left.
  - repeat constructor; discriminate.
  - simpl; lia.
  - vm_compute. lia.
Qed.

(** * Further properties of the job table *)

Lemma find_slot_store_keep (test : job_t -> bool) (jobs : jobs_t) (i : nat)
  (f : job_t -> job_t) :
  test (f (slot jobs i)) = test (slot jobs i) ->
  find_slot test (store jobs i f) = find_slot test jobs.
Proof.
  revert i; induction jobs as [|x rest IH]; intros [|i] H; simpl;
    try reflexivity.
  - unfold slot in H; simpl in H. now rewrite H.
  - rewrite (IH i); [reflexivity|]. exact H.
Qed.

Lemma find_slot_added (test : job_t -> bool) (jobs : jobs_t) (i : nat)
  (f : job_t -> job_t) :
  find_slot test jobs = None -> (i < List.length jobs)%nat ->
  test (f (slot jobs i)) = true ->
  find_slot test (store jobs i f) = Some i.
Proof.
  intros Hn Hi Ht. rewrite find_slot_none in Hn. apply find_slot_first.
  - now rewrite store_length.
  - now rewrite slot_store_same.
  - intros k Hk. rewrite slot_store_other by lia. apply Hn, slot_In. lia.
Qed.

Lemma nth_error_slot (jobs : jobs_t) (i : nat) :
  (i < List.length jobs)%nat -> nth_error jobs i = Some (slot jobs i).
Proof. intros H. unfold slot. now apply nth_error_nth'. Qed.

Lemma pid2jid_slot (jobs : jobs_t) (p : Z) (i : nat) :
  getjobpid jobs p = Some i -> pid2jid jobs p = jid (slot jobs i).
Proof.
  unfold getjobpid, pid2jid. destruct (p <? 1); [discriminate|].
  intros H. rewrite H. destruct (find_slot_some _ _ _ H) as (Hl & _).
  now rewrite nth_error_slot.
Qed.

Lemma pid2jid_none (jobs : jobs_t) (p : Z) :
  getjobpid jobs p = None -> pid2jid jobs p = 0.
Proof.
  unfold getjobpid, pid2jid. destruct (p <? 1); [reflexivity|].
  now intros ->.
Qed.

Lemma getjobpid_some (jobs : jobs_t) (p : Z) (i : nat) :
  getjobpid jobs p = Some i ->
  1 <= p /\ (i < List.length jobs)%nat /\ pid (slot jobs i) = p
  /\ forall k, (k < i)%nat -> pid (slot jobs k) <> p.
Proof.
  unfold getjobpid. destruct (p <? 1) eqn:E; [discriminate|]. intros H.
  destruct (find_slot_some _ _ _ H) as (Hl & Ht & Hk). cbv beta in Ht.
  repeat split; try lia. intros k Hlt. specialize (Hk k Hlt). cbv beta in Hk.
  lia.
Qed.

(** X1: a successful [addjob] of a pid that was not in the table can be
    looked up again: [getjobpid] and [getjobjid] return the slot that now
    holds exactly the pid, the new jid, the state and the command line,
    [pid2jid] returns the new jid, and no other slot and no lookup of
    another pid is affected. *)
Theorem addjob_then_lookup (verbose : bool) (jobs jobs1 : jobs_t) (p s : Z)
  (cmd : string) (out : list effect) :
  addjob verbose jobs p s cmd = (jobs1, 1, out) ->
  getjobpid jobs p = None ->
  exists i,
    getjobpid jobs1 p = Some i
    /\ getjobjid jobs1 (freejid jobs) = Some i
    /\ slot jobs1 i = mkjob p (freejid jobs) s cmd
    /\ pid2jid jobs1 p = freejid jobs
    /\ (forall k, k <> i -> slot jobs1 k = slot jobs k)
    /\ (forall q, q <> p ->
          getjobpid jobs1 q = getjobpid jobs q
          /\ pid2jid jobs1 q = pid2jid jobs q).
Proof.
  intros Ha Hfresh.
  destruct (addjob_success _ _ _ _ _ _ _ Ha) as (Hp & Hf & i & Hi & ->).
  destruct (find_slot_some _ _ _ Hi) as (Hl & Hz & _). cbv beta in Hz.
  destruct (freejid_range jobs Hf) as [Hk Hu].
  set (new := fun _ : job_t => mkjob p (freejid jobs) s cmd).
  assert (Hs : slot (store jobs i new) i = mkjob p (freejid jobs) s cmd)
    by now rewrite slot_store_same.
  assert (Hg : getjobpid (store jobs i new) p = Some i)
    by now apply getjobpid_added.
  assert (Hq : forall q, q <> p ->
            getjobpid (store jobs i new) q = getjobpid jobs q).
  { intros q Hne. unfold getjobpid. destruct (q <? 1) eqn:Eq; [reflexivity|].
    apply find_slot_store_keep. unfold new. cbn [pid].
    assert (E1 : (p =? q) = false) by lia.
    assert (E2 : (pid (slot jobs i) =? q) = false) by lia.
    now rewrite E1, E2. }
  exists i. split; [exact Hg|]. split; [|split; [exact Hs|split; [|split]]].
  - unfold getjobjid. assert (E : (freejid jobs <? 1) = false) by lia.
    rewrite E. apply find_slot_added; [|exact Hl|].
    + apply find_slot_none. intros j Hin. cbv beta.
      destruct (jid j =? freejid jobs) eqn:Ej; [|reflexivity].
      exfalso. apply Hu. exists j. split; [exact Hin | lia].
    + unfold new. cbn [jid]. apply Z.eqb_refl.
  - rewrite (pid2jid_slot _ _ _ Hg), Hs. reflexivity.
  - intros k Hne. now apply slot_store_other.
  - intros q Hne. split; [now apply Hq|].
    destruct (getjobpid jobs q) as [k|] eqn:Hgq.
    + rewrite (pid2jid_slot _ _ _ Hgq).
      assert (Hgq' := Hq q Hne). rewrite Hgq in Hgq'.
      rewrite (pid2jid_slot _ _ _ Hgq').
      destruct (getjobpid_some _ _ _ Hgq) as (Hq1 & _ & Hpk & _).
      rewrite slot_store_other; [reflexivity|]. intros ->. lia.
    + rewrite (pid2jid_none _ _ Hgq). apply pid2jid_none.
      now rewrite Hq.
Qed.

Lemma addjob_then_lookup_witness :
  addjob false bg_table 101 FG "ls" = (store bg_table 1 (fun _ => mkjob 101 2 FG "ls"), 1, [])
  /\ getjobpid bg_table 101 = None
  /\ exists i,
       getjobpid (store bg_table 1 (fun _ => mkjob 101 2 FG "ls")) 101 = Some i
       /\ pid2jid (store bg_table 1 (fun _ => mkjob 101 2 FG "ls")) 101 = 2.
Proof.
  split; [reflexivity|]. split; [reflexivity|].
  destruct (addjob_then_lookup false bg_table
              (store bg_table 1 (fun _ => mkjob 101 2 FG "ls")) 101 FG "ls" []
              eq_refl eq_refl) as (i & H1 & _ & _ & H4 & _).
  exists i. split; [exact H1 | exact H4].
Defined.

Lemma deletejob_found (jobs : jobs_t) (p : Z) (i : nat) :
  getjobpid jobs p = Some i -> deletejob jobs p = (store jobs i clearjob, 1).
Proof.
  unfold getjobpid, deletejob. destruct (p <? 1); [discriminate|].
  now intros ->.
Qed.

Lemma deletejob_missing (jobs : jobs_t) (p : Z) :
  getjobpid jobs p = None -> deletejob jobs p = (jobs, 0).
Proof.
  unfold getjobpid, deletejob. destruct (p <? 1); [reflexivity|].
  now intros ->.
Qed.

(** X2: with pairwise distinct pids, [deletejob] returns 1 exactly when an
    entry holds the pid; afterwards the pid is no longer found, a second
    [deletejob] returns 0 and changes nothing, and the lookup of every
    other pid gives what it gave before. *)
Theorem deletejob_then_lookup (jobs : jobs_t) (p : Z) :
  pids_unique jobs -> 1 <= p ->
  let jobs1 := fst (deletejob jobs p) in
  (snd (deletejob jobs p) = 1 <-> exists j, In j jobs /\ pid j = p)
  /\ getjobpid jobs1 p = None
  /\ deletejob jobs1 p = (jobs1, 0)
  /\ forall q, q <> p -> getjobpid jobs1 q = getjobpid jobs q.
Proof.
  intros Hu Hp jobs1.
  assert (Ep : (p <? 1) = false) by lia.
  destruct (getjobpid jobs p) as [i|] eqn:Hg.
  - destruct (getjobpid_some _ _ _ Hg) as (_ & Hl & Hpi & _).
    assert (E1 : jobs1 = store jobs i clearjob)
      by (unfold jobs1; now rewrite (deletejob_found _ _ _ Hg)).
    assert (Hnone : getjobpid jobs1 p = None).
    { rewrite E1. unfold getjobpid. rewrite Ep. apply find_slot_none.
      intros j Hin. cbv beta. apply In_slot in Hin.
      destruct Hin as (k & Hk & <-). rewrite store_length in Hk.
      destruct (Nat.eq_dec k i) as [->|Hne].
      - rewrite slot_store_same by exact Hl. unfold clearjob. cbn [pid]. lia.
      - rewrite slot_store_other by exact Hne.
        destruct (pid (slot jobs k) =? p) eqn:E; [|reflexivity].
        exfalso. apply Hne. apply Hu; try assumption; lia. }
    split; [|split; [exact Hnone|split]].
    + rewrite (deletejob_found _ _ _ Hg). simpl. split; [|reflexivity].
      intros _. exists (slot jobs i). split; [now apply slot_In | exact Hpi].
    + now apply deletejob_missing.
    + intros q Hne. rewrite E1. unfold getjobpid.
      destruct (q <? 1) eqn:Eq; [reflexivity|].
      apply find_slot_store_keep. unfold clearjob. cbn [pid].
      assert (E2 : (0 =? q) = false) by lia.
      assert (E3 : (pid (slot jobs i) =? q) = false) by lia.
      now rewrite E2, E3.
  - assert (E1 : jobs1 = jobs)
      by (unfold jobs1; now rewrite (deletejob_missing _ _ Hg)).
    rewrite E1. split; [|split; [exact Hg|split]].
    + rewrite (deletejob_missing _ _ Hg). simpl. split; [discriminate|].
      intros (j & Hin & Hj). exfalso. unfold getjobpid in Hg.
      rewrite Ep in Hg. rewrite find_slot_none in Hg.
      specialize (Hg j Hin). cbv beta in Hg. lia.
    + now apply deletejob_missing.
    + reflexivity.
Qed.

Lemma pids_unique_bg_table : pids_unique bg_table.
Proof.
  assert (Hz : forall k, pid (slot bg_table (S k)) = 0).
  { intros k. do 15 (destruct k as [|k]; [reflexivity|]).
    unfold slot. simpl. now destruct k. }
  intros a b _ _ He Hn.
  destruct a as [|a]; [|now rewrite Hz in Hn].
  destruct b as [|b]; [reflexivity|].
  rewrite He, Hz in Hn. now destruct Hn.
Qed.

Lemma deletejob_then_lookup_witness :
  1 <= 100
  /\ snd (deletejob bg_table 100) = 1
  /\ getjobpid (fst (deletejob bg_table 100)) 100 = None.
Proof.
  split; [lia|].
  destruct (deletejob_then_lookup bg_table 100 pids_unique_bg_table
              ltac:(lia)) as (H1 & H2 & _).
  split; [reflexivity | exact H2].
Defined.

(** X3: removing a job frees its jid: on a well-formed table, after
    [deletejob] of a job that is present, [freejid] is positive and at most
    the jid the job carried, so the next job gets that jid or a smaller
    one. *)
Theorem deletejob_frees_jid (jobs : jobs_t) (p : Z) (i : nat) :
  table_ok jobs -> getjobpid jobs p = Some i ->
  1 <= freejid (fst (deletejob jobs p)) <= jid (slot jobs i).
Proof.
  intros Hok Hg. rewrite (deletejob_found _ _ _ Hg). simpl fst.
  destruct (getjobpid_some _ _ _ Hg) as (Hp & Hl & Hpi & _).
  destruct Hok as (Hlen & Hent & Hnd).
  assert (Hk : 1 <= jid (slot jobs i) <= Z.of_nat MAXJOBS).
  { destruct (Hent _ (slot_In jobs i Hl)) as [[Hz _]|[_ Hj]]; [lia | exact Hj]. }
  assert (Hfree : ~ jid_used (store jobs i clearjob) (jid (slot jobs i))).
  { destruct (store_split jobs i clearjob Hl) as (pre & post & E1 & E2).
    intros Hu. assert (Hin : In (jid (slot jobs i))
                               (live_jids (store jobs i clearjob))).
    { apply In_live_jids. split; [lia | exact Hu]. }
    rewrite E2 in Hin. rewrite E1 in Hnd. rewrite live_jids_app in *.
    change (live_jids (clearjob (slot jobs i) :: post)) with (live_jids post)
      in Hin.
    assert (Ek : live_jids (slot jobs i :: post)
                 = jid (slot jobs i) :: live_jids post).
    { unfold live_jids. simpl.
      assert (E : (jid (slot jobs i) =? 0) = false) by lia. now rewrite E. }
    rewrite Ek in Hnd. now apply NoDup_remove_2 in Hnd. }
  destruct (freejid_spec (store jobs i clearjob))
    as [[_ Hall]|(Hr & _ & Hsmall)].
  - exfalso. apply Hfree. now apply Hall.
  - split; [lia|].
    destruct (Z_lt_le_dec (jid (slot jobs i)) (freejid (store jobs i clearjob)))
      as [Hlt|Hle]; [|exact Hle].
    exfalso. apply Hfree. apply Hsmall. lia.
Qed.

Lemma deletejob_frees_jid_witness :
  getjobpid bg_table 100 = Some O
  /\ 1 <= freejid (fst (deletejob bg_table 100)) <= 1.
Proof.
  split; [reflexivity|].
  apply (deletejob_frees_jid bg_table 100 O); [|reflexivity].
  unfold bg_table.
  apply (table_ok_addjob false jobs0 100 BG ("sleep 5 &" ++ LF) table_ok_init).
Defined.

(** ** Invariants of the running shell *)

Lemma map_store_keep {B : Type} (g : job_t -> B) (jobs : jobs_t) (i : nat)
  (f : job_t -> job_t) :
  (forall x, g (f x) = g x) -> map g (store jobs i f) = map g jobs.
Proof.
  intros H. revert i; induction jobs as [|x rest IH]; intros [|i]; simpl;
    try reflexivity; [now rewrite H | now rewrite IH].
Qed.

Lemma table_ok_set_state (jobs : jobs_t) (i : nat) (s : Z) :
  table_ok jobs -> table_ok (store jobs i (set_state s)).
Proof.
  intros (Hlen & Hent & Hnd). split; [now rewrite store_length|]. split.
  - intros j Hin. destruct (In_store _ _ _ _ Hin) as [Hj|[Hl ->]];
      [now apply Hent|]. apply (Hent _ (slot_In jobs i Hl)).
  - unfold live_jids. now rewrite (map_store_keep jid).
Qed.

Lemma states_ok_store (jobs : jobs_t) (i : nat) (f : job_t -> job_t) :
  states_ok jobs ->
  ((i < List.length jobs)%nat ->
   (pid (f (slot jobs i)) = 0 -> state (f (slot jobs i)) = UNDEF)
   /\ (pid (f (slot jobs i)) <> 0 ->
       state (f (slot jobs i)) = FG \/ state (f (slot jobs i)) = BG
       \/ state (f (slot jobs i)) = ST)) ->
  states_ok (store jobs i f).
Proof.
  intros Hs Hf j Hin. destruct (In_store _ _ _ _ Hin) as [Hj|[Hl ->]];
    [now apply Hs | now apply Hf].
Qed.

Lemma table_inv_set_state (jobs : jobs_t) (i : nat) (s : Z) :
  table_inv jobs -> pid (slot jobs i) <> 0 -> s = FG \/ s = BG \/ s = ST ->
  table_inv (store jobs i (set_state s)).
Proof.
  intros [Hok Hst] Hp Hs. split; [now apply table_ok_set_state|].
  apply states_ok_store; [exact Hst|]. intros _. cbn [pid state set_state].
  split; [contradiction | auto].
Qed.

Lemma table_inv_clear (jobs : jobs_t) (i : nat) :
  table_inv jobs -> table_inv (store jobs i clearjob).
Proof.
  intros [Hok Hst]. split; [now apply table_ok_clear|].
  apply states_ok_store; [exact Hst|]. intros _. unfold clearjob.
  cbn [pid state]. split; [reflexivity | intros H; now destruct H].
Qed.

Lemma table_inv_deletejob (jobs : jobs_t) (p : Z) :
  table_inv jobs -> table_inv (fst (deletejob jobs p)).
Proof.
  intros H. unfold deletejob. destruct (p <? 1); [exact H|].
  destruct (find_slot _ jobs); [|exact H]. now apply table_inv_clear.
Qed.

Lemma table_inv_sigchld (rets : list Z) (jobs : jobs_t) :
  table_inv jobs -> table_inv (sigchld_handler jobs rets).
Proof.
  revert jobs; induction rets as [|r rets IH]; intros jobs H; simpl;
    [exact H|]. destruct (0 <? r); [|exact H].
  apply IH. now apply table_inv_deletejob.
Qed.

Lemma table_ok_jid_has_pid (jobs : jobs_t) : table_ok jobs -> jid_has_pid jobs.
Proof.
  intros (_ & Hent & _) j Hin Hj.
  destruct (Hent j Hin) as [[_ Hz]|[Hp _]]; [contradiction | lia].
Qed.

Lemma table_inv_addjob (verbose : bool) (jobs : jobs_t) (p s : Z)
  (cmd : string) :
  table_inv jobs -> s = FG \/ s = BG ->
  table_inv (fst (fst (addjob verbose jobs p s cmd))).
Proof.
  intros [Hok Hst] Hs. split; [now apply table_ok_addjob|].
  destruct (addjob verbose jobs p s cmd) as [[jobs1 r] out] eqn:Ha. simpl.
  destruct (Z.eq_dec r 1) as [->|Hr].
  - destruct (addjob_success _ _ _ _ _ _ _ Ha) as (Hp & _ & i & _ & ->).
    apply states_ok_store; [exact Hst|]. intros _. cbn [pid state].
    split; [lia | intros _; tauto].
  - now rewrite (addjob_failure _ _ _ _ _ _ _ _ Ha Hr).
Qed.

Lemma table_inv_do_bgfg (jobs : jobs_t) (argv0 argv1 : string) (kill_ret : Z) :
  table_inv jobs -> table_inv (fst (fst (do_bgfg jobs argv0 argv1 kill_ret))).
Proof.
  intros H. unfold do_bgfg.
  destruct (resolve jobs argv1) as [i|] eqn:Hr; [|exact H].
  assert (Hp := resolve_has_pid _ _ _ (table_ok_jid_has_pid _ (proj1 H)) Hr).
  destruct (String.eqb argv0 "bg").
  - destruct (kill_ret =? -1); simpl; apply table_inv_set_state; auto.
  - destruct (String.eqb argv0 "fg"); [|exact H].
    destruct (fgpid _ =? 0); [|destruct (kill_ret =? -1)]; simpl;
      apply table_inv_set_state; auto.
Qed.

Lemma table_inv_eval (verbose : bool) (jobs : jobs_t) (argv : list string)
  (cmd : string) (fork_ret kill_ret : Z) :
  table_inv jobs ->
  table_inv (fst (fst (eval verbose jobs argv cmd fork_ret kill_ret))).
Proof.
  intros H. unfold eval. destruct argv as [|a0 rest]; [exact H|].
  destruct (builtin_cmd jobs (a0 :: rest) kill_ret) as [r|] eqn:Hb.
  - unfold builtin_cmd in Hb.
    destruct (String.eqb a0 "jobs"); [inversion Hb; exact H|].
    destruct (String.eqb a0 "quit"); [inversion Hb; exact H|].
    destruct (String.eqb a0 "bg" || String.eqb a0 "fg"); [|discriminate].
    destruct rest as [|a1 rest]; inversion Hb; [exact H|].
    now apply table_inv_do_bgfg.
  - set (st := if String.eqb (last (a0 :: rest) EmptyString) "&"
               then BG else FG).
    assert (Hst : st = FG \/ st = BG)
      by (unfold st; destruct (String.eqb _ "&"); auto).
    destruct (fork_ret <? 0); [exact H|].
    destruct (fork_ret =? 0); [exact H|].
    pose proof (table_inv_addjob verbose jobs fork_ret st cmd H Hst) as Ha.
    destruct (addjob verbose jobs fork_ret st cmd) as [[jobs1 r] out].
    simpl in Ha. destruct (negb (r =? 1)); [exact Ha|].
    destruct (st =? BG); [|exact Ha].
    destruct (getjobpid jobs1 fork_ret); exact Ha.
Qed.

Lemma table_inv_sigint (jobs : jobs_t) (kill_ret : Z) :
  fst (fst (sigint_handler jobs kill_ret)) = jobs.
Proof.
  unfold sigint_handler. destruct (fgpid jobs =? 0); [reflexivity|].
  destruct (kill_ret =? -1); [reflexivity|].
  destruct (getjobpid jobs (fgpid jobs)); reflexivity.
Qed.

Lemma table_inv_sigtstp (jobs : jobs_t) (kill_ret : Z) :
  table_inv jobs -> table_inv (fst (fst (sigtstp_handler jobs kill_ret))).
Proof.
  intros H. unfold sigtstp_handler. destruct (fgpid jobs =? 0); [exact H|].
  destruct (kill_ret =? -1); [exact H|].
  destruct (getjobpid jobs (fgpid jobs)) as [i|] eqn:Hg; [|exact H]. simpl.
  destruct (getjobpid_some _ _ _ Hg) as (Hp & _ & Hpi & _).
  apply table_inv_set_state; auto. lia.
Qed.

Lemma after_command_jobs (r : jobs_t * list effect * ctl) :
  sh_jobs (fst (after_command r)) = fst (fst r).
Proof. destruct r as [[jobs out] c]. destruct c; reflexivity. Qed.

Lemma after_handler_jobs (m : mode) (r : jobs_t * list effect * ctl) :
  sh_jobs (fst (after_handler m r)) = fst (fst r).
Proof. destruct r as [[jobs out] c]. destruct c; reflexivity. Qed.

Lemma step_result (verbose : bool) (s s' : shell) (e : event)
  (out : list effect) :
  step verbose s e = Some (s', out) ->
  match e with
  | Line argv cmd f k =>
      sh_mode s = Prompt
      /\ (s', out) = after_command (eval verbose (sh_jobs s) argv cmd f k)
  | Sigchld rets =>
      (s', out) = after_handler (sh_mode s)
                    (sigchld_handler (sh_jobs s) rets, [], Ret)
  | Sigint k =>
      (s', out) = after_handler (sh_mode s) (sigint_handler (sh_jobs s) k)
  | Sigtstp k =>
      (s', out) = after_handler (sh_mode s) (sigtstp_handler (sh_jobs s) k)
  end.
Proof.
  unfold step. destruct (sh_mode s), e; try discriminate; intros H;
    inversion H; auto.
Qed.

Lemma table_inv_step (verbose : bool) (s s' : shell) (e : event)
  (out : list effect) :
  table_inv (sh_jobs s) -> step verbose s e = Some (s', out) ->
  table_inv (sh_jobs s').
Proof.
  intros Hinv Hs. apply step_result in Hs. destruct e.
  - destruct Hs as [_ Hs].
    replace s' with (fst (s', out)) by reflexivity. rewrite Hs.
    rewrite after_command_jobs. now apply table_inv_eval.
  - replace s' with (fst (s', out)) by reflexivity. rewrite Hs.
    rewrite after_handler_jobs. simpl. now apply table_inv_sigchld.
  - replace s' with (fst (s', out)) by reflexivity. rewrite Hs.
    rewrite after_handler_jobs. now rewrite table_inv_sigint.
  - replace s' with (fst (s', out)) by reflexivity. rewrite Hs.
    rewrite after_handler_jobs. now apply table_inv_sigtstp.
Qed.

Lemma states_ok_init : states_ok jobs0.
Proof.
  intros j Hin. simpl in Hin.
  repeat (destruct Hin as [<-|Hin];
          [split; [reflexivity | intros H; now destruct H]|]).
  destruct Hin.
Qed.

Lemma table_inv_run (verbose : bool) (es : list event) (s s' : shell)
  (out : list effect) :
  table_inv (sh_jobs s) -> run verbose s es = Some (s', out) ->
  table_inv (sh_jobs s').
Proof.
  revert s out. induction es as [|e es IH]; intros s out Hinv; simpl.
  - intros H; inversion H; subst; exact Hinv.
  - destruct (step verbose s e) as [[s1 out1]|] eqn:Hs; [|discriminate].
    destruct (run verbose s1 es) as [[s2 out2]|] eqn:Hr; [|discriminate].
    intros H; inversion H; subst.
    apply (IH s1 out2); [|exact Hr]. apply (table_inv_step _ _ _ _ _ Hinv Hs).
Qed.

Lemma table_inv_init : table_inv (sh_jobs shell0).
Proof. split; [apply table_ok_init | apply states_ok_init]. Qed.

Lemma live_states_ok_store (jobs : jobs_t) (i : nat) (f : job_t -> job_t) :
  live_states_ok jobs ->
  ((i < List.length jobs)%nat -> pid (f (slot jobs i)) <> 0 ->
   state (f (slot jobs i)) = FG \/ state (f (slot jobs i)) = BG
   \/ state (f (slot jobs i)) = ST) ->
  live_states_ok (store jobs i f).
Proof.
  intros H Hf j Hin Hp. destruct (In_store _ _ _ _ Hin) as [Hj|[Hl ->]];
    [now apply H | now apply Hf].
Qed.

Lemma live_states_ok_write (verbose : bool) (jobs : jobs_t)
  (w : table_write) :
  write_ok w -> live_states_ok jobs ->
  live_states_ok (apply_write verbose jobs w).
Proof.
  intros Hw H. destruct w as [p s cmd|p|i s]; cbn [apply_write write_ok] in *.
  - destruct (addjob verbose jobs p s cmd) as [[jobs1 r] out] eqn:Ha.
    cbn [fst]. destruct (Z.eq_dec r 1) as [->|Hr].
    + destruct (addjob_success _ _ _ _ _ _ _ Ha) as (_ & _ & i & _ & ->).
      apply live_states_ok_store; [exact H|]. intros _ _. cbn [state].
      destruct Hw; auto.
    + now rewrite (addjob_failure _ _ _ _ _ _ _ _ Ha Hr).
  - unfold deletejob. destruct (p <? 1); [exact H|].
    destruct (find_slot _ jobs); [|exact H].
    apply live_states_ok_store; [exact H|]. intros _ Hp. now destruct Hp.
  - apply live_states_ok_store; [exact H|]. intros _ _. cbn [state set_state].
    destruct Hw as [->|[->| ->]]; auto.
Qed.

Lemma table_ok_write (verbose : bool) (jobs : jobs_t) (w : table_write) :
  table_ok jobs -> table_ok (apply_write verbose jobs w).
Proof.
  intros H. destruct w; cbn [apply_write];
    [now apply table_ok_addjob | now apply table_ok_deletejob
     | now apply table_ok_set_state].
Qed.

Lemma live_states_ok_init : live_states_ok jobs0.
Proof.
  intros j Hin Hp. simpl in Hin.
  repeat (destruct Hin as [<-|Hin]; [now destruct Hp|]). destruct Hin.
Qed.

(** X4: whatever the order in which the writes of the shell reach the
    job table ([addjob] of an FG or BG job, [deletejob], and a state BG,
    FG or ST stored through any slot pointer, also one whose job has been
    reaped in between), the table keeps MAXJOBS slots, every slot holds
    pid 0 and jid 0 or a positive pid with a jid in 1..MAXJOBS, no jid is
    carried by two slots, and every live job is FG, BG or ST. *)
Theorem table_well_formed_after_any_writes (verbose : bool)
  (ws : list table_write) :
  Forall write_ok ws ->
  table_ok (apply_writes verbose jobs0 ws)
  /\ live_states_ok (apply_writes verbose jobs0 ws).
Proof.
  unfold apply_writes. intros Hws.
  assert (H : forall jobs, table_ok jobs -> live_states_ok jobs ->
            table_ok (fold_left (apply_write verbose) ws jobs)
            /\ live_states_ok (fold_left (apply_write verbose) ws jobs)).
  { induction Hws as [|w l Hw _ IH]; intros jobs Hok Hst; cbn [fold_left];
      [now split|].
    apply IH; [now apply table_ok_write | now apply live_states_ok_write]. }
  apply H; [apply table_ok_init | apply live_states_ok_init].
Qed.

Lemma table_well_formed_after_any_writes_witness :
  Forall write_ok stale_writes
  /\ slot (apply_writes false jobs0 stale_writes) 0
     = mkjob 0 0 FG EmptyString
  /\ table_ok (apply_writes false jobs0 stale_writes)
  /\ live_states_ok (apply_writes false jobs0 stale_writes).
Proof.
  assert (H : Forall write_ok stale_writes).
  { apply Forall_cons; [right; reflexivity|].
    apply Forall_cons; [exact I|].
    apply Forall_cons; [right; left; reflexivity | apply Forall_nil]. }
  split; [exact H|]. split; [reflexivity|].
  apply (table_well_formed_after_any_writes false stale_writes H).
Defined.

(** ** The jobs listing *)





(** ** Where the main flow is *)

Lemma step_waiting (verbose : bool) (s s' : shell) (e : event)
  (out : list effect) (p : Z) :
  step verbose s e = Some (s', out) ->
  sh_mode s' = Waiting p -> fgpid (sh_jobs s') = p.
Proof.
  assert (Hw : forall q jobs, waitfg q jobs = Waiting p -> fgpid jobs = p).
  { intros q jobs. unfold waitfg. destruct (q =? fgpid jobs) eqn:E;
      [|discriminate]. intros H; inversion H; subst. lia. }
  assert (Hc : forall r, sh_mode (fst (after_command r)) = Waiting p ->
                 fgpid (sh_jobs (fst (after_command r))) = p).
  { intros [[jobs o] c]. destruct c; simpl; try (intros; discriminate).
    apply Hw. }
  assert (Hh : forall m r, (forall q, m = Waiting q -> True) ->
                 sh_mode (fst (after_handler m r)) = Waiting p ->
                 fgpid (sh_jobs (fst (after_handler m r))) = p).
  { intros m [[jobs o] c] _. destruct c; simpl; try (intros; discriminate).
    destruct m as [|q|]; try (intros; discriminate). apply Hw. }
  intros Hs Hmode. apply step_result in Hs.
  destruct e; [destruct Hs as [_ Hs]|..];
    apply (f_equal fst) in Hs; cbn [fst] in Hs; subst s';
    [now apply Hc | now apply Hh ..].
Qed.

Lemma run_waiting (verbose : bool) (es : list event) (s s' : shell)
  (out : list effect) :
  (forall q, sh_mode s = Waiting q -> fgpid (sh_jobs s) = q) ->
  run verbose s es = Some (s', out) ->
  forall p, sh_mode s' = Waiting p -> fgpid (sh_jobs s') = p.
Proof.
  revert s out. induction es as [|e es IH]; intros s out Hw; simpl.
  - intros H; inversion H; subst; exact Hw.
  - destruct (step verbose s e) as [[s1 out1]|] eqn:Hs; [|discriminate].
    destruct (run verbose s1 es) as [[s2 out2]|] eqn:Hr; [|discriminate].
    intros H; inversion H; subst.
    apply (IH s1 out2); [|exact Hr].
    intros q. apply (step_waiting verbose s s1 e out1 q Hs).
Qed.

Lemma fine_run_calm (verbose : bool) (es : list event) (s : shell) :
  fine_run verbose s (map Calm es) = run verbose s es.
Proof.
  revert s; induction es as [|e es IH]; intros s; [reflexivity|].
  cbn [map fine_run run fine_step].
  destruct (step verbose s e) as [[s1 out1]|]; [|reflexivity].
  now rewrite IH.
Qed.

Lemma quiet_events (es : list fine_event) :
  Forall quiet es -> exists es', es = map Calm es'.
Proof.
  induction 1 as [|e es He _ (es' & ->)]; [now exists []|].
  destruct e as [e|]; [|contradiction]. now exists (e :: es').
Qed.

(** X6: in a run in which no signal handler executes inside a command
    (handlers run only while the shell reads a command line or is
    suspended in [waitfg]): whenever the shell is at the prompt no job is
    in the FG state, and whenever it is suspended in [waitfg p], [p] is
    nonzero, it is the pid [fgpid] reports, and exactly one job is in the
    FG state. *)
Theorem waits_on_the_foreground_job (verbose : bool) (es : list fine_event)
  (s : shell) (out : list effect) :
  Forall quiet es ->
  fine_run verbose shell0 es = Some (s, out) ->
  match sh_mode s with
  | Prompt => fgcount (sh_jobs s) = O
  | Waiting p =>
      p <> 0 /\ fgpid (sh_jobs s) = p /\ fgcount (sh_jobs s) = 1%nat
  | Halted => True
  end.
Proof.
  intros Hq H. destruct (quiet_events es Hq) as (es' & ->).
  rewrite fine_run_calm in H.
  pose proof (shell_inv_run verbose es' shell0 s out shell_inv_init H)
    as [_ Hi].
  assert (Hw : forall p, sh_mode s = Waiting p -> fgpid (sh_jobs s) = p).
  { apply (run_waiting verbose es' shell0 s out); [|exact H].
    intros q Hq'. discriminate. }
  destruct (sh_mode s) as [|p|] eqn:Em; [exact Hi| |exact I].
  destruct Hi as (Hp & Hle & _). specialize (Hw p eq_refl).
  split; [exact Hp|]. split; [exact Hw|].
  destruct (fgcount (sh_jobs s)) as [|[|n]] eqn:Ec; [|reflexivity|lia].
  rewrite (fgpid_no_fg _ Ec) in Hw. congruence.
Qed.

Lemma waits_on_the_foreground_job_witness :
  Forall quiet (map Calm session)
  /\ exists s out,
       fine_run false shell0 (map Calm session) = Some (s, out)
       /\ sh_mode s = Waiting 100
       /\ fgpid (sh_jobs s) = 100 /\ fgcount (sh_jobs s) = 1%nat.
Proof.
  assert (Hq : Forall quiet (map Calm session)).
  { repeat (apply Forall_cons; [exact I|]). apply Forall_nil. }
  split; [exact Hq|].
  eexists; eexists. split; [reflexivity|]. split; [reflexivity|].
  pose proof (waits_on_the_foreground_job false (map Calm session) _ _ Hq
                eq_refl) as H.
  simpl sh_mode in H. destruct H as (_ & H1 & H2). split; assumption.
Defined.

(** ** What the built-in commands and the key handlers leave alone *)

(** X7: the built-in commands and the interrupt and suspend handlers never
    add, remove or rename a job: the pid, jid and command line of every
    slot stay as they are ([sigint_handler] changes nothing at all); only a
    state can change. *)
Theorem builtins_and_keys_keep_jobs (jobs : jobs_t) (argv : list string)
  (kill_ret : Z) :
  match builtin_cmd jobs argv kill_ret with
  | Some r => map identity (fst (fst r)) = map identity jobs
  | None => True
  end
  /\ fst (fst (sigint_handler jobs kill_ret)) = jobs
  /\ map identity (fst (fst (sigtstp_handler jobs kill_ret)))
     = map identity jobs.
Proof.
  assert (Hset : forall i s, map identity (store jobs i (set_state s))
                             = map identity jobs).
  { intros i s. apply map_store_keep. intros x. reflexivity. }
  split; [|split].
  - unfold builtin_cmd. destruct argv as [|a0 rest]; [exact I|].
    destruct (String.eqb a0 "jobs"); [reflexivity|].
    destruct (String.eqb a0 "quit"); [reflexivity|].
    destruct (String.eqb a0 "bg" || String.eqb a0 "fg"); [|exact I].
    destruct rest as [|a1 rest]; [reflexivity|].
    unfold do_bgfg. destruct (resolve jobs a1) as [i|]; [|reflexivity].
    destruct (String.eqb a0 "bg").
    + destruct (kill_ret =? -1); apply Hset.
    + destruct (String.eqb a0 "fg"); [|reflexivity].
      destruct (fgpid _ =? 0); [|destruct (kill_ret =? -1)]; apply Hset.
  - apply table_inv_sigint.
  - unfold sigtstp_handler. destruct (fgpid jobs =? 0); [reflexivity|].
    destruct (kill_ret =? -1); [reflexivity|].
    destruct (getjobpid jobs (fgpid jobs)); [apply Hset | reflexivity].
Qed.

(** ** A full table *)

(** X8: when all MAXJOBS slots of a reachable table are occupied, typing
    any command that is not built in ends the shell: after the fork,
    [addjob] prints its too-many-jobs message and [eval] reports the
    [addjob] error through [unix_error], which exits with status 1; the
    table is as it was and the shell reads no further command. *)
Theorem launch_on_full_table_exits (verbose : bool) (es : list event)
  (s : shell) (out : list effect) (argv : list string) (cmd : string)
  (f kill_ret : Z) :
  run verbose shell0 es = Some (s, out) ->
  sh_mode s = Prompt ->
  (forall j, In j (sh_jobs s) -> pid j <> 0) ->
  builtin_cmd (sh_jobs s) argv kill_ret = None ->
  argv <> [] ->
  1 <= f ->
  eval verbose (sh_jobs s) argv cmd f kill_ret
    = (sh_jobs s,
       [Print ("Tried to create too many jobs" ++ LF); UnixError "addjob"],
       Exit 1)
  /\ step verbose s (Line argv cmd f kill_ret)
     = Some (mkshell (sh_jobs s) Halted,
             [Print ("Tried to create too many jobs" ++ LF);
              UnixError "addjob"])
  /\ forall e, step verbose (mkshell (sh_jobs s) Halted) e = None.
Proof.
  intros Hrun Hm Hfull Hb Hne Hf.
  pose proof (table_inv_run verbose es shell0 s out table_inv_init Hrun)
    as [Hok _].
  assert (H0 : freejid (sh_jobs s) = 0)
    by now apply (full_iff_no_free_jid _ Hok).
  assert (He : eval verbose (sh_jobs s) argv cmd f kill_ret
               = (sh_jobs s,
                  [Print ("Tried to create too many jobs" ++ LF);
                   UnixError "addjob"], Exit 1)).
  { unfold eval. destruct argv as [|a0 rest]; [contradiction|].
    rewrite Hb.
    assert (E1 : (f <? 0) = false) by lia.
    assert (E2 : (f =? 0) = false) by lia.
    assert (E3 : (f <? 1) = false) by lia.
    rewrite E1, E2. unfold addjob. rewrite E3, H0. reflexivity. }
  split; [exact He|]. split.
  - unfold step. rewrite Hm, He. reflexivity.
  - intros e. reflexivity.
Qed.

Lemma launch_on_full_table_exits_witness :
  exists s out,
    run false shell0 busy_session = Some (s, out)
    /\ sh_mode s = Prompt
    /\ eval false (sh_jobs s) ["ls"] ("ls" ++ LF) 200 0
       = (sh_jobs s,
          [Print ("Tried to create too many jobs" ++ LF); UnixError "addjob"],
          Exit 1).
Proof.
  eexists; eexists. split; [vm_compute; reflexivity|].
  split; [reflexivity|].
  eapply (launch_on_full_table_exits false busy_session).
  - vm_compute; reflexivity.
  - reflexivity.
  - intros j Hin. simpl in Hin.
    repeat (destruct Hin as [<-|Hin]; [discriminate|]). destruct Hin.
  - reflexivity.
  - discriminate.
  - lia.
Defined.

(** * parseline *)

Lemma str_length_app (a b : string) :
  String.length (a ++ b) = (String.length a + String.length b)%nat.
Proof. induction a as [|x a IH]; simpl; [reflexivity | now rewrite IH]. Qed.

Lemma set_last_space_app (a b : string) :
  b <> EmptyString ->
  set_last_space (a ++ b) = (a ++ set_last_space b)%string.
Proof.
  intros Hb. induction a as [|x a IH]; [reflexivity|].
  simpl append. cbn [set_last_space]. rewrite IH.
  destruct (a ++ b)%string eqn:E; [|reflexivity].
  destruct a; simpl in E; [contradiction | discriminate].
Qed.

Lemma skip_blanks_spaces (n : nat) (s : string) :
  skip_blanks (spaces n ++ s) = skip_blanks s.
Proof. induction n as [|n IH]; simpl; [reflexivity | exact IH]. Qed.

Lemma parse_args_spaces (fuel n : nat) (s : string) :
  parse_args fuel (spaces n ++ s) = parse_args fuel s.
Proof.
  destruct fuel; [reflexivity|]. cbn [parse_args].
  now rewrite skip_blanks_spaces.
Qed.

Lemma split_at_found (c : ascii) (tok rest : string) :
  has_char c tok = false ->
  split_at c (tok ++ String c rest) = Some (tok, rest).
Proof.
  induction tok as [|x tok IH]; simpl; intros H.
  - now rewrite Ascii.eqb_refl.
  - apply orb_false_iff in H as [Hx Ht]. rewrite Hx, (IH Ht). reflexivity.
Qed.

Lemma split_at_missing (c : ascii) (s : string) :
  has_char c s = false -> split_at c s = None.
Proof.
  induction s as [|x s IH]; simpl; intros H; [reflexivity|].
  apply orb_false_iff in H as [Hx Hs]. now rewrite Hx, (IH Hs).
Qed.

Lemma split_at_shorter (c : ascii) (s tok rest : string) :
  split_at c s = Some (tok, rest) ->
  (String.length rest < String.length s)%nat.
Proof.
  revert tok; induction s as [|x s IH]; simpl; intros tok; [discriminate|].
  destruct (Ascii.eqb x c).
  - intros H; inversion H; subst. lia.
  - destruct (split_at c s) as [[t r]|]; [|discriminate].
    intros H; inversion H; subst. specialize (IH t eq_refl). lia.
Qed.

Lemma skip_blanks_shorter (s : string) :
  (String.length (skip_blanks s) <= String.length s)%nat.
Proof.
  induction s as [|x s IH]; simpl; [lia|].
  destruct (Ascii.eqb x " "%char); simpl; lia.
Qed.

(** The fuel [parseline] supplies is enough. *)
Lemma parse_args_fuel (fuel : nat) (buf : string) :
  (String.length buf < fuel)%nat -> parse_args fuel buf <> None.
Proof.
  revert buf; induction fuel as [|fuel IH]; intros buf H; [lia|].
  cbn [parse_args]. pose proof (skip_blanks_shorter buf) as Hs.
  destruct (skip_blanks buf) as [|c r] eqn:Eb; [simpl; discriminate|].
  assert (Hrest : forall tok rest,
            (String.length rest < S (String.length r))%nat ->
            match parse_args fuel rest with
            | Some args => Some (tok :: args)
            | None => None
            end <> None).
  { intros tok rest Hl. specialize (IH rest ltac:(simpl in Hs; lia)).
    destruct (parse_args fuel rest); [discriminate | contradiction]. }
  destruct (Ascii.eqb c "'"%char).
  - destruct (split_at "'"%char r) as [[tok rest]|] eqn:Es; [|discriminate].
    apply Hrest. apply split_at_shorter in Es. lia.
  - destruct (split_at " "%char (String c r)) as [[tok rest]|] eqn:Es;
      [|discriminate].
    apply Hrest. apply split_at_shorter in Es. simpl in Es. lia.
Qed.

Lemma parse_args_end (fuel : nat) (tail : string) :
  parse_args 1 tail = Some [] -> parse_args (S fuel) tail = Some [].
Proof.
  cbn [parse_args].
  destruct (match skip_blanks tail with
            | String c r =>
                if Ascii.eqb c "'"%char then split_at "'"%char r
                else split_at " "%char (skip_blanks tail)
            | EmptyString => split_at " "%char (skip_blanks tail)
            end) as [[tok rest]|]; [discriminate | reflexivity].
Qed.

Lemma skip_blanks_source (a : arg) (s : string) :
  arg_ok a -> skip_blanks (arg_source a ++ s) = (arg_source a ++ s)%string.
Proof.
  destruct a as [w|q]; simpl.
  - intros (Hsp & c & w' & -> & _). simpl in *.
    apply orb_false_iff in Hsp as [Hc _]. now rewrite Hc.
  - reflexivity.
Qed.

(** One round of the loop on an argument as typed. *)
Lemma parse_args_arg (fuel : nat) (a : arg) (s : string) :
  arg_ok a ->
  parse_args (S fuel) (arg_source a ++ String " "%char s) =
    match parse_args fuel s with
    | Some args => Some (arg_text a :: args)
    | None => None
    end.
Proof.
  intros Hok. cbn [parse_args]. rewrite (skip_blanks_source a _ Hok).
  destruct a as [w|q]; simpl in Hok.
  - destruct Hok as (Hsp & c & w' & -> & Hq). cbn [arg_source arg_text].
    simpl append. cbv iota. rewrite Hq.
    change (String c (w' ++ String " "%char s))
      with (String c w' ++ String " "%char s)%string.
    rewrite (split_at_found " "%char (String c w') s Hsp). reflexivity.
  - cbn [arg_source arg_text]. simpl append. cbv iota.
    rewrite Ascii.eqb_refl.
    rewrite append_assoc. simpl append.
    rewrite (split_at_found "'"%char q (String " "%char s) Hok).
    change (String " "%char s) with (spaces 1 ++ s)%string.
    now rewrite parse_args_spaces.
Qed.

Lemma parse_args_source (args : list (arg * nat)) (tail : string)
  (fuel : nat) :
  Forall (fun an => arg_ok (fst an)) args ->
  parse_args 1 tail = Some [] ->
  (List.length args < fuel)%nat ->
  parse_args fuel (source_line args ++ tail) = Some (texts args).
Proof.
  intros Hok Htail. revert fuel.
  induction args as [|[a n] rest IH]; intros fuel Hf.
  - destruct fuel; [simpl in Hf; lia|]. now apply parse_args_end.
  - destruct fuel as [|fuel]; [lia|]. inversion Hok; subst.
    cbn [source_line]. rewrite append_assoc. simpl append.
    rewrite parse_args_arg by assumption.
    rewrite append_assoc, parse_args_spaces.
    rewrite IH; [reflexivity | assumption | simpl in Hf; lia].
Qed.

Lemma source_line_length (args : list (arg * nat)) :
  (List.length args <= String.length (source_line args))%nat.
Proof.
  induction args as [|[a n] rest IH]; simpl; [lia|].
  rewrite str_length_app. simpl. rewrite str_length_app. lia.
Qed.

Lemma set_last_space_length (s : string) :
  String.length (set_last_space s) = String.length s.
Proof.
  induction s as [|x s IH]; [reflexivity|]. cbn [set_last_space].
  destruct s; [reflexivity|]. simpl in *. now rewrite IH.
Qed.

Lemma spaces_length (n : nat) : String.length (spaces n) = n.
Proof. induction n; simpl; congruence. Qed.

(** [parseline] on a line that, with its last character turned into a
    space, consists of leading spaces, arguments as typed and a tail in
    which no delimiter is found. *)
Lemma parseline_source (cmdline : string) (args : list (arg * nat))
  (n : nat) (tail : string) :
  Forall (fun an => arg_ok (fst an)) args ->
  parse_args 1 tail = Some [] ->
  set_last_space cmdline = (spaces n ++ source_line args ++ tail)%string ->
  (0 < String.length cmdline < MAXLINE)%nat ->
  (List.length args < Z.to_nat MAXARGS)%nat ->
  parseline cmdline = Some (texts args).
Proof.
  intros Hok Htail Hline Hlen Hargs. unfold parseline.
  assert (E0 : ((String.length cmdline =? 0)
                || (MAXLINE <=? String.length cmdline))%nat = false).
  { apply orb_false_iff. split; [apply Nat.eqb_neq; lia|].
    apply Nat.leb_gt. lia. }
  rewrite E0, Hline, parse_args_spaces.
  rewrite (parse_args_source args tail); [| assumption | assumption |].
  - unfold texts. rewrite length_map.
    apply Nat.ltb_lt in Hargs. now rewrite Hargs.
  - pose proof (source_line_length args) as Hs.
    pose proof (set_last_space_length cmdline) as Hl.
    rewrite Hline, !str_length_app in Hl. lia.
Qed.

(** X9: [parseline] gives back the arguments as typed: a line made of
    plain words and single-quoted texts, each followed by one or more
    spaces (the last one by the final character of the line, which is
    turned into a space), after any number of leading spaces, is split into
    exactly those words and texts, in order and without the quotes. *)
Theorem parseline_round_trip (args : list (arg * nat)) (n : nat)
  (body : string) (c : ascii) :
  Forall (fun an => arg_ok (fst an)) args ->
  (body ++ String " "%char EmptyString)%string
    = (spaces n ++ source_line args)%string ->
  (String.length body + 1 < MAXLINE)%nat ->
  (List.length args < Z.to_nat MAXARGS)%nat ->
  parseline (body ++ String c EmptyString) = Some (texts args).
Proof.
  intros Hok Hline Hlen Hargs.
  apply (parseline_source _ args n EmptyString); try assumption.
  - reflexivity.
  - rewrite set_last_space_app by discriminate. cbn [set_last_space].
    now rewrite Hline, append_nil_r.
  - rewrite str_length_app. simpl. lia.
Qed.

Lemma parseline_round_trip_witness :
  parseline ("  echo  'a b' it's" ++ LF) = Some ["echo"; "a b"; "it's"].
Proof.
  apply (parseline_round_trip
           [(Plain "echo", 1%nat); (Quoted "a b", O); (Plain "it's", O)]
           2 "  echo  'a b' it's" "010"%char).
  - repeat constructor; simpl; eauto.
  - reflexivity.
  - vm_compute. lia.
  - vm_compute. lia.
Defined.

(** X10: a quote that is never closed makes [parseline] drop the quoted
    text and everything after it without a message: the arguments are the
    ones typed before the quote. *)
Theorem parseline_unclosed_quote (args : list (arg * nat)) (n : nat)
  (q : string) (c : ascii) :
  Forall (fun an => arg_ok (fst an)) args ->
  has_char "'"%char q = false ->
  let cmdline :=
    (spaces n ++ source_line args
       ++ String "'"%char (q ++ String c EmptyString))%string in
  (String.length cmdline < MAXLINE)%nat ->
  (List.length args < Z.to_nat MAXARGS)%nat ->
  parseline cmdline = Some (texts args).
Proof.
  intros Hok Hq cmdline Hlen Hargs.
  apply (parseline_source cmdline args n
           (String "'"%char (q ++ String " "%char EmptyString)));
    try assumption.
  - cbn [parse_args skip_blanks]. simpl Ascii.eqb. cbv iota.
    rewrite split_at_missing; [reflexivity|].
    clear -Hq. induction q as [|x q IH]; simpl in *; [reflexivity|].
    apply orb_false_iff in Hq as [Hx Hq]. now rewrite Hx, (IH Hq).
  - unfold cmdline.
    rewrite set_last_space_app by (destruct (source_line args); discriminate).
    rewrite set_last_space_app by discriminate.
    change (String "'"%char (q ++ String c EmptyString))
      with (String "'"%char EmptyString ++ (q ++ String c EmptyString))%string.
    rewrite set_last_space_app by (destruct q; discriminate).
    rewrite set_last_space_app by discriminate. reflexivity.
  - split; [|exact Hlen]. unfold cmdline. rewrite !str_length_app. simpl. lia.
Qed.

Lemma parseline_unclosed_quote_witness :
  parseline ("echo 'never closed" ++ LF) = Some ["echo"].
Proof.
  apply (parseline_unclosed_quote [(Plain "echo", O)] 0 "never closed"
           "010"%char).
  - repeat constructor; simpl; eauto.
  - reflexivity.
  - vm_compute. lia.
  - vm_compute. lia.
Defined.

(** X11: a line that holds nothing but spaces before its final character
    yields no arguments, and [eval] then returns at once: no fork, no
    output, no change to the job table. *)
Theorem blank_line_does_nothing (verbose : bool) (jobs : jobs_t) (n : nat)
  (c : ascii) (fork_ret kill_ret : Z) :
  (n + 1 < MAXLINE)%nat ->
  parseline (spaces n ++ String c EmptyString) = Some []
  /\ eval_line verbose jobs (spaces n ++ String c EmptyString) fork_ret
       kill_ret = (jobs, [], Ret).
Proof.
  intros Hn.
  assert (Hp : parseline (spaces n ++ String c EmptyString) = Some []).
  { apply (parseline_source _ [] (S n) EmptyString).
    - constructor.
    - reflexivity.
    - rewrite set_last_space_app by discriminate. cbn [set_last_space].
      clear. induction n as [|n IH]; simpl in *; [reflexivity|].
      now rewrite IH.
    - rewrite str_length_app, spaces_length. simpl. lia.
    - vm_compute. lia. }
  split; [exact Hp|]. unfold eval_line. now rewrite Hp.
Qed.

Lemma blank_line_does_nothing_witness :
  (3 + 1 < MAXLINE)%nat
  /\ eval_line false bg_table ("   " ++ LF) 0 0 = (bg_table, [], Ret).
Proof.
  split; [vm_compute; lia|].
  apply (blank_line_does_nothing false bg_table 3 "010"%char 0 0).
  vm_compute. lia.
Defined.

(** * The child: pipelines and the program launch *)

Lemma rd_some_in_range (arr : list cell) (i : Z) (c : cell) :
  rd arr i = Some c -> 0 <= i < Z.of_nat (List.length arr).
Proof.
  unfold rd. destruct (i <? 0) eqn:E; [discriminate|]. intros H.
  assert (Hn : nth_error arr (Z.to_nat i) <> None) by congruence.
  apply nth_error_Some in Hn. lia.
Qed.

Lemma holds_argv_of (l : list string) : holds (argv_of l) l.
Proof.
  split; [intros k Hk; now apply rd_argv_of_token | apply rd_argv_of_null].
Qed.

Lemma exec_args_holds (argv : list cell) (l : list string) :
  holds argv l -> exec_args argv = Some l.
Proof.
  intros [Ht Hn]. apply exec_args_tokens.
  - intros k Hk. rewrite <- rd_nat. now apply Ht.
  - now rewrite <- rd_nat.
Qed.

Lemma plain_tokens_nth (ops l : list string) (k : nat) (op : string) :
  plain_tokens ops l -> (k < List.length l)%nat -> In op ops ->
  nth k l EmptyString <> op.
Proof. intros Hp Hk Hop. apply Hp; [now apply nth_In | exact Hop]. Qed.

Lemma plain_tokens_app_l (ops a b : list string) :
  plain_tokens ops (a ++ b) -> plain_tokens ops a.
Proof. intros H x Hx. apply H. apply in_or_app. now left. Qed.

Section LauncherProps.

Variable world : Type.
Variable sys_open : world -> string -> Z -> Z -> Z * world.
Variable sys_dup2 : world -> Z -> Z -> Z * world.
Variable sys_pipe : world -> Z * Z * Z * world.
Variable sys_fork : world -> Z * world.
Variable sys_close : world -> Z -> world.
Variable sys_wait : world -> world.
Variable sys_setpgid : world -> world.
Variable sys_execve : world -> string -> list string -> bool.

Lemma pipeline_loop_pass (fuel : nat) (w : world) (argv : list cell)
  (argc i : Z) (a : string) :
  i < argc -> rd argv i = Some (Tok a) -> a <> "|" ->
  pipeline_loop world sys_dup2 sys_pipe sys_fork sys_close sys_wait
    (S fuel) w argv argc i
  = pipeline_loop world sys_dup2 sys_pipe sys_fork sys_close sys_wait
      fuel w argv argc (i + 1).
Proof.
  intros Hi Hrd Ha. cbn [pipeline_loop].
  assert (E : (i <? argc) = true) by (bools; lia). rewrite E, Hrd.
  apply String.eqb_neq in Ha. now rewrite Ha.
Qed.

Lemma pipeline_loop_passes (n fuel : nat) (w : world) (argv : list cell)
  (argc : Z) (i : nat) :
  Z.of_nat (i + n) <= argc ->
  (forall k, (i <= k < i + n)%nat ->
     exists a, rd argv (Z.of_nat k) = Some (Tok a) /\ a <> "|") ->
  pipeline_loop world sys_dup2 sys_pipe sys_fork sys_close sys_wait
    (n + fuel) w argv argc (Z.of_nat i)
  = pipeline_loop world sys_dup2 sys_pipe sys_fork sys_close sys_wait
      fuel w argv argc (Z.of_nat (i + n)).
Proof.
  revert i; induction n as [|n IH]; intros i Hle Hall.
  - now rewrite Nat.add_0_r.
  - destruct (Hall i ltac:(lia)) as (a & Hrd & Ha).
    change (S n + fuel)%nat with (S (n + fuel)).
    rewrite (pipeline_loop_pass _ _ _ _ _ a) by (auto; lia).
    replace (Z.of_nat i + 1) with (Z.of_nat (S i)) by lia.
    rewrite IH; [f_equal; lia | lia |].
    intros k Hk. apply Hall. lia.
Qed.

Lemma pipeline_loop_done (fuel : nat) (w : world) (argv : list cell)
  (argc i : Z) :
  argc <= i ->
  pipeline_loop world sys_dup2 sys_pipe sys_fork sys_close sys_wait
    fuel w argv argc i = (Ok (w, argv, argc), []).
Proof.
  intros H. assert (E : (i <? argc) = false) by (bools; lia).
  destruct fuel; cbn [pipeline_loop]; now rewrite E.
Qed.

Lemma redirect_loop_pass (fuel : nat) (w : world) (argv : list cell)
  (argc i : Z) (a : string) :
  i < argc - 1 -> rd argv i = Some (Tok a) -> a <> "<" -> a <> ">" ->
  redirect_loop world sys_open sys_dup2 (S fuel) w argv argc i
  = redirect_loop world sys_open sys_dup2 fuel w argv argc (i + 1).
Proof.
  intros Hi Hrd H1 H2. cbn [redirect_loop].
  assert (E : (i <? argc - 1) = true) by (bools; lia). rewrite E.
  unfold redirect_at. rewrite Hrd.
  apply String.eqb_neq in H1, H2. rewrite H1, H2.
  destruct (redirect_loop world sys_open sys_dup2 fuel w argv argc (i + 1)).
  reflexivity.
Qed.

Lemma redirect_loop_passes (n fuel : nat) (w : world) (argv : list cell)
  (argc : Z) (i : nat) :
  Z.of_nat (i + n) <= argc - 1 ->
  (forall k, (i <= k < i + n)%nat ->
     exists a, rd argv (Z.of_nat k) = Some (Tok a) /\ a <> "<" /\ a <> ">") ->
  redirect_loop world sys_open sys_dup2 (n + fuel) w argv argc (Z.of_nat i)
  = redirect_loop world sys_open sys_dup2 fuel w argv argc (Z.of_nat (i + n)).
Proof.
  revert i; induction n as [|n IH]; intros i Hle Hall.
  - now rewrite Nat.add_0_r.
  - destruct (Hall i ltac:(lia)) as (a & Hrd & H1 & H2).
    change (S n + fuel)%nat with (S (n + fuel)).
    rewrite (redirect_loop_pass _ _ _ _ _ a) by (auto; lia).
    replace (Z.of_nat i + 1) with (Z.of_nat (S i)) by lia.
    rewrite IH; [f_equal; lia | lia |].
    intros k Hk. apply Hall. lia.
Qed.

Lemma redirect_loop_done (fuel : nat) (w : world) (argv : list cell)
  (argc i : Z) :
  argc - 1 <= i ->
  redirect_loop world sys_open sys_dup2 fuel w argv argc i
  = (Ok (w, argv, argc), []).
Proof.
  intros H. assert (E : (i <? argc - 1) = false) by (bools; lia).
  destruct fuel; cbn [redirect_loop]; now rewrite E.
Qed.

(** A command without a pipe separator leaves [check_pipeline] as it
    entered it. *)
Lemma check_pipeline_plain (w : world) (argv : list cell) (l : list string) :
  holds argv l -> plain_tokens ["|"] l ->
  check_pipeline world sys_dup2 sys_pipe sys_fork sys_close sys_wait
    w argv (Z.of_nat (List.length l))
  = (Ok (w, argv, Z.of_nat (List.length l)), []).
Proof.
  intros [Ht _] Hp. unfold check_pipeline. rewrite Nat2Z.id.
  replace (List.length l) with (List.length l + 0)%nat at 1 by lia.
  change 0 with (Z.of_nat 0).
  rewrite pipeline_loop_passes; [|simpl; lia|].
  - apply pipeline_loop_done. simpl. lia.
  - intros k Hk. exists (nth k l EmptyString). split; [apply Ht; lia|].
    apply (plain_tokens_nth ["|"]); [exact Hp | lia | now left].
Qed.

(** A command without a redirection operator leaves the scan as it entered
    it. *)
Lemma redirect_plain (w : world) (argv : list cell) (l : list string) :
  holds argv l -> plain_tokens ["<"; ">"] l ->
  redirect world sys_open sys_dup2 w argv (Z.of_nat (List.length l))
  = (Ok (w, argv, Z.of_nat (List.length l)), []).
Proof.
  intros [Ht _] Hp. unfold redirect. rewrite Nat2Z.id.
  destruct l as [|x l]; [reflexivity|].
  replace (List.length (x :: l)) with (List.length l + 1)%nat at 1
    by (simpl; lia).
  change 0 with (Z.of_nat 0).
  rewrite redirect_loop_passes; [|simpl List.length; lia|].
  - apply redirect_loop_done. simpl List.length. lia.
  - intros k Hk. exists (nth k (x :: l) EmptyString).
    split; [apply Ht; simpl List.length; lia|].
    split; apply (plain_tokens_nth ["<"; ">"]); try exact Hp;
      try (simpl List.length; lia); simpl; auto.
Qed.

(** X12: a command line without the tokens [|], [<] and [>] passes
    [check_pipeline] and the redirection scan without a single system
    call: no pipe, fork, open or dup2, the argument array and the count
    stay as [parseline] left them. *)
Theorem plain_command_untouched (w : world) (l : list string) :
  plain_tokens ["|"; "<"; ">"] l ->
  check_pipeline world sys_dup2 sys_pipe sys_fork sys_close sys_wait
    w (argv_of l) (Z.of_nat (List.length l))
  = (Ok (w, argv_of l, Z.of_nat (List.length l)), [])
  /\ redirect world sys_open sys_dup2 w (argv_of l)
       (Z.of_nat (List.length l))
     = (Ok (w, argv_of l, Z.of_nat (List.length l)), []).
Proof.
  intros Hp. split.
  - apply check_pipeline_plain; [apply holds_argv_of|].
    intros a Ha op [<-|[]]. apply (Hp a Ha). simpl; auto.
  - apply redirect_plain; [apply holds_argv_of|].
    intros a Ha op [<-|[<-|[]]]; apply (Hp a Ha); simpl; auto.
Qed.

End LauncherProps.

Lemma plain_command_untouched_witness :
  plain_tokens ["|"; "<"; ">"] ["ls"; "-l"]
  /\ redirect unit open3 dup2_ok tt (argv_of ["ls"; "-l"]) 2
     = (Ok (tt, argv_of ["ls"; "-l"], 2), []).
Proof.
  assert (Hp : plain_tokens ["|"; "<"; ">"] ["ls"; "-l"]).
  { intros a [<-|[<-|[]]] op [<-|[<-|[<-|[]]]]; discriminate. }
  split; [exact Hp|].
  apply (proj2 (plain_command_untouched unit open3 dup2_ok
                  (fun w => (0, 3, 4, w)) (fun w => (1, w)) (fun w _ => w)
                  (fun w => w) tt ["ls"; "-l"] Hp)).
Defined.

Lemma removelast_length {A : Type} (l : list A) :
  l <> [] -> List.length (removelast l) = (List.length l - 1)%nat.
Proof.
  intros H. destruct (exists_last H) as (l' & a & ->).
  rewrite removelast_last, length_app. simpl. lia.
Qed.

Lemma removelast_nth {A : Type} (l : list A) (k : nat) (d : A) :
  (k < List.length l - 1)%nat -> nth k (removelast l) d = nth k l d.
Proof.
  intros H. destruct l as [|x l]; [simpl in H; lia|].
  destruct (@exists_last A (x :: l) ltac:(discriminate)) as (l' & a & E).
  rewrite E in *. rewrite removelast_last. rewrite length_app in H.
  simpl in H. now rewrite app_nth1 by lia.
Qed.

(** [argv[argc - 1] = 0] takes the last token off. *)
Lemma holds_strip (argv : list cell) (l : list string) :
  holds argv l -> l <> [] ->
  exists argv3,
    wr argv (Z.of_nat (List.length l) - 1) Null = Some argv3
    /\ holds argv3 (removelast l).
Proof.
  intros [Ht Hn] Hne.
  assert (Hlen : (0 < List.length l)%nat)
    by (destruct l; [contradiction | simpl; lia]).
  pose proof (Ht (List.length l - 1)%nat ltac:(lia)) as Hlast.
  apply rd_some_in_range in Hlast.
  destruct (wr_in_range argv (Z.of_nat (List.length l) - 1) Null ltac:(lia))
    as (argv3 & Hw).
  exists argv3. split; [exact Hw|].
  destruct (wr_spec _ _ _ _ Hw) as (_ & Hr).
  unfold holds. rewrite removelast_length by assumption. split.
  - intros k Hk. rewrite Hr.
    assert (E : (Z.of_nat k =? Z.of_nat (List.length l) - 1) = false)
      by (bools; lia).
    rewrite E, Ht by lia. now rewrite removelast_nth.
  - rewrite Hr.
    assert (E : (Z.of_nat (List.length l - 1)
                 =? Z.of_nat (List.length l) - 1) = true) by (bools; lia).
    now rewrite E.
Qed.

Section LaunchProps.

Variable world : Type.
Variable sys_open : world -> string -> Z -> Z -> Z * world.
Variable sys_dup2 : world -> Z -> Z -> Z * world.
Variable sys_pipe : world -> Z * Z * Z * world.
Variable sys_fork : world -> Z * world.
Variable sys_close : world -> Z -> world.
Variable sys_wait : world -> world.
Variable sys_setpgid : world -> world.
Variable sys_execve : world -> string -> list string -> bool.

Lemma child_finish (w w1 w2 : world) (argv argv1 argv2 : list cell)
  (argc argc1 state : Z) (out1 : list call) (out2 : list effect)
  (l : list string) :
  check_pipeline world sys_dup2 sys_pipe sys_fork sys_close sys_wait
    w argv argc = (Ok (w1, argv1, argc1), out1) ->
  redirect world sys_open sys_dup2 w1 argv1 argc1
    = (Ok (w2, argv2, Z.of_nat (List.length l)), out2) ->
  holds argv2 l -> l <> [] ->
  child world sys_open sys_dup2 sys_pipe sys_fork sys_close sys_wait
    sys_setpgid sys_execve w argv argc state
  = launched world sys_setpgid sys_execve w2 (out1 ++ map Sys out2) l state.
Proof.
  intros H1 H2 Hh Hne. unfold child, launched. rewrite H1, H2.
  assert (H0 : rd argv2 0 = Some (Tok (hd EmptyString l))).
  { destruct l as [|x l]; [contradiction|].
    apply (proj1 Hh O). simpl; lia. }
  rewrite H0. cbv zeta.
  destruct (state =? BG).
  - destruct (holds_strip argv2 l Hh Hne) as (argv3 & Hw & Hh3).
    rewrite Hw, (exec_args_holds _ _ Hh3). rewrite <- !app_assoc.
    reflexivity.
  - rewrite (exec_args_holds _ _ Hh). rewrite <- !app_assoc. reflexivity.
Qed.

(** X13: a command without [|], [<] and [>] is executed as typed: the
    child makes itself the leader of a new process group and calls
    [execve] on the first token with all the tokens, or, for a background
    command, with all of them but the trailing [&]; when [execve] fails it
    writes [tsh: <path>] and exits with status 1. *)
Theorem plain_command_launch (w : world) (l : list string) :
  l <> [] -> plain_tokens ["|"; "<"; ">"] l ->
  child world sys_open sys_dup2 sys_pipe sys_fork sys_close sys_wait
    sys_setpgid sys_execve w (argv_of l) (Z.of_nat (List.length l))
    (launch_state l)
  = let path := hd EmptyString l in
    let args := if String.eqb (last l EmptyString) "&" then removelast l
                else l in
    if sys_execve (sys_setpgid w) path args then
      (Ok (path, args), [SetpgidCall; ExecveCall path args])
    else
      (Exits 1,
       [SetpgidCall; ExecveCall path args; Stderr ("tsh: " ++ path);
        Sys (UnixError EmptyString)]).
Proof.
  intros Hne Hp.
  rewrite (child_finish w w w (argv_of l) (argv_of l) (argv_of l)
             (Z.of_nat (List.length l)) (Z.of_nat (List.length l))
             (launch_state l) [] [] l); try assumption.
  - unfold launched, launch_state.
    destruct (String.eqb (last l EmptyString) "&"); reflexivity.
  - apply check_pipeline_plain; [apply holds_argv_of|].
    intros a Ha op [<-|[]]. apply (Hp a Ha). simpl; auto.
  - apply redirect_plain; [apply holds_argv_of|].
    intros a Ha op [<-|[<-|[]]]; apply (Hp a Ha); simpl; auto.
  - apply holds_argv_of.
Qed.

Lemma redirect_each_fails (w : world) (t : Z) (ts : list Z) :
  redirect_each world sys_dup2 w (-1) (t :: ts)
  = (Exits 1, [UnixError "open"]).
Proof. reflexivity. Qed.

Lemma redirect_at_open_fails (w : world) (argv : list cell) (argc i : Z)
  (op file : string) :
  op = "<" \/ op = ">" ->
  rd argv i = Some (Tok op) -> rd argv (i + 1) = Some (Tok file) ->
  fst (sys_open w file (open_flags op) (open_mode op)) = -1 ->
  redirect_at world sys_open sys_dup2 w argv argc i
  = (Exits 1,
     [Open file (open_flags op) (open_mode op) (-1); UnixError "open"]).
Proof.
  intros Hop Hrd Hfile Hfd. unfold redirect_at. rewrite Hrd.
  destruct Hop as [-> | ->]; unfold open_flags, open_mode in *;
    simpl String.eqb in *; cbv iota in *;
    unfold redirect_one; rewrite Hfile;
    match goal with
    | |- context [sys_open w file ?f ?m] =>
        destruct (sys_open w file f m) as [fd w1]
    end; simpl fst in Hfd; subst fd; rewrite redirect_each_fails;
    reflexivity.
Qed.

(** X14: when the [open] of a redirection fails, the child reports [open]
    and exits with status 1 at once: nothing is duplicated and no program
    is started. *)
Theorem open_failure_stops_launch (w : world) (pre post : list string)
  (op file : string) (state : Z) :
  let l := pre ++ op :: file :: post in
  op = "<" \/ op = ">" ->
  plain_tokens ["|"] l -> plain_tokens ["<"; ">"] pre ->
  fst (sys_open w file (open_flags op) (open_mode op)) = -1 ->
  child world sys_open sys_dup2 sys_pipe sys_fork sys_close sys_wait
    sys_setpgid sys_execve w (argv_of l) (Z.of_nat (List.length l)) state
  = (Exits 1,
     [Sys (Open file (open_flags op) (open_mode op) (-1));
      Sys (UnixError "open")]).
Proof.
  intros l Hop Hpipe Hpre Hfd.
  assert (Hh : holds (argv_of l) l) by apply holds_argv_of.
  assert (Hn : List.length l = (List.length pre + (2 + List.length post))%nat).
  { unfold l. rewrite length_app. simpl. lia. }
  assert (Hk : forall k, (k < List.length pre)%nat ->
            nth k l EmptyString = nth k pre EmptyString).
  { intros k Hlt. unfold l. now rewrite app_nth1. }
  assert (Hopn : nth (List.length pre) l EmptyString = op).
  { unfold l. rewrite app_nth2 by lia. now rewrite Nat.sub_diag. }
  assert (Hfile : nth (S (List.length pre)) l EmptyString = file).
  { unfold l. rewrite app_nth2 by lia.
    replace (S (List.length pre) - List.length pre)%nat with 1%nat by lia.
    reflexivity. }
  unfold child.
  rewrite (check_pipeline_plain _ _ _ _ _ _ w (argv_of l) l Hh Hpipe).
  unfold redirect. rewrite Nat2Z.id.
  replace (List.length l) with (List.length pre + (2 + List.length post))%nat
    at 1 by lia.
  change 0 with (Z.of_nat 0).
  rewrite redirect_loop_passes; [|lia|].
  2:{ intros k Hlt. exists (nth k l EmptyString).
      split; [apply (proj1 Hh); lia|]. rewrite Hk by lia.
      split; apply (plain_tokens_nth ["<"; ">"]); try exact Hpre; try lia;
        simpl; auto. }
  simpl Nat.add. change (2 + List.length post)%nat
    with (S (S (List.length post))).
  cbn [redirect_loop].
  assert (E : (Z.of_nat (List.length pre) <? Z.of_nat (List.length l) - 1)
              = true) by (bools; lia).
  rewrite E.
  rewrite (redirect_at_open_fails w (argv_of l) _ _ op file Hop); auto.
  - rewrite (proj1 Hh) by lia. now rewrite Hopn.
  - replace (Z.of_nat (List.length pre) + 1)
      with (Z.of_nat (S (List.length pre))) by lia.
    rewrite (proj1 Hh) by lia. now rewrite Hfile.
Qed.

End LaunchProps.

Lemma plain_command_launch_witness :
  ["sleep"; "5"; "&"] <> []
  /\ run_child 1 ["sleep"; "5"; "&"]
     = (Ok ("sleep", ["sleep"; "5"]),
        [SetpgidCall; ExecveCall "sleep" ["sleep"; "5"]]).
Proof.
  split; [discriminate|].
  apply (plain_command_launch unit open3 dup2_ok pipe34 (fork_as 1) close_ok
           same_world same_world execve_ok tt ["sleep"; "5"; "&"]).
  - discriminate.
  - intros a [<-|[<-|[<-|[]]]] op [<-|[<-|[<-|[]]]]; discriminate.
Defined.

Lemma open_failure_stops_launch_witness :
  fst (open_denied tt "in.txt" (open_flags "<") (open_mode "<")) = -1
  /\ child unit open_denied dup2_ok pipe34 (fork_as 1) close_ok same_world
       same_world execve_ok tt (argv_of ["cat"; "<"; "in.txt"]) 3 FG
     = (Exits 1, [Sys (Open "in.txt" 0 0 (-1)); Sys (UnixError "open")]).
Proof.
  split; [reflexivity|].
  apply (open_failure_stops_launch unit open_denied dup2_ok pipe34
           (fork_as 1) close_ok same_world same_world execve_ok tt
           ["cat"] [] "<" "in.txt" FG).
  - now left.
  - intros a [<-|[<-|[<-|[]]]] op [<-|[]]; discriminate.
  - intros a [<-|[]] op [<-|[<-|[]]]; discriminate.
  - reflexivity.
Defined.

(** ** Copying cells *)

Lemma argv_of_longer (l : list string) :
  (List.length l < List.length (argv_of l))%nat.
Proof.
  unfold argv_of. rewrite length_app, length_map. cbn [List.length]. lia.
Qed.

Lemma read_run_spec (n : nat) (arr : list cell) (src : Z) :
  0 <= src -> src + Z.of_nat n <= Z.of_nat (List.length arr) ->
  exists cs,
    read_run arr src n = Some cs /\ List.length cs = n
    /\ forall k, (k < n)%nat -> nth_error cs k = rd arr (src + Z.of_nat k).
Proof.
  revert src; induction n as [|n IH]; intros src H0 Hlen.
  - exists []. repeat split. intros k Hk; lia.
  - cbn [read_run].
    destruct (rd_in_range arr src ltac:(lia)) as (c & Hc).
    destruct (IH (src + 1) ltac:(lia) ltac:(lia)) as (cs & Hr & Hl & Hk).
    rewrite Hc, Hr. exists (c :: cs). split; [reflexivity|].
    split; [simpl; lia|]. intros [|k] Hlt.
    + change (Z.of_nat 0) with 0. rewrite Z.add_0_r. now rewrite Hc.
    + cbn [nth_error]. rewrite Hk by lia. f_equal. lia.
Qed.

Lemma write_run_spec (cs arr : list cell) (dst : Z) :
  0 <= dst -> dst + Z.of_nat (List.length cs) <= Z.of_nat (List.length arr) ->
  exists arr',
    write_run arr dst cs = Some arr'
    /\ List.length arr' = List.length arr
    /\ forall k, rd arr' k =
         if (dst <=? k) && (k <? dst + Z.of_nat (List.length cs))
         then nth_error cs (Z.to_nat (k - dst)) else rd arr k.
Proof.
  revert arr dst; induction cs as [|c cs IH]; intros arr dst H0 Hlen.
  - exists arr. split; [reflexivity|]. split; [reflexivity|]. intros k.
    cbn [List.length]. change (Z.of_nat 0) with 0.
    assert (E : (dst <=? k) && (k <? dst + 0) = false) by (bools; lia).
    now rewrite E.
  - cbn [write_run]. cbn [List.length] in Hlen.
    destruct (wr_in_range arr dst c ltac:(lia)) as (arr1 & Hw).
    rewrite Hw. destruct (wr_spec _ _ _ _ Hw) as (Hl1 & Hr1).
    destruct (IH arr1 (dst + 1) ltac:(lia) ltac:(lia))
      as (arr' & Hwr & Hl & Hr).
    exists arr'. split; [exact Hwr|]. split; [congruence|]. intros k.
    rewrite Hr, Hr1. cbn [List.length].
    destruct (Z.eq_dec k dst) as [->|Hne].
    + assert (E1 : (dst + 1 <=? dst)
                   && (dst <? dst + 1 + Z.of_nat (List.length cs)) = false)
        by (bools; lia).
      assert (E2 : (dst <=? dst)
                   && (dst <? dst + Z.of_nat (S (List.length cs))) = true)
        by (bools; lia).
      rewrite E1, E2, Z.eqb_refl, Z.sub_diag. reflexivity.
    + assert (E0 : (k =? dst) = false) by (bools; lia). rewrite E0.
      destruct ((dst + 1 <=? k)
                && (k <? dst + 1 + Z.of_nat (List.length cs))) eqn:E1.
      * revert E1; bools; intros E1.
        assert (E2 : (dst <=? k)
                     && (k <? dst + Z.of_nat (S (List.length cs))) = true)
          by (bools; lia).
        rewrite E2.
        replace (Z.to_nat (k - dst)) with (S (Z.to_nat (k - (dst + 1))))
          by lia.
        reflexivity.
      * revert E1; bools; intros E1.
        assert (E2 : (dst <=? k)
                     && (k <? dst + Z.of_nat (S (List.length cs))) = false)
          by (bools; lia).
        now rewrite E2.
Qed.

(** [memmove] copies [n] cells from [src] on to [dst] on, as if through a
    buffer. *)
Lemma memmove_spec (arr : list cell) (dst src n : Z) :
  0 <= dst -> 0 <= src -> 0 <= n ->
  src + n <= Z.of_nat (List.length arr) ->
  dst + n <= Z.of_nat (List.length arr) ->
  exists arr',
    memmove arr dst src n = Some arr'
    /\ List.length arr' = List.length arr
    /\ forall k, rd arr' k =
         if (dst <=? k) && (k <? dst + n) then rd arr (src + (k - dst))
         else rd arr k.
Proof.
  intros Hd Hs Hn Hsl Hdl. unfold memmove.
  destruct (read_run_spec (Z.to_nat n) arr src) as (cs & Hr & Hl & Hk);
    [lia | lia |].
  rewrite Hr.
  destruct (write_run_spec cs arr dst) as (arr' & Hw & Hl' & Hk');
    [lia | lia |].
  exists arr'. split; [exact Hw|]. split; [exact Hl'|]. intros k.
  rewrite Hk', Hl, Z2Nat.id by lia.
  destruct ((dst <=? k) && (k <? dst + n)) eqn:E; [|reflexivity].
  revert E; bools; intros E. rewrite Hk by lia. f_equal. lia.
Qed.

(** ** Pipelines *)

Section PipelineProps.

Variable world : Type.
Variable sys_open : world -> string -> Z -> Z -> Z * world.
Variable sys_dup2 : world -> Z -> Z -> Z * world.
Variable sys_pipe : world -> Z * Z * Z * world.
Variable sys_fork : world -> Z * world.
Variable sys_close : world -> Z -> world.
Variable sys_wait : world -> world.
Variable sys_setpgid : world -> world.
Variable sys_execve : world -> string -> list string -> bool.

(** The counter of [check_pipeline] is set back after a fork, but only
    together with a shorter [argc]: [argc - i] bounds the iterations. *)
Lemma pipeline_loop_fuel (fuel : nat) (w : world) (argv : list cell)
  (argc i : Z) :
  argc - i <= Z.of_nat fuel ->
  fst (pipeline_loop world sys_dup2 sys_pipe sys_fork sys_close sys_wait
         fuel w argv argc i) <> NoFuel.
Proof.
  revert w argv argc i; induction fuel as [|fuel IH]; intros w argv argc i H;
    cbn [pipeline_loop]; destruct (i <? argc) eqn:E;
    try (cbn [fst]; discriminate).
  - revert E; bools; lia.
  - destruct (rd argv i) as [[a| |]|]; try (cbn [fst]; discriminate).
    destruct (String.eqb a "|"); [|apply IH; lia].
    destruct (sys_pipe w) as [[[ret fd0] fd1] w1].
    destruct (ret <? 0); [cbn [fst]; discriminate|].
    destruct (sys_fork w1) as [pid w2].
    destruct (pid <? 0); [cbn [fst]; discriminate|].
    destruct (pid =? 0).
    + destruct (redirect_stream world sys_dup2 (sys_close w2 fd0) fd1 1)
        as [[w4| | |] out]; try (cbn [fst]; discriminate).
      destruct (memmove argv 0 (i + 1) (argc - (i + 1))) as [argv1|];
        [|cbn [fst]; discriminate].
      destruct (wr argv1 (argc - (i + 1)) Null) as [argv2|];
        [|cbn [fst]; discriminate].
      specialize (IH w4 argv2 (argc - (i + 1)) 1 ltac:(lia)).
      destruct (pipeline_loop world sys_dup2 sys_pipe sys_fork sys_close
                  sys_wait fuel w4 argv2 (argc - (i + 1)) 1).
      exact IH.
    + destruct (redirect_stream world sys_dup2 (sys_close w2 fd1) fd0 0)
        as [[w4| | |] out]; try (cbn [fst]; discriminate).
      destruct (wr argv i Null); cbn [fst]; discriminate.
Qed.

(** X15: the child branch of [eval] always comes to an end, whatever the
    arguments and whatever the operating system answers: the loop of
    [check_pipeline] and the redirection scan both terminate. *)
Theorem launch_terminates (w : world) (argv : list cell) (argc state : Z) :
  fst (child world sys_open sys_dup2 sys_pipe sys_fork sys_close sys_wait
         sys_setpgid sys_execve w argv argc state) <> NoFuel.
Proof.
  unfold child.
  pose proof (pipeline_loop_fuel (Z.to_nat argc) w argv argc 0 ltac:(lia))
    as H1.
  fold (check_pipeline world sys_dup2 sys_pipe sys_fork sys_close sys_wait
          w argv argc) in H1.
  destruct (check_pipeline world sys_dup2 sys_pipe sys_fork sys_close
              sys_wait w argv argc) as [[[[w1 argv1] argc1]| | |] out1];
    cbn [fst] in *; try discriminate;
    try (exfalso; apply H1; reflexivity).
  pose proof (redirect_terminates world sys_open sys_dup2 w1 argv1 argc1)
    as H2.
  destruct (redirect world sys_open sys_dup2 w1 argv1 argc1)
    as [[[[w2 argv2] argc2]| | |] out2]; cbn [fst] in *; try discriminate;
    try (exfalso; apply H2; reflexivity).
  destruct (rd argv2 0) as [[p| |]|]; cbn [fst]; try discriminate.
  destruct (if state =? BG then wr argv2 (argc2 - 1) Null else Some argv2);
    cbn [fst]; [|discriminate].
  destruct (exec_args l); cbn [fst]; [|discriminate].
  destruct (sys_execve (sys_setpgid w2) p l0); cbn [fst]; discriminate.
Qed.

Lemma pipeline_loop_fork_child (fuel : nat) (w w1 w2 w4 : world)
  (argv argv1 argv2 : list cell) (argc argc1 i ret fd0 fd1 r : Z) :
  i < argc -> rd argv i = Some (Tok "|") ->
  sys_pipe w = (ret, fd0, fd1, w1) -> 0 <= ret ->
  sys_fork w1 = (0, w2) ->
  fd1 <> -1 -> sys_dup2 (sys_close w2 fd0) fd1 1 = (r, w4) -> r <> -1 ->
  argc1 = argc - (i + 1) ->
  memmove argv 0 (i + 1) argc1 = Some argv1 ->
  wr argv1 argc1 Null = Some argv2 ->
  pipeline_loop world sys_dup2 sys_pipe sys_fork sys_close sys_wait
    (S fuel) w argv argc i
  = (fst (pipeline_loop world sys_dup2 sys_pipe sys_fork sys_close sys_wait
            fuel w4 argv2 argc1 1),
     [PipeCall ret fd0 fd1; ForkCall 0; CloseCall fd0; Sys (Dup2 fd1 1 r)]
       ++ snd (pipeline_loop world sys_dup2 sys_pipe sys_fork sys_close
                 sys_wait fuel w4 argv2 argc1 1)).
Proof.
  intros Hi Hrd Hp Hret Hf Hfd Hd Hr -> Hm Hw. cbn [pipeline_loop].
  assert (E : (i <? argc) = true) by (bools; lia). rewrite E, Hrd.
  change (String.eqb "|" "|") with true. cbv iota. rewrite Hp.
  assert (E1 : (ret <? 0) = false) by (bools; lia). rewrite E1, Hf.
  change (0 <? 0) with false. change (0 =? 0) with true. cbv iota.
  unfold redirect_stream.
  assert (E2 : (fd1 =? -1) = false) by (bools; lia). rewrite E2, Hd.
  assert (E3 : (r =? -1) = false) by (bools; lia). rewrite E3.
  cbv zeta. rewrite Hm, Hw.
  destruct (pipeline_loop world sys_dup2 sys_pipe sys_fork sys_close
              sys_wait fuel w4 argv2 (argc - (i + 1)) 1) as [res out2].
  reflexivity.
Qed.

Lemma pipeline_loop_fork_parent (fuel : nat) (w w1 w2 w4 : world)
  (argv argv1 : list cell) (argc i ret fd0 fd1 pid r : Z) :
  i < argc -> rd argv i = Some (Tok "|") ->
  sys_pipe w = (ret, fd0, fd1, w1) -> 0 <= ret ->
  sys_fork w1 = (pid, w2) -> 0 < pid ->
  fd0 <> -1 -> sys_dup2 (sys_close w2 fd1) fd0 0 = (r, w4) -> r <> -1 ->
  wr argv i Null = Some argv1 ->
  pipeline_loop world sys_dup2 sys_pipe sys_fork sys_close sys_wait
    (S fuel) w argv argc i
  = (Ok (sys_wait w4, argv1, argc),
     [PipeCall ret fd0 fd1; ForkCall pid; CloseCall fd1;
      Sys (Dup2 fd0 0 r); WaitCall]).
Proof.
  intros Hi Hrd Hp Hret Hf Hpid Hfd Hd Hr Hw. cbn [pipeline_loop].
  assert (E : (i <? argc) = true) by (bools; lia). rewrite E, Hrd.
  change (String.eqb "|" "|") with true. cbv iota. rewrite Hp.
  assert (E1 : (ret <? 0) = false) by (bools; lia). rewrite E1, Hf.
  assert (E4 : (pid <? 0) = false) by (bools; lia).
  assert (E5 : (pid =? 0) = false) by (bools; lia). rewrite E4, E5.
  unfold redirect_stream.
  assert (E2 : (fd0 =? -1) = false) by (bools; lia). rewrite E2, Hd.
  assert (E3 : (r =? -1) = false) by (bools; lia). rewrite E3.
  cbv zeta. rewrite Hw. reflexivity.
Qed.

End PipelineProps.

(** ** The two sides of a pipeline *)

Lemma nth_app_left (a b : list string) (k : nat) :
  (k < List.length a)%nat ->
  nth k (a ++ b) EmptyString = nth k a EmptyString.
Proof. intros H. now rewrite app_nth1. Qed.

Lemma nth_app_right (a b : list string) (k : nat) :
  nth (List.length a + k) (a ++ b) EmptyString = nth k b EmptyString.
Proof.
  rewrite app_nth2 by lia.
  now replace (List.length a + k - List.length a)%nat with k by lia.
Qed.

Section PipelineSides.

Variable world : Type.
Variable sys_open : world -> string -> Z -> Z -> Z * world.
Variable sys_dup2 : world -> Z -> Z -> Z * world.
Variable sys_pipe : world -> Z * Z * Z * world.
Variable sys_fork : world -> Z * world.
Variable sys_close : world -> Z -> world.
Variable sys_wait : world -> world.
Variable sys_setpgid : world -> world.
Variable sys_execve : world -> string -> list string -> bool.

Lemma pipeline_loop_prefix (n fuel : nat) (w : world) (argv : list cell)
  (argc : Z) :
  Z.of_nat n <= argc ->
  (forall k, (k < n)%nat ->
     exists a, rd argv (Z.of_nat k) = Some (Tok a) /\ a <> "|") ->
  pipeline_loop world sys_dup2 sys_pipe sys_fork sys_close sys_wait
    (n + fuel) w argv argc 0
  = pipeline_loop world sys_dup2 sys_pipe sys_fork sys_close sys_wait
      fuel w argv argc (Z.of_nat n).
Proof.
  intros Hle Hall. change 0 with (Z.of_nat 0).
  rewrite pipeline_loop_passes; [reflexivity | simpl; lia |].
  intros k Hk. apply Hall. lia.
Qed.

Lemma redirect_loop_prefix (n fuel : nat) (w : world) (argv : list cell)
  (argc : Z) :
  Z.of_nat n <= argc - 1 ->
  (forall k, (k < n)%nat ->
     exists a, rd argv (Z.of_nat k) = Some (Tok a) /\ a <> "<" /\ a <> ">") ->
  redirect_loop world sys_open sys_dup2 (n + fuel) w argv argc 0
  = redirect_loop world sys_open sys_dup2 fuel w argv argc (Z.of_nat n).
Proof.
  intros Hle Hall. change 0 with (Z.of_nat 0).
  rewrite redirect_loop_passes; [reflexivity | simpl; lia |].
  intros k Hk. apply Hall. lia.
Qed.

(** After the fork the counter restarts at 1: the first token behind the
    separator is not looked at. *)
Lemma pipeline_loop_rest (w : world) (argv : list cell) (right : list string) :
  holds argv right -> plain_tokens ["|"] (tl right) ->
  pipeline_loop world sys_dup2 sys_pipe sys_fork sys_close sys_wait
    (List.length right) w argv (Z.of_nat (List.length right)) 1
  = (Ok (w, argv, Z.of_nat (List.length right)), []).
Proof.
  intros [Ht _] Hp. destruct right as [|x right]; [reflexivity|].
  cbn [tl] in Hp.
  replace (List.length (x :: right)) with (List.length right + 1)%nat at 1
    by (simpl; lia).
  change 1 with (Z.of_nat 1).
  rewrite pipeline_loop_passes; [|simpl List.length; lia|].
  - apply pipeline_loop_done. simpl List.length. lia.
  - intros k Hk. exists (nth k (x :: right) EmptyString).
    split; [apply Ht; simpl List.length; lia|].
    destruct k as [|k]; [lia|]. cbn [nth].
    apply (plain_tokens_nth ["|"]); [exact Hp | lia | now left].
Qed.

Lemma check_pipeline_fork_child (w w1 w2 w4 : world)
  (left right : list string) (ret fd0 fd1 r : Z) :
  plain_tokens ["|"] left -> plain_tokens ["|"] (tl right) ->
  sys_pipe w = (ret, fd0, fd1, w1) -> 0 <= ret ->
  sys_fork w1 = (0, w2) ->
  fd1 <> -1 -> sys_dup2 (sys_close w2 fd0) fd1 1 = (r, w4) -> r <> -1 ->
  exists argv',
    check_pipeline world sys_dup2 sys_pipe sys_fork sys_close sys_wait
      w (argv_of (left ++ "|" :: right))
      (Z.of_nat (List.length (left ++ "|" :: right)))
    = (Ok (w4, argv', Z.of_nat (List.length right)),
       [PipeCall ret fd0 fd1; ForkCall 0; CloseCall fd0;
        Sys (Dup2 fd1 1 r)])
    /\ holds argv' right.
Proof.
  intros Hl Hr Hp Hret Hf Hfd Hd Hrr.
  set (l := left ++ "|" :: right).
  set (i0 := List.length left).
  assert (Hn : List.length l = (i0 + S (List.length right))%nat).
  { unfold l, i0. rewrite length_app. simpl. lia. }
  assert (Hh : holds (argv_of l) l) by apply holds_argv_of.
  pose proof (argv_of_longer l) as Hlong.
  assert (Hleft : forall k, (k < i0)%nat ->
            nth k l EmptyString = nth k left EmptyString)
    by (intros k Hk; now apply nth_app_left).
  assert (Hsep : nth i0 l EmptyString = "|").
  { unfold l, i0. rewrite <- (Nat.add_0_r (List.length left)) at 1.
    now rewrite nth_app_right. }
  assert (Hright : forall k,
            nth (i0 + S k) l EmptyString = nth k right EmptyString).
  { intros k. unfold l, i0. now rewrite nth_app_right. }
  destruct (memmove_spec (argv_of l) 0 (Z.of_nat i0 + 1)
              (Z.of_nat (List.length right)))
    as (argv1 & Hm & Hl1 & Hr1); try lia.
  destruct (wr_in_range argv1 (Z.of_nat (List.length right)) Null
              ltac:(lia)) as (argv2 & Hw).
  destruct (wr_spec _ _ _ _ Hw) as (Hl2 & Hr2).
  assert (Hh2 : holds argv2 right).
  { split.
    - intros k Hk. rewrite Hr2, Hr1.
      assert (E1 : (Z.of_nat k =? Z.of_nat (List.length right)) = false)
        by (bools; lia).
      assert (E2 : (0 <=? Z.of_nat k)
                   && (Z.of_nat k <? 0 + Z.of_nat (List.length right))
                   = true) by (bools; lia).
      rewrite E1, E2.
      replace (Z.of_nat i0 + 1 + (Z.of_nat k - 0))
        with (Z.of_nat (i0 + S k)) by lia.
      rewrite (proj1 Hh) by lia. now rewrite Hright.
    - rewrite Hr2. now rewrite Z.eqb_refl. }
  exists argv2. split; [|exact Hh2].
  unfold check_pipeline. rewrite Nat2Z.id.
  replace (List.length l) with (i0 + S (List.length right))%nat at 1 by lia.
  rewrite pipeline_loop_prefix; [|lia|].
  2:{ intros k Hk. exists (nth k l EmptyString).
      split; [apply (proj1 Hh); lia|]. rewrite Hleft by lia.
      apply (plain_tokens_nth ["|"]); [exact Hl | fold i0; lia | now left]. }
  cbn [Nat.add].
  rewrite (pipeline_loop_fork_child world sys_dup2 sys_pipe sys_fork
             sys_close sys_wait (List.length right) w w1 w2 w4 (argv_of l)
             argv1 argv2 (Z.of_nat (List.length l))
             (Z.of_nat (List.length right)) (Z.of_nat i0) ret fd0 fd1 r);
    try assumption; try lia.
  - rewrite (pipeline_loop_rest w4 argv2 right Hh2 Hr). reflexivity.
  - rewrite (proj1 Hh) by lia. now rewrite Hsep.
Qed.

Lemma check_pipeline_fork_parent (w w1 w2 w4 : world)
  (left right : list string) (ret fd0 fd1 pid r : Z) :
  plain_tokens ["|"] left ->
  sys_pipe w = (ret, fd0, fd1, w1) -> 0 <= ret ->
  sys_fork w1 = (pid, w2) -> 0 < pid ->
  fd0 <> -1 -> sys_dup2 (sys_close w2 fd1) fd0 0 = (r, w4) -> r <> -1 ->
  exists argv',
    check_pipeline world sys_dup2 sys_pipe sys_fork sys_close sys_wait
      w (argv_of (left ++ "|" :: right))
      (Z.of_nat (List.length (left ++ "|" :: right)))
    = (Ok (sys_wait w4, argv',
           Z.of_nat (List.length (left ++ "|" :: right))),
       [PipeCall ret fd0 fd1; ForkCall pid; CloseCall fd1;
        Sys (Dup2 fd0 0 r); WaitCall])
    /\ holds argv' left
    /\ forall k, (k < List.length right)%nat ->
         rd argv' (Z.of_nat (List.length left + S k))
         = Some (Tok (nth k right EmptyString)).
Proof.
  intros Hl Hp Hret Hf Hpid Hfd Hd Hrr.
  set (l := left ++ "|" :: right).
  set (i0 := List.length left).
  assert (Hn : List.length l = (i0 + S (List.length right))%nat).
  { unfold l, i0. rewrite length_app. simpl. lia. }
  assert (Hh : holds (argv_of l) l) by apply holds_argv_of.
  pose proof (argv_of_longer l) as Hlong.
  assert (Hleft : forall k, (k < i0)%nat ->
            nth k l EmptyString = nth k left EmptyString)
    by (intros k Hk; now apply nth_app_left).
  assert (Hsep : nth i0 l EmptyString = "|").
  { unfold l, i0. rewrite <- (Nat.add_0_r (List.length left)) at 1.
    now rewrite nth_app_right. }
  assert (Hright : forall k,
            nth (i0 + S k) l EmptyString = nth k right EmptyString).
  { intros k. unfold l, i0. now rewrite nth_app_right. }
  destruct (wr_in_range (argv_of l) (Z.of_nat i0) Null ltac:(lia))
    as (argv1 & Hw).
  destruct (wr_spec _ _ _ _ Hw) as (Hl1 & Hr1).
  exists argv1. split; [|split].
  - unfold check_pipeline. rewrite Nat2Z.id.
    replace (List.length l) with (i0 + S (List.length right))%nat at 1
      by lia.
    rewrite pipeline_loop_prefix; [|lia|].
    2:{ intros k Hk. exists (nth k l EmptyString).
        split; [apply (proj1 Hh); lia|]. rewrite Hleft by lia.
        apply (plain_tokens_nth ["|"]);
          [exact Hl | fold i0; lia | now left]. }
    cbn [Nat.add].
    apply (pipeline_loop_fork_parent world sys_dup2 sys_pipe sys_fork
             sys_close sys_wait (List.length right) w w1 w2 w4);
      try assumption; try lia.
    rewrite (proj1 Hh) by lia. now rewrite Hsep.
  - split.
    + intros k Hk. rewrite Hr1.
      assert (E : (Z.of_nat k =? Z.of_nat i0) = false) by (bools; lia).
      rewrite E, (proj1 Hh) by lia. now rewrite Hleft.
    + rewrite Hr1. now rewrite Z.eqb_refl.
  - intros k Hk. rewrite Hr1.
    assert (E : (Z.of_nat (i0 + S k) =? Z.of_nat i0) = false)
      by (bools; lia).
    rewrite E, (proj1 Hh) by lia. now rewrite Hright.
Qed.

(** X16: in a pipeline [left | right], the process in which [fork]
    returns 0 closes the read end of the pipe, puts the write end on its
    standard output and goes on with the tokens to the right of the
    separator: when these hold no further operator it becomes a process
    group leader and executes [right]. *)
Theorem pipeline_fork_child_runs_right (w w1 w2 w4 : world)
  (left right : list string) (ret fd0 fd1 r state : Z) :
  let l := left ++ "|" :: right in
  plain_tokens ["|"] left -> plain_tokens ["|"] (tl right) ->
  plain_tokens ["<"; ">"] right -> right <> [] ->
  sys_pipe w = (ret, fd0, fd1, w1) -> 0 <= ret ->
  sys_fork w1 = (0, w2) ->
  fd1 <> -1 -> sys_dup2 (sys_close w2 fd0) fd1 1 = (r, w4) -> r <> -1 ->
  child world sys_open sys_dup2 sys_pipe sys_fork sys_close sys_wait
    sys_setpgid sys_execve w (argv_of l) (Z.of_nat (List.length l)) state
  = launched world sys_setpgid sys_execve w4
      [PipeCall ret fd0 fd1; ForkCall 0; CloseCall fd0; Sys (Dup2 fd1 1 r)]
      right state.
Proof.
  intros l Hl Hr Hops Hne Hp Hret Hf Hfd Hd Hrr.
  destruct (check_pipeline_fork_child w w1 w2 w4 left right ret fd0 fd1 r
              Hl Hr Hp Hret Hf Hfd Hd Hrr) as (argv' & Hc & Hh).
  rewrite (child_finish world sys_open sys_dup2 sys_pipe sys_fork sys_close
             sys_wait sys_setpgid sys_execve w w4 w4 (argv_of l) argv' argv'
             (Z.of_nat (List.length l)) (Z.of_nat (List.length right)) state
             [PipeCall ret fd0 fd1; ForkCall 0; CloseCall fd0;
              Sys (Dup2 fd1 1 r)] [] right); try assumption.
  - cbn [map]. now rewrite app_nil_r.
  - now apply redirect_plain.
Qed.

(** X17: in a pipeline [left | right], the process in which [fork]
    returns a pid closes the write end of the pipe, puts the read end on
    its standard input, stores a null pointer over the separator, waits
    for a child and returns the argument count it was given: the array
    then holds the tokens of [left], with the tokens of [right] still in
    place behind the null pointer. *)
Theorem pipeline_fork_parent_keeps_left (w w1 w2 w4 : world)
  (left right : list string) (ret fd0 fd1 pid r : Z) :
  let l := left ++ "|" :: right in
  plain_tokens ["|"] left ->
  sys_pipe w = (ret, fd0, fd1, w1) -> 0 <= ret ->
  sys_fork w1 = (pid, w2) -> 0 < pid ->
  fd0 <> -1 -> sys_dup2 (sys_close w2 fd1) fd0 0 = (r, w4) -> r <> -1 ->
  exists argv',
    check_pipeline world sys_dup2 sys_pipe sys_fork sys_close sys_wait
      w (argv_of l) (Z.of_nat (List.length l))
    = (Ok (sys_wait w4, argv', Z.of_nat (List.length l)),
       [PipeCall ret fd0 fd1; ForkCall pid; CloseCall fd1;
        Sys (Dup2 fd0 0 r); WaitCall])
    /\ exec_args argv' = Some left
    /\ forall k, (k < List.length right)%nat ->
         rd argv' (Z.of_nat (List.length left + S k))
         = Some (Tok (nth k right EmptyString)).
Proof.
  intros l Hl Hp Hret Hf Hpid Hfd Hd Hrr.
  destruct (check_pipeline_fork_parent w w1 w2 w4 left right ret fd0 fd1
              pid r Hl Hp Hret Hf Hpid Hfd Hd Hrr)
    as (argv' & Hc & Hh & Hk).
  exists argv'. split; [exact Hc|]. split; [|exact Hk].
  now apply exec_args_holds.
Qed.

(** X18: in a pipeline [left | right] with at least one token behind the
    separator and no operator in [left], the process in which [fork]
    returns a pid gets from [check_pipeline] the count of the whole line;
    the redirection scan of [eval] therefore reaches the cell in which
    [check_pipeline] stored the null pointer and hands that pointer to
    [strcmp]: this process makes no [setpgid] and no [execve] call. *)
Theorem pipeline_fork_parent_scan (w w1 w2 w4 : world)
  (left right : list string) (ret fd0 fd1 pid r state : Z) :
  let l := left ++ "|" :: right in
  plain_tokens ["|"; "<"; ">"] left -> right <> [] ->
  sys_pipe w = (ret, fd0, fd1, w1) -> 0 <= ret ->
  sys_fork w1 = (pid, w2) -> 0 < pid ->
  fd0 <> -1 -> sys_dup2 (sys_close w2 fd1) fd0 0 = (r, w4) -> r <> -1 ->
  child world sys_open sys_dup2 sys_pipe sys_fork sys_close sys_wait
    sys_setpgid sys_execve w (argv_of l) (Z.of_nat (List.length l)) state
  = (Faults,
     [PipeCall ret fd0 fd1; ForkCall pid; CloseCall fd1;
      Sys (Dup2 fd0 0 r); WaitCall]).
Proof.
  intros l Hl Hne Hp Hret Hf Hpid Hfd Hd Hrr.
  assert (Hl1 : plain_tokens ["|"] left).
  { intros a Ha op [<-|[]]. apply (Hl a Ha). simpl; auto. }
  destruct (check_pipeline_fork_parent w w1 w2 w4 left right ret fd0 fd1
              pid r Hl1 Hp Hret Hf Hpid Hfd Hd Hrr)
    as (argv' & Hc & Hh & _).
  fold l in Hc.
  assert (Hn : List.length l
               = (List.length left + S (List.length right))%nat).
  { unfold l. rewrite length_app. simpl. lia. }
  assert (Hr : (0 < List.length right)%nat)
    by (destruct right; [contradiction | simpl; lia]).
  unfold child. rewrite Hc. unfold redirect. rewrite Nat2Z.id.
  replace (List.length l)
    with (List.length left + S (List.length right))%nat at 1 by lia.
  rewrite redirect_loop_prefix; [|lia|].
  2:{ intros k Hk. exists (nth k left EmptyString).
      split; [apply (proj1 Hh); lia|].
      split; apply (plain_tokens_nth ["|"; "<"; ">"]); try exact Hl;
        try lia; simpl; auto. }
  cbn [Nat.add redirect_loop].
  assert (E : (Z.of_nat (List.length left) <? Z.of_nat (List.length l) - 1)
              = true) by (bools; lia).
  rewrite E. unfold redirect_at. rewrite (proj2 Hh). cbn [map].
  now rewrite app_nil_r.
Qed.

(** A command with one redirection, followed by at most two tokens. *)
Lemma redirect_single (w w1 w2 : world) (pre post : list string)
  (op file : string) (fd : Z) (out : list effect) :
  op = "<" \/ op = ">" ->
  plain_tokens ["<"; ">"] pre ->
  (List.length post <= 2)%nat ->
  (List.length (pre ++ op :: file :: post) + 2 <= Z.to_nat MAXARGS)%nat ->
  sys_open w file (open_flags op) (open_mode op) = (fd, w1) ->
  redirect_each world sys_dup2 w1 fd (dup_targets op) = (Ok w2, out) ->
  exists argv',
    redirect world sys_open sys_dup2 w (argv_of (pre ++ op :: file :: post))
      (Z.of_nat (List.length (pre ++ op :: file :: post)))
    = (Ok (w2, argv', Z.of_nat (List.length (pre ++ post))),
       Open file (open_flags op) (open_mode op) fd :: out)
    /\ holds argv' (pre ++ post).
Proof.
  intros Hop Hpre Hpost Hmax Hopen Heach.
  set (tokens := pre ++ op :: file :: post) in *.
  set (i0 := List.length pre).
  assert (Hn : List.length tokens = (i0 + 2 + List.length post)%nat).
  { unfold tokens, i0. rewrite length_app. simpl. lia. }
  assert (Hlen : List.length (argv_of tokens) = Z.to_nat MAXARGS)
    by (apply argv_of_length; lia).
  assert (Htok : forall k, (k < List.length tokens)%nat ->
            rd (argv_of tokens) (Z.of_nat k)
              = Some (Tok (nth k tokens EmptyString)))
    by (intros; now apply rd_argv_of_token).
  assert (Hpre_nth : forall k, (k < i0)%nat ->
            nth k tokens EmptyString = nth k pre EmptyString)
    by (intros k Hk; now apply nth_app_left).
  assert (Hpost_nth : forall k,
            nth (i0 + 2 + k) tokens EmptyString = nth k post EmptyString).
  { intros k. unfold tokens, i0.
    replace (List.length pre + 2 + k)%nat
      with (List.length pre + S (S k))%nat by lia.
    now rewrite nth_app_right. }
  assert (Hop_nth : nth i0 tokens EmptyString = op).
  { unfold tokens, i0. rewrite <- (Nat.add_0_r (List.length pre)) at 1.
    now rewrite nth_app_right. }
  assert (Hfile_nth : nth (S i0) tokens EmptyString = file).
  { unfold tokens, i0.
    replace (S (List.length pre)) with (List.length pre + 1)%nat by lia.
    now rewrite nth_app_right. }
  destruct (remove_args_spec (argv_of tokens) (Z.of_nat (List.length tokens))
              (Z.of_nat i0) 2) as (argv' & Hrm & Hl' & Hrd'); try lia.
  assert (Hh' : holds argv' (pre ++ post)).
  { split.
    - intros k Hk. rewrite length_app in Hk. fold i0 in Hk. rewrite Hrd'.
      assert (E1 : (Z.of_nat k =? Z.of_nat i0 + 2) = false) by (bools; lia).
      rewrite E1.
      destruct (Nat.lt_ge_cases k i0) as [Hlt|Hge].
      + assert (E2 : (Z.of_nat i0 <=? Z.of_nat k)
                     && (Z.of_nat k <? Z.of_nat (List.length tokens)) = false)
          by (bools; lia).
        rewrite E2, Htok by lia. rewrite Hpre_nth by lia.
        now rewrite app_nth1 by (fold i0; lia).
      + assert (E2 : (Z.of_nat i0 <=? Z.of_nat k)
                     && (Z.of_nat k <? Z.of_nat (List.length tokens)) = true)
          by (bools; lia).
        rewrite E2. replace (Z.of_nat k + 2) with (Z.of_nat (i0 + 2 + (k - i0)))
          by lia.
        rewrite Htok by lia. rewrite Hpost_nth.
        now rewrite app_nth2 by (fold i0; lia).
    - rewrite length_app. fold i0. rewrite Hrd'.
      destruct (Nat.eq_dec (List.length post) 2) as [H2|H2].
      + assert (E1 : (Z.of_nat (i0 + List.length post) =? Z.of_nat i0 + 2)
                     = true) by (bools; lia).
        now rewrite E1.
      + assert (E1 : (Z.of_nat (i0 + List.length post) =? Z.of_nat i0 + 2)
                     = false) by (bools; lia).
        assert (E2 : (Z.of_nat i0 <=? Z.of_nat (i0 + List.length post))
                     && (Z.of_nat (i0 + List.length post)
                           <? Z.of_nat (List.length tokens)) = true)
          by (bools; lia).
        rewrite E1, E2.
        replace (Z.of_nat (i0 + List.length post) + 2)
          with (Z.of_nat (List.length tokens)) by lia.
        apply rd_argv_of_null. }
  exists argv'. split; [|exact Hh'].
  assert (Hcount : Z.of_nat (List.length tokens) - 2
                   = Z.of_nat (List.length (pre ++ post))).
  { rewrite length_app. fold i0. lia. }
  unfold redirect. rewrite Nat2Z.id.
  replace (List.length tokens) with (i0 + (2 + List.length post))%nat at 1
    by lia.
  rewrite redirect_loop_prefix; [|lia|].
  2:{ intros k Hk. exists (nth k tokens EmptyString).
      split; [apply Htok; lia|]. rewrite Hpre_nth by lia.
      split; apply (plain_tokens_nth ["<"; ">"]); try exact Hpre;
        try (fold i0; lia); simpl; auto. }
  cbn [Nat.add redirect_loop].
  assert (E : (Z.of_nat i0 <? Z.of_nat (List.length tokens) - 1) = true)
    by (bools; lia).
  rewrite E.
  assert (Eop : rd (argv_of tokens) (Z.of_nat i0) = Some (Tok op))
    by (rewrite Htok by lia; now rewrite Hop_nth).
  assert (Efile : rd (argv_of tokens) (Z.of_nat i0 + 1) = Some (Tok file)).
  { replace (Z.of_nat i0 + 1) with (Z.of_nat (S i0)) by lia.
    rewrite Htok by lia. now rewrite Hfile_nth. }
  assert (Eend : (Z.of_nat i0 + 1 <? Z.of_nat (List.length tokens) - 2 - 1)
                 = false) by (bools; lia).
  unfold redirect_at. rewrite Eop.
  destruct Hop as [-> | ->]; unfold open_flags, open_mode, dup_targets in *;
    simpl String.eqb in *; cbv iota in *;
    unfold redirect_one; rewrite Efile, Hopen, Heach, Hrm, Eend; cbn [app];
    rewrite app_nil_r, Hcount; reflexivity.
Qed.

(** X19: a command with one redirection and at most two tokens behind
    the file name, every system call succeeding: the child opens the file
    with the flags of the operator, duplicates the descriptor onto
    standard input for [<] and onto standard output and standard error
    for [>], becomes a process group leader and executes the remaining
    tokens, in order, without the operator and the file name. *)
Theorem redirected_launch (w w1 w2 : world) (pre post : list string)
  (op file : string) (fd state : Z) (out : list effect) :
  let l := pre ++ op :: file :: post in
  op = "<" \/ op = ">" ->
  plain_tokens ["|"] l -> plain_tokens ["<"; ">"] pre ->
  pre ++ post <> [] ->
  (List.length post <= 2)%nat ->
  (List.length l + 2 <= Z.to_nat MAXARGS)%nat ->
  sys_open w file (open_flags op) (open_mode op) = (fd, w1) ->
  redirect_each world sys_dup2 w1 fd (dup_targets op) = (Ok w2, out) ->
  child world sys_open sys_dup2 sys_pipe sys_fork sys_close sys_wait
    sys_setpgid sys_execve w (argv_of l) (Z.of_nat (List.length l)) state
  = launched world sys_setpgid sys_execve w2
      (Sys (Open file (open_flags op) (open_mode op) fd) :: map Sys out)
      (pre ++ post) state.
Proof.
  intros l Hop Hpipe Hpre Hne Hpost Hmax Hopen Heach.
  destruct (redirect_single w w1 w2 pre post op file fd out Hop Hpre Hpost
              Hmax Hopen Heach) as (argv' & Hr & Hh).
  fold l in Hr.
  apply (child_finish world sys_open sys_dup2 sys_pipe sys_fork sys_close
           sys_wait sys_setpgid sys_execve w w w2 (argv_of l) (argv_of l)
           argv' (Z.of_nat (List.length l)) (Z.of_nat (List.length l)) state
           [] (Open file (open_flags op) (open_mode op) fd :: out)
           (pre ++ post)); try assumption.
  apply check_pipeline_plain; [apply holds_argv_of | exact Hpipe].
Qed.

End PipelineSides.

Lemma pipeline_fork_child_runs_right_witness :
  pipe34 tt = (0, 3, 4, tt) /\ fork_as 0 tt = (0, tt)
  /\ dup2_ok tt 4 1 = (1, tt)
  /\ run_child 0 ["ls"; "|"; "wc"; "-l"]
     = (Ok ("wc", ["wc"; "-l"]),
        [PipeCall 0 3 4; ForkCall 0; CloseCall 3; Sys (Dup2 4 1 1);
         SetpgidCall; ExecveCall "wc" ["wc"; "-l"]]).
Proof.
  repeat (split; [reflexivity|]).
  refine (pipeline_fork_child_runs_right unit open3 dup2_ok pipe34
            (fork_as 0) close_ok same_world same_world execve_ok tt tt tt tt
            ["ls"] ["wc"; "-l"] 0 3 4 1 FG _ _ _ _ _ _ _ _ _ _).
  - intros a [<-|[]] op [<-|[]]; discriminate.
  - intros a [<-|[]] op [<-|[]]; discriminate.
  - intros a [<-|[<-|[]]] op [<-|[<-|[]]]; discriminate.
  - discriminate.
  - reflexivity.
  - lia.
  - reflexivity.
  - discriminate.
  - reflexivity.
  - discriminate.
Defined.

Lemma pipeline_fork_parent_keeps_left_witness :
  pipe34 tt = (0, 3, 4, tt) /\ fork_as 7 tt = (7, tt)
  /\ dup2_ok tt 3 0 = (0, tt)
  /\ exists argv',
       check_pipeline unit dup2_ok pipe34 (fork_as 7) close_ok same_world tt
         (argv_of ["ls"; "|"; "wc"]) 3
       = (Ok (tt, argv', 3),
          [PipeCall 0 3 4; ForkCall 7; CloseCall 4; Sys (Dup2 3 0 0);
           WaitCall])
       /\ exec_args argv' = Some ["ls"]
       /\ rd argv' 2 = Some (Tok "wc").
Proof.
  repeat (split; [reflexivity|]).
  destruct (pipeline_fork_parent_keeps_left unit dup2_ok pipe34 (fork_as 7)
              close_ok same_world tt tt tt tt ["ls"] ["wc"] 0 3 4 7 0)
    as (argv' & Hc & He & Hk).
  - intros a [<-|[]] op [<-|[]]; discriminate.
  - reflexivity.
  - lia.
  - reflexivity.
  - lia.
  - discriminate.
  - reflexivity.
  - discriminate.
  - exists argv'. split; [exact Hc|]. split; [exact He|].
    apply (Hk O). simpl; lia.
Defined.

Lemma pipeline_fork_parent_scan_witness :
  ["wc"] <> [] /\ fork_as 7 tt = (7, tt)
  /\ run_child 7 ["ls"; "|"; "wc"]
     = (Faults,
        [PipeCall 0 3 4; ForkCall 7; CloseCall 4; Sys (Dup2 3 0 0);
         WaitCall]).
Proof.
  split; [discriminate|]. split; [reflexivity|].
  refine (pipeline_fork_parent_scan unit open3 dup2_ok pipe34 (fork_as 7)
            close_ok same_world same_world execve_ok tt tt tt tt
            ["ls"] ["wc"] 0 3 4 7 0 FG _ _ _ _ _ _ _ _ _).
  - intros a [<-|[]] op [<-|[<-|[<-|[]]]]; discriminate.
  - discriminate.
  - reflexivity.
  - lia.
  - reflexivity.
  - lia.
  - discriminate.
  - reflexivity.
  - discriminate.
Defined.

Lemma redirected_launch_witness :
  open3 tt "in.txt" (open_flags "<") (open_mode "<") = (3, tt)
  /\ redirect_each unit dup2_ok tt 3 (dup_targets "<")
     = (Ok tt, [Dup2 3 0 0])
  /\ run_child 1 ["sort"; "-r"; "<"; "in.txt"; "&"]
     = (Ok ("sort", ["sort"; "-r"]),
        [Sys (Open "in.txt" O_RDONLY 0 3); Sys (Dup2 3 0 0); SetpgidCall;
         ExecveCall "sort" ["sort"; "-r"]]).
Proof.
  repeat (split; [reflexivity|]).
  refine (redirected_launch unit open3 dup2_ok pipe34 (fork_as 1) close_ok
            same_world same_world execve_ok tt tt tt ["sort"; "-r"] ["&"]
            "<" "in.txt" 3 BG [Dup2 3 0 0] _ _ _ _ _ _ _ _).
  - now left.
  - intros a [<-|[<-|[<-|[<-|[<-|[]]]]]] op [<-|[]]; discriminate.
  - intros a [<-|[<-|[]]] op [<-|[<-|[]]]; discriminate.
  - discriminate.
  - simpl; lia.
  - vm_compute. lia.
  - reflexivity.
  - reflexivity.
Defined.

(** * Leaving [waitfg] *)










